(** * costmin.py: the ceramic-powder procurement model

    A shallow embedding of [src/costmin.py]: the three domain tables, the
    construction of the PuLP model (variable families, objective and the five
    constraint blocks), the solve call and the two report views.

    Conventions.
    - A Python [dict] is an association list in insertion order: the script
      iterates over its tables, and the order of iteration fixes the order of
      the constraints and of the printed lines.  A subscript finds the first
      entry of its key; no statement below needs the keys to be distinct.
    - Numbers are rationals ([Q]); a decimal literal such as [91.72] or
      [0.02] stands for its exact decimal value.  Only the total cost is
      computed by the script's side in floating point: it is a binary64
      float, summed as PuLP sums it.
    - A linear expression of PuLP is a list of (variable, coefficient) terms
      with a constant; it is given meaning by [value_of] under an assignment.
      A constraint keeps the two sides of its comparison as they are written.
    - A failing subscript raises; the builder lives in the [result] monad and
      the script in [io], which also records what was printed. *)

From Stdlib Require Import String Ascii List Bool QArith Lia Lqa.
From Stdlib Require PrimFloat SpecFloat FloatOps.
Import ListNotations.
Open Scope string_scope.
Open Scope list_scope.

Set Implicit Arguments.

(** ** Exceptions and the [result] monad *)

Inductive pykey : Type :=
| KStr (s : string)
| KTuple (a b c : string).

Inductive exn : Type :=
| KeyError (k : pykey)
| IndexError
| TypeError.

(** The class name of an exception, as Python reports it. *)
Definition exn_class (e : exn) : string :=
  match e with
  | KeyError _ => "KeyError"
  | IndexError => "IndexError"
  | TypeError => "TypeError"
  end.

Inductive result (A : Type) : Type :=
| Ok (a : A)
| Err (e : exn).
Arguments Ok {A} a.
Arguments Err {A} e.

Definition bind {A B} (r : result A) (k : A -> result B) : result B :=
  match r with
  | Ok a => k a
  | Err e => Err e
  end.

Declare Scope result_scope.
Delimit Scope result_scope with result.
Notation "x <- c ;; k" := (bind c (fun x => k))
  (at level 61, c at next level, right associativity) : result_scope.
Open Scope result_scope.

Fixpoint mapM {A B} (f : A -> result B) (l : list A) : result (list B) :=
  match l with
  | [] => Ok []
  | a :: l' => b <- f a ;; bs <- mapM f l' ;; Ok (b :: bs)
  end.

(** A nested [for] of a generator or of a loop body that adds several items. *)
Fixpoint flat_mapM {A B} (f : A -> result (list B)) (l : list A)
  : result (list B) :=
  match l with
  | [] => Ok []
  | a :: l' => bs <- f a ;; rest <- flat_mapM f l' ;; Ok (bs ++ rest)
  end.

(** ** Dictionaries *)

Definition dict (V : Type) : Type := list (string * V).

Definition keys {V} (d : dict V) : list string := map fst d.

Fixpoint get {V} (d : dict V) (k : string) : option V :=
  match d with
  | [] => None
  | (k', v) :: d' => if String.eqb k k' then Some v else get d' k
  end.

(** [d[k]] *)
Definition getitem {V} (d : dict V) (k : string) : result V :=
  match get d k with
  | Some v => Ok v
  | None => Err (KeyError (KStr k))
  end.

Definition key3 : Type := string * string * string.

Definition key3_eqb (k k' : key3) : bool :=
  let '(a, b, c) := k in
  let '(a', b', c') := k' in
  String.eqb a a' && String.eqb b b' && String.eqb c c'.

Definition dict3 (V : Type) : Type := list (key3 * V).

Fixpoint get3 {V} (d : dict3 V) (k : key3) : option V :=
  match d with
  | [] => None
  | (k', v) :: d' => if key3_eqb k k' then Some v else get3 d' k
  end.

(** [d[a, b, c]] *)
Definition getitem3 {V} (d : dict3 V) (k : key3) : result V :=
  match get3 d k with
  | Some v => Ok v
  | None => let '(a, b, c) := k in Err (KeyError (KTuple a b c))
  end.

(** ** Decision variables and linear expressions *)

(** The four variable families of the script, by their index. *)
Inductive var : Type :=
| X (i s m : string)
| Z (i m s : string)
| P_plus (i : string)
| P_minus (i : string).

Inductive LpCategory : Type := LpContinuous | LpBinary.

Record LpVariable : Type := mkVar {
  name : var;
  lowBound : option Q;
  upBound : option Q;
  cat : LpCategory
}.

Record LpAffineExpression : Type := mkExpr {
  terms : list (LpVariable * Q);
  constant : Q
}.

Definition of_var (v : LpVariable) : LpAffineExpression :=
  mkExpr [(v, 1%Q)] 0%Q.

Definition of_num (c : Q) : LpAffineExpression := mkExpr [] c.

Definition add (e1 e2 : LpAffineExpression) : LpAffineExpression :=
  mkExpr (terms e1 ++ terms e2) (constant e1 + constant e2)%Q.

(** [e * c] and [c * e] for a number [c]: when [c] is 0 PuLP answers the
    empty expression, without the variables of [e]. *)
Definition scale (c : Q) (e : LpAffineExpression) : LpAffineExpression :=
  if Qeq_bool c 0 then mkExpr [] 0%Q
  else mkExpr (map (fun t => (fst t, (c * snd t)%Q)) (terms e))
              (c * constant e)%Q.

Definition sub (e1 e2 : LpAffineExpression) : LpAffineExpression :=
  add e1 (scale (-1)%Q e2).

Definition lpSum (l : list LpAffineExpression) : LpAffineExpression :=
  fold_left add l (of_num 0%Q).

Inductive LpSense : Type := LpConstraintLE | LpConstraintEQ | LpConstraintGE.

Record LpConstraint : Type := mkConstraint {
  lhs : LpAffineExpression;
  sense : LpSense;
  rhs : LpAffineExpression
}.

Inductive LpDirection : Type := LpMinimize | LpMaximize.

Record LpProblem : Type := mkProblem {
  direction : LpDirection;
  objective : LpAffineExpression;
  constraints : list LpConstraint
}.

(** ** Meaning of a model *)

Definition assignment : Type := var -> Q.

Fixpoint sumQ (l : list Q) : Q :=
  match l with
  | [] => 0%Q
  | q :: l' => (q + sumQ l')%Q
  end.

Definition value_of (a : assignment) (e : LpAffineExpression) : Q :=
  (sumQ (map (fun t => snd t * a (name (fst t))) (terms e)) + constant e)%Q.

Definition satisfies (a : assignment) (c : LpConstraint) : Prop :=
  match sense c with
  | LpConstraintLE => (value_of a (lhs c) <= value_of a (rhs c))%Q
  | LpConstraintEQ => (value_of a (lhs c) == value_of a (rhs c))%Q
  | LpConstraintGE => (value_of a (rhs c) <= value_of a (lhs c))%Q
  end.

Definition above (lo : option Q) (q : Q) : Prop :=
  match lo with Some b => (b <= q)%Q | None => True end.

Definition below (up : option Q) (q : Q) : Prop :=
  match up with Some b => (q <= b)%Q | None => True end.

(** A value is admissible for a variable: within its bounds, and 0 or 1 for
    a binary one. *)
Definition in_domain (v : LpVariable) (q : Q) : Prop :=
  above (lowBound v) q /\ below (upBound v) q /\
  match cat v with
  | LpContinuous => True
  | LpBinary => (q == 0 \/ q == 1)%Q
  end.

Definition expr_vars (e : LpAffineExpression) : list LpVariable :=
  map fst (terms e).

Definition constraint_vars (c : LpConstraint) : list LpVariable :=
  expr_vars (lhs c) ++ expr_vars (rhs c).

(** [prob.variables()]: the variables of the objective and the constraints. *)
Definition variables (p : LpProblem) : list LpVariable :=
  expr_vars (objective p) ++ flat_map constraint_vars (constraints p).

Definition feasible (p : LpProblem) (a : assignment) : Prop :=
  (forall c, In c (constraints p) -> satisfies a c) /\
  (forall v, In v (variables p) -> in_domain v (a (name v))).

Definition optimal (p : LpProblem) (a : assignment) : Prop :=
  feasible p a /\
  forall a', feasible p a' ->
    match direction p with
    | LpMinimize => (value_of a (objective p) <= value_of a' (objective p))%Q
    | LpMaximize => (value_of a' (objective p) <= value_of a (objective p))%Q
    end.

(** ** The report: printed lines and the [io] monad *)

Inductive LpStatus : Type :=
| LpStatusNotSolved
| LpStatusOptimal
| LpStatusInfeasible
| LpStatusUnbounded
| LpStatusUndefined.

(** What [prob.solve] leaves behind: the status it returns and the
    [varValue] of every variable ([None] where it assigned nothing).  All
    dictionaries share the variables, so one store serves them all. *)
Record solution : Type := mkSolution {
  status : LpStatus;
  varValue : var -> option Q
}.

Inductive event : Type :=
| Solved (st : LpStatus)                       (* line 82 *)
| PrintImplant (i : string)                    (* line 86 *)
| PrintPurchase (m s : string) (q : option Q)  (* line 90 *)
| PrintBlank                                   (* line 91 *)
| PrintTotalCost (v : option PrimFloat.float)  (* line 94 *)
| PrintTable (t : string).                     (* line 121 *)

(** Printed lines so far, and how the computation ended. *)
Definition io (A : Type) : Type := (list event * result A)%type.

Definition ret {A} (a : A) : io A := ([], Ok a).

Definition print (e : event) : io unit := ([e], Ok tt).

Definition lift {A} (r : result A) : io A := ([], r).

Definition bind_io {A B} (c : io A) (k : A -> io B) : io B :=
  match c with
  | (t, Ok a) => let '(t', r) := k a in (t ++ t', r)
  | (t, Err e) => (t, Err e)
  end.

Declare Scope io_scope.
Delimit Scope io_scope with io.
Notation "x <- c ;; k" := (bind_io c (fun x => k))
  (at level 61, c at next level, right associativity) : io_scope.
Notation "c ;;; k" := (bind_io c (fun _ => k))
  (at level 61, right associativity) : io_scope.

Fixpoint for_each {A} (f : A -> io unit) (l : list A) : io unit :=
  match l with
  | [] => ret tt
  | a :: l' => (f a ;;; for_each f l')%io
  end.

(** ** Strings of the summary table *)

Definition nl : string := String (ascii_of_nat 10) EmptyString.

Fixpoint spaces (n : nat) : string :=
  match n with
  | O => EmptyString
  | S n' => String " "%char (spaces n')
  end.

(** [f"{s:<w}"]: left-justified in a field of width [w], never cut. *)
Definition ljust (w : nat) (s : string) : string :=
  (s ++ spaces (w - String.length s))%string.

Fixpoint repeat_string (s : string) (n : nat) : string :=
  match n with
  | O => EmptyString
  | S n' => (s ++ repeat_string s n')%string
  end.

(** [s[-1]] *)
Fixpoint last_char (s : string) : result string :=
  match s with
  | EmptyString => Err IndexError
  | String c EmptyString => Ok (String c EmptyString)
  | String _ s' => last_char s'
  end.

(** [row[n]] *)
Definition index (row : list string) (n : nat) : result string :=
  match nth_error row n with
  | Some c => Ok c
  | None => Err IndexError
  end.

(** [v != 0]: [None] differs from 0. *)
Definition ne_zero (v : option Q) : bool :=
  match v with
  | Some q => negb (Qeq_bool q 0)
  | None => true
  end.

(** [v > 0]: comparing [None] with a number raises [TypeError]. *)
Definition gt_zero (v : option Q) : result bool :=
  match v with
  | Some q => Ok (negb (Qle_bool q 0))
  | None => Err TypeError
  end.

(** ** Floating point *)

Definition SF_of_Z (n : BinNums.Z) : SpecFloat.spec_float :=
  match n with
  | Z0 => SpecFloat.S754_zero false
  | Zpos p => SpecFloat.S754_finite false p 0
  | Zneg p => SpecFloat.S754_finite true p 0
  end.

(** A number as Python holds it in a [float]: the binary64 float nearest
    to it, ties to even. *)
Definition float_of_Q (q : Q) : PrimFloat.float :=
  FloatOps.SF2Prim
    (SpecFloat.SFdiv FloatOps.prec FloatOps.emax
       (SF_of_Z (Qnum q)) (SpecFloat.S754_finite false (Qden q) 0)).

(** The positive float [m * 2^e]. *)
Definition binary64 (m : positive) (e : BinNums.Z) : PrimFloat.float :=
  FloatOps.SF2Prim (SpecFloat.S754_finite false m e).

(** ** Lines 97-117: the summary table *)

Definition header : string :=
  (ljust 15 "Dental implantation" ++ " | " ++ ljust 10 "White" ++ " | " ++
   ljust 10 "Yellow" ++ " | " ++ ljust 10 "Pink" ++ " | " ++
   ljust 10 "Gray" ++ nl)%string.

Definition divider : string := (repeat_string "_" 60 ++ nl)%string.

(** The inner loop over the suppliers of lines 107-114: the first supplier
    with a positive quantity gives the cell and ends the loop; [0] when none
    has. *)
Fixpoint supplier_cell (x : dict3 LpVariable) (sol : solution)
    (i m : string) (suppliers : list string) : result string :=
  match suppliers with
  | [] => Ok "0"
  | s :: rest =>
      v <- getitem3 x (i, s, m) ;;
      b <- gt_zero (varValue sol (name v)) ;;
      if b then (c <- last_char s ;; Ok ("supplier " ++ c)%string)
      else supplier_cell x sol i m rest
  end.

(** Line 115. *)
Definition format_row (row : list string) : result string :=
  r0 <- index row 0 ;;
  r1 <- index row 1 ;;
  r2 <- index row 2 ;;
  r3 <- index row 3 ;;
  r4 <- index row 4 ;;
  Ok (ljust 15 r0 ++ " | " ++ ljust 10 r1 ++ " | " ++ ljust 10 r2 ++ " | " ++
      ljust 10 r3 ++ " | " ++ ljust 10 r4 ++ nl)%string.

Definition table_row (x : dict3 LpVariable) (sol : solution)
    (ceramic_composition : dict (dict Q)) (costs : dict (dict Q))
    (i : string) : result string :=
  ms <- getitem ceramic_composition i ;;
  cells <- mapM (fun m => supplier_cell x sol i m (keys costs)) (keys ms) ;;
  format_row (i :: cells).

Definition generate_formatted_table_with_suppliers
    (x : dict3 LpVariable) (sol : solution)
    (ceramic_composition : dict (dict Q)) (costs : dict (dict Q))
  : result string :=
  rows <- mapM (table_row x sol ceramic_composition costs)
               (keys ceramic_composition) ;;
  Ok (header ++ divider ++ String.concat "" rows)%string.

(** ** Lines 38-79: building the model *)

(** [LpVariable(name, lowBound, upBound, cat)]: a binary variable is bounded
    by 0 and 1 whatever bounds were passed. *)
Definition LpVariable_new (n : var) (lo up : option Q) (c : LpCategory)
  : LpVariable :=
  match c with
  | LpContinuous => mkVar n lo up LpContinuous
  | LpBinary => mkVar n (Some 0%Q) (Some 1%Q) LpBinary
  end.

(** [LpVariable.dicts(name, indices, lowBound, upBound, cat)] *)
Definition LpVariable_dicts {K} (n : K -> var) (indices : list K)
    (lo up : option Q) (c : LpCategory) : list (K * LpVariable) :=
  map (fun k => (k, LpVariable_new (n k) lo up c)) indices.

Definition x_name (k : key3) : var := let '(i, s, m) := k in X i s m.
Definition z_name (k : key3) : var := let '(i, m, s) := k in Z i m s.

(** The penalty weights of line 53. *)
Definition w_plus : Q := 2 # 100.
Definition w_minus : Q := 5 # 100.

(** The variable families and the problem, as the script holds them after
    line 79. *)
Record model : Type := mkModel {
  x : dict3 LpVariable;
  p_plus : dict LpVariable;
  p_minus : dict LpVariable;
  z : dict3 LpVariable;
  prob : LpProblem
}.

Section Script.

Variable demand : dict Q.
Variable costs : dict (dict Q).
Variable ceramic_composition : dict (dict Q).

(** The generator of line 42. *)
Definition x_indices : result (list key3) :=
  flat_mapM (fun i =>
    flat_mapM (fun s =>
      ms <- getitem ceramic_composition i ;;
      Ok (map (fun m => (i, s, m)) (keys ms)))
    (keys costs))
  (keys demand).

(** The generator of line 49. *)
Definition z_indices : result (list key3) :=
  flat_mapM (fun i =>
    ms <- getitem ceramic_composition i ;;
    Ok (flat_map (fun m => map (fun s => (i, m, s)) (keys costs)) (keys ms)))
  (keys demand).

Section Constraints.

Variable x : dict3 LpVariable.
Variable p_plus p_minus : dict LpVariable.
Variable z : dict3 LpVariable.

(** Lines 52-53. *)
Definition purchase_terms : result (list LpAffineExpression) :=
  flat_mapM (fun i =>
    flat_mapM (fun s =>
      ms <- getitem ceramic_composition i ;;
      mapM (fun m =>
        v <- getitem3 x (i, s, m) ;;
        prices <- getitem costs s ;;
        c <- getitem prices m ;;
        Ok (scale c (of_var v)))
      (keys ms))
    (keys costs))
  (keys demand).

Definition penalty_terms (p : dict LpVariable)
  : result (list LpAffineExpression) :=
  mapM (fun i => v <- getitem p i ;; Ok (of_var v)) (keys demand).

Definition objective_function : result LpAffineExpression :=
  xs <- purchase_terms ;;
  pp <- penalty_terms p_plus ;;
  pm <- penalty_terms p_minus ;;
  Ok (add (add (lpSum xs) (scale w_plus (lpSum pp)))
          (scale w_minus (lpSum pm))).

(** Line 59, for one implant. *)
Definition restriction1 (i : string) : result LpConstraint :=
  ms <- getitem ceramic_composition i ;;
  vs <- mapM (fun m => v <- getitem3 x (i, "supplier 1", m) ;;
                       Ok (of_var v)) (keys ms) ;;
  Ok (mkConstraint (lpSum vs) LpConstraintGE (of_num 1)).

(** Line 63, for one implant. *)
Definition restriction2 (i : string) : result LpConstraint :=
  ms <- getitem ceramic_composition i ;;
  vs <- mapM (fun m => v <- getitem3 z (i, m, "supplier 3") ;;
                       Ok (of_var v)) (keys ms) ;;
  Ok (mkConstraint (lpSum vs) LpConstraintLE (of_num 2)).

(** Line 68, for one implant and one powder. *)
Definition restriction3 (i m : string) : result LpConstraint :=
  vs <- mapM (fun s => v <- getitem3 x (i, s, m) ;; Ok (of_var v))
             (keys costs) ;;
  ms <- getitem ceramic_composition i ;;
  q <- getitem ms m ;;
  Ok (mkConstraint (lpSum vs) LpConstraintEQ (of_num q)).

(** Line 72, for one implant. *)
Definition restriction4 (i : string) : result LpConstraint :=
  vs <- flat_mapM (fun s =>
          ms <- getitem ceramic_composition i ;;
          mapM (fun m => v <- getitem3 x (i, s, m) ;; Ok (of_var v))
               (keys ms))
        (keys costs) ;;
  d <- getitem demand i ;;
  pp <- getitem p_plus i ;;
  pm <- getitem p_minus i ;;
  Ok (mkConstraint (lpSum vs) LpConstraintEQ
        (sub (add (of_num d) (of_var pp)) (of_var pm))).

(** Line 77, for one implant and one powder. *)
Definition restriction5_one (i m : string) : result LpConstraint :=
  vs <- mapM (fun s => v <- getitem3 z (i, m, s) ;; Ok (of_var v))
             (keys costs) ;;
  Ok (mkConstraint (lpSum vs) LpConstraintEQ (of_num 1)).

(** Line 79, for one implant, powder and supplier. *)
Definition restriction5_link (i m s : string) : result LpConstraint :=
  xv <- getitem3 x (i, s, m) ;;
  zv <- getitem3 z (i, m, s) ;;
  ms <- getitem ceramic_composition i ;;
  q <- getitem ms m ;;
  Ok (mkConstraint (of_var xv) LpConstraintLE (scale q (of_var zv))).

(** The loops of lines 58-79, in order. *)
Definition restrictions : result (list LpConstraint) :=
  c1 <- mapM restriction1 (keys demand) ;;
  c2 <- mapM restriction2 (keys demand) ;;
  c3 <- flat_mapM (fun i =>
          ms <- getitem ceramic_composition i ;;
          mapM (restriction3 i) (keys ms))
        (keys ceramic_composition) ;;
  c4 <- mapM restriction4 (keys demand) ;;
  c5 <- flat_mapM (fun i =>
          ms <- getitem ceramic_composition i ;;
          flat_mapM (fun m =>
            one <- restriction5_one i m ;;
            links <- mapM (restriction5_link i m) (keys costs) ;;
            Ok (one :: links))
          (keys ms))
        (keys demand) ;;
  Ok (c1 ++ c2 ++ c3 ++ c4 ++ c5).

End Constraints.

(** Lines 39-79. *)
Definition build : result model :=
  xi <- x_indices ;;
  let x := LpVariable_dicts x_name xi (Some 0%Q) None LpContinuous in
  let p_plus :=
    LpVariable_dicts P_plus (keys demand) (Some 0%Q) None LpContinuous in
  let p_minus :=
    LpVariable_dicts P_minus (keys demand) (Some 0%Q) None LpContinuous in
  zi <- z_indices ;;
  let z := LpVariable_dicts z_name zi None None LpBinary in
  obj <- objective_function x p_plus p_minus ;;
  cs <- restrictions x p_plus p_minus z ;;
  Ok (mkModel x p_plus p_minus z (mkProblem LpMinimize obj cs)).

(** ** Lines 81-94: solving and the detail view *)

(** Line 89-90, for one implant, powder and supplier. *)
Definition report_purchase (x : dict3 LpVariable) (sol : solution)
    (i m s : string) : io unit :=
  (v <- lift (getitem3 x (i, s, m)) ;;
   if ne_zero (varValue sol (name v))
   then (v' <- lift (getitem3 x (i, s, m)) ;;
         print (PrintPurchase m s (varValue sol (name v'))))
   else ret tt)%io.

(** Lines 86-91, for one implant. *)
Definition report_implant (x : dict3 LpVariable) (sol : solution)
    (i : string) : io unit :=
  (print (PrintImplant i) ;;;
   ms <- lift (getitem ceramic_composition i) ;;
   for_each (fun m => for_each (report_purchase x sol i m) (keys costs))
            (keys ms) ;;;
   print PrintBlank)%io.

(** Lines 85-91. *)
Definition detail_view (x : dict3 LpVariable) (sol : solution) : io unit :=
  for_each (report_implant x sol) (keys ceramic_composition).

(** The loop of [e.value()]: [None] as soon as a variable has no value,
    and else the products of value and coefficient added one after the
    other, in floating point. *)
Fixpoint terms_value (val : var -> option Q) (ts : list (LpVariable * Q))
    (acc : PrimFloat.float) : option PrimFloat.float :=
  match ts with
  | [] => Some acc
  | (v, c) :: ts' =>
      match val (name v) with
      | None => None
      | Some q =>
          terms_value val ts'
            (PrimFloat.add acc (PrimFloat.mul (float_of_Q q) (float_of_Q c)))
      end
  end.

(** [prob.objective.value()] once [prob.solve] has run.  To an objective
    without a term the solve has added PuLP's variable [__dummy], which
    gets no value: the answer is then [None]. *)
Definition expr_value (val : var -> option Q) (e : LpAffineExpression)
  : option PrimFloat.float :=
  match terms e with
  | [] => None
  | _ :: _ => terms_value val (terms e) (float_of_Q (constant e))
  end.

(** The whole script, against a solver that is a black box. *)
Definition script (solver : LpProblem -> solution) : io unit :=
  (mdl <- lift build ;;
   let sol := solver (prob mdl) in
   print (Solved (status sol)) ;;;
   detail_view (x mdl) sol ;;;
   print (PrintTotalCost (expr_value (varValue sol) (objective (prob mdl)))) ;;;
   t <- lift (generate_formatted_table_with_suppliers
                (x mdl) sol ceramic_composition costs) ;;
   print (PrintTable t))%io.

End Script.

(** ** Lines 3-36: the tables of the script *)

Definition demand : dict Q :=
  [("A1", 7); ("A2", 18); ("A3", 14); ("A4", 11); ("A5", 3);
   ("B1", 3); ("B2", 6); ("B3", 17); ("B4", 12);
   ("C1", 14); ("C2", 4); ("C3", 15); ("C4", 19);
   ("D2", 16); ("D3", 5); ("D4", 2)]%Q.

Definition costs : dict (dict Q) :=
  [("supplier 1", [("white", 35); ("yellow", 32); ("pink", 45); ("gray", 50)]);
   ("supplier 2", [("white", 32); ("yellow", 20); ("pink", 30); ("gray", 40)]);
   ("supplier 3", [("white", 24); ("yellow", 18); ("pink", 20); ("gray", 35)])
  ]%Q.

Definition powders (w y p g : Q) : dict Q :=
  [("white", w); ("yellow", y); ("pink", p); ("gray", g)].

Definition ceramic_composition : dict (dict Q) :=
  [("A1", powders 58 38 0 4);
   ("A2", powders (9172 # 100) (45 # 10) (128 # 100) (25 # 10));
   ("A3", powders 25 75 0 0);
   ("A4", powders 9 89 1 1);
   ("A5", powders (7701 # 100) 15 (299 # 100) 5);
   ("B1", powders 5 95 0 0);
   ("B2", powders 2 88 0 10);
   ("B3", powders (356 # 10) 35 (94 # 10) 20);
   ("B4", powders 51 43 0 6);
   ("C1", powders 43 54 0 3);
   ("C2", powders 20 80 0 0);
   ("C3", powders 0 100 0 0);
   ("C4", powders 41 54 0 5);
   ("D2", powders 0 88 0 12);
   ("D3", powders 24 64 0 12);
   ("D4", powders 1 90 0 9)]%Q.

(** ** The variables as the families hold them *)

Definition x_var (i s m : string) : LpVariable :=
  LpVariable_new (X i s m) (Some 0%Q) None LpContinuous.

Definition z_var (i m s : string) : LpVariable :=
  LpVariable_new (Z i m s) None None LpBinary.

Definition p_plus_var (i : string) : LpVariable :=
  LpVariable_new (P_plus i) (Some 0%Q) None LpContinuous.

Definition p_minus_var (i : string) : LpVariable :=
  LpVariable_new (P_minus i) (Some 0%Q) None LpContinuous.

(** ** The model of the script's own tables *)

Definition empty_model : model :=
  mkModel [] [] [] [] (mkProblem LpMinimize (of_num 0%Q) []).

Definition model_of (r : result model) : model :=
  match r with
  | Ok mdl => mdl
  | Err _ => empty_model
  end.

Definition costmin : model := model_of (build demand costs ceramic_composition).

(** Every powder of every implant bought from the first supplier, and the
    penalties taking up the difference with the demand. *)
Definition required (i m : string) : Q :=
  match get ceramic_composition i with
  | Some ms => match get ms m with Some q => q | None => 0%Q end
  | None => 0%Q
  end.

Definition total_required (i : string) : Q :=
  match get ceramic_composition i with
  | Some ms => sumQ (map snd ms)
  | None => 0%Q
  end.

Definition demanded (i : string) : Q :=
  match get demand i with Some d => d | None => 0%Q end.

Definition all_from_supplier_1 : assignment :=
  fun v =>
    match v with
    | X i s m => if String.eqb s "supplier 1" then required i m else 0%Q
    | Z i m s => if String.eqb s "supplier 1" then 1%Q else 0%Q
    | P_plus i => (total_required i - demanded i)%Q
    | P_minus i => 0%Q
    end.

(** ** Deciding feasibility of a given assignment *)

Definition satisfies_b (a : assignment) (c : LpConstraint) : bool :=
  match sense c with
  | LpConstraintLE => Qle_bool (value_of a (lhs c)) (value_of a (rhs c))
  | LpConstraintEQ => Qeq_bool (value_of a (lhs c)) (value_of a (rhs c))
  | LpConstraintGE => Qle_bool (value_of a (rhs c)) (value_of a (lhs c))
  end.

Definition in_domain_b (v : LpVariable) (q : Q) : bool :=
  match lowBound v with Some b => Qle_bool b q | None => true end &&
  match upBound v with Some b => Qle_bool q b | None => true end &&
  match cat v with
  | LpContinuous => true
  | LpBinary => Qeq_bool q 0 || Qeq_bool q 1
  end.

Definition feasible_b (p : LpProblem) (a : assignment) : bool :=
  forallb (satisfies_b a) (constraints p) &&
  forallb (fun v => in_domain_b v (a (name v))) (variables p).

(** ** Which family a constraint ranges over *)

Definition is_indicator (v : var) : bool :=
  match v with Z _ _ _ => true | _ => false end.

Definition is_purchase (v : var) : bool :=
  match v with X _ _ _ => true | _ => false end.

Definition over_indicators (c : LpConstraint) : bool :=
  forallb (fun v => is_indicator (name v)) (constraint_vars c).

Definition over_purchases (c : LpConstraint) : bool :=
  forallb (fun v => is_purchase (name v)) (constraint_vars c).

(** ** The objective in the words of the specification *)

Definition materials (ceramic_composition : dict (dict Q)) (i : string)
  : list string :=
  match get ceramic_composition i with
  | Some ms => keys ms
  | None => []
  end.

Definition price (costs : dict (dict Q)) (s m : string) : Q :=
  match get costs s with
  | Some prices => match get prices m with Some c => c | None => 0%Q end
  | None => 0%Q
  end.

(** The sum over (line, supplier, material) of [x * price], plus [w_plus]
    times the sum of [p_plus], plus [w_minus] times the sum of [p_minus]. *)
Definition spec_objective (demand : dict Q)
    (costs ceramic_composition : dict (dict Q)) (a : assignment) : Q :=
  (sumQ (map (fun i =>
      sumQ (map (fun s =>
        sumQ (map (fun m => a (X i s m) * price costs s m)
                  (materials ceramic_composition i)))
        (keys costs)))
      (keys demand))
   + w_plus * sumQ (map (fun i => a (P_plus i)) (keys demand))
   + w_minus * sumQ (map (fun i => a (P_minus i)) (keys demand)))%Q.

(** ** The quantity bought for one implant, and moving its penalties *)

Definition total_purchased (costs ceramic_composition : dict (dict Q))
    (a : assignment) (i : string) : Q :=
  sumQ (map (fun s =>
          sumQ (map (fun m => a (X i s m)) (materials ceramic_composition i)))
        (keys costs)).

(** The assignment [a] with the two penalties of implant [i] replaced. *)
Definition with_penalties (a : assignment) (i : string) (pp pm : Q)
  : assignment :=
  fun v =>
    match v with
    | P_plus j => if String.eqb j i then pp else a v
    | P_minus j => if String.eqb j i then pm else a v
    | _ => a v
    end.

(** ** Price tables with a gap *)

Definition has_price (costs : dict (dict Q)) (s m : string) : bool :=
  match get costs s with
  | Some prices => match get prices m with Some _ => true | None => false end
  | None => false
  end.

(** The triples of line 52 in the order its generator meets them: implants
    in the order of the demand table, for each the suppliers in the order of
    the price table, for each the powders in the order of the composition. *)
Definition purchase_order (demand : dict Q)
    (costs ceramic_composition : dict (dict Q)) : list key3 :=
  flat_map (fun i =>
    flat_map (fun s =>
      map (fun m => (i, s, m)) (materials ceramic_composition i))
    (keys costs))
  (keys demand).

Definition is_missing (costs : dict (dict Q)) (k : key3) : bool :=
  let '(_, s, m) := k in negb (has_price costs s m).

(** The first triple of line 52 whose price is not quoted. *)
Definition first_missing (demand : dict Q)
    (costs ceramic_composition : dict (dict Q)) : option key3 :=
  find (is_missing costs) (purchase_order demand costs ceramic_composition).

(** The exception of [costs[s][m]] when the supplier is there and the powder
    is not. *)
Definition missing_key (k : key3) : exn :=
  let '(_, _, m) := k in KeyError (KStr m).

(** The prices of the script, the second supplier quoting no gray. *)
Definition costs_gap_2 : dict (dict Q) :=
  [("supplier 1", [("white", 35); ("yellow", 32); ("pink", 45); ("gray", 50)]);
   ("supplier 2", [("white", 32); ("yellow", 20); ("pink", 30)]);
   ("supplier 3", [("white", 24); ("yellow", 18); ("pink", 20); ("gray", 35)])
  ]%Q.

(** The prices of the script, the third supplier quoting no gray. *)
Definition costs_gap_3 : dict (dict Q) :=
  [("supplier 1", [("white", 35); ("yellow", 32); ("pink", 45); ("gray", 50)]);
   ("supplier 2", [("white", 32); ("yellow", 20); ("pink", 30); ("gray", 40)]);
   ("supplier 3", [("white", 24); ("yellow", 18); ("pink", 20)])
  ]%Q.

(** The prices of the script, the second supplier quoting no gray and the
    third no white. *)
Definition costs_two_gaps : dict (dict Q) :=
  [("supplier 1", [("white", 35); ("yellow", 32); ("pink", 45); ("gray", 50)]);
   ("supplier 2", [("white", 32); ("yellow", 20); ("pink", 30)]);
   ("supplier 3", [("yellow", 18); ("pink", 20); ("gray", 35)])
  ]%Q.

(** ** The detail view as a list of lines *)

(** What line 90 prints for one implant and powder: a line for each supplier
    whose value differs from 0, in the order of the price table. *)
Definition purchase_lines (costs : dict (dict Q)) (sol : solution)
    (i m : string) : list event :=
  map (fun s => PrintPurchase m s (varValue sol (X i s m)))
      (filter (fun s => ne_zero (varValue sol (X i s m))) (keys costs)).

Definition implant_lines (costs ceramic_composition : dict (dict Q))
    (sol : solution) (i : string) : list event :=
  PrintImplant i ::
  flat_map (purchase_lines costs sol i) (materials ceramic_composition i) ++
  [PrintBlank].

Definition detail_lines (costs ceramic_composition : dict (dict Q))
    (sol : solution) : list event :=
  flat_map (implant_lines costs ceramic_composition sol)
           (keys ceramic_composition).

(** ** An order that cannot be met *)

Definition demand_A1 : dict Q := [("A1", 7%Q)].

(** Implant A1 with nothing in it: restriction 1 asks for a unit from the
    first supplier, restriction 5 allows none. *)
Definition composition_nothing : dict (dict Q) := [("A1", powders 0 0 0 0)].

Definition nothing : model :=
  model_of (build demand_A1 costs composition_nothing).

(** A solver that reports the model infeasible and leaves every variable
    at 0. *)
Definition reports_infeasible (p : LpProblem) : solution :=
  mkSolution LpStatusInfeasible (fun _ => Some 0%Q).

(** A solver that leaves every variable at [q]. *)
Definition all_at (q : Q) (p : LpProblem) : solution :=
  mkSolution LpStatusOptimal (fun _ => Some q).

(** A value that is a number equal to 0. *)
Definition is_zero (v : option Q) : Prop :=
  exists q, v = Some q /\ (q == 0)%Q.

(** ** Inputs of the summary table *)

(** [x[i, s, m]] exists and the solver gave it a number. *)
Definition valued (x : dict3 LpVariable) (sol : solution) (i s m : string)
  : bool :=
  match get3 x (i, s, m) with
  | Some v => match varValue sol (name v) with Some _ => true | None => false end
  | None => false
  end.

Definition all_valued (x : dict3 LpVariable) (sol : solution)
    (ceramic_composition costs : dict (dict Q)) : bool :=
  forallb (fun e =>
    forallb (fun m =>
      forallb (fun s => valued x sol (fst e) s m) (keys costs))
    (keys (snd e)))
  ceramic_composition.

(** The composition table cut down to the first four powders of each
    implant. *)
Definition first_four (ceramic_composition : dict (dict Q))
  : dict (dict Q) :=
  map (fun e => (fst e, firstn 4 (snd e))) ceramic_composition.

(** Implant A1 without its pink, and with a fifth powder. *)
Definition composition_three : dict (dict Q) :=
  [("A1", [("white", 58); ("yellow", 38); ("gray", 4)])]%Q.

Definition composition_five : dict (dict Q) :=
  [("A1", [("white", 58); ("yellow", 38); ("pink", 0); ("gray", 3);
           ("black", 1)])]%Q.

Definition costs_five : dict (dict Q) :=
  [("supplier 1", [("white", 35); ("yellow", 32); ("pink", 45); ("gray", 50);
                   ("black", 60)]);
   ("supplier 2", [("white", 32); ("yellow", 20); ("pink", 30); ("gray", 40);
                   ("black", 55)]);
   ("supplier 3", [("white", 24); ("yellow", 18); ("pink", 20); ("gray", 35);
                   ("black", 50)])]%Q.

Definition three : model := model_of (build demand_A1 costs composition_three).

Definition five : model :=
  model_of (build demand_A1 costs_five composition_five).

(** ** Tables the build accepts *)

(** Every implant of the demand table has a composition; every price the
    objective reads is quoted; the two suppliers that lines 59 and 63 name
    are in the price table as soon as some demanded implant has a powder;
    and an implant of the composition table with a powder is demanded, if
    there is a supplier at all. *)
Definition well_formed (demand : dict Q)
    (costs ceramic_composition : dict (dict Q)) : Prop :=
  (forall i, In i (keys demand) ->
     exists ms, get ceramic_composition i = Some ms) /\
  (forall i s m, In i (keys demand) -> In s (keys costs) ->
     In m (materials ceramic_composition i) -> has_price costs s m = true) /\
  (forall i, In i (keys demand) -> materials ceramic_composition i <> [] ->
     In "supplier 1" (keys costs) /\ In "supplier 3" (keys costs)) /\
  (forall i, In i (keys ceramic_composition) ->
     materials ceramic_composition i <> [] -> keys costs <> [] ->
     In i (keys demand)).

(** The quantity a composition asks of a powder. *)
Definition quantity (ms : dict Q) (m : string) : Q :=
  match get ms m with
  | Some q => q
  | None => 0%Q
  end.

(** The value of [x[i, s, m]] after the solve, when there is one. *)
Definition value_at (x : dict3 LpVariable) (sol : solution) (i s m : string)
  : option Q :=
  match get3 x (i, s, m) with
  | Some v => varValue sol (name v)
  | None => None
  end.

(** A variable of one of the four families of lines 42-49. *)
Definition in_family (v : LpVariable) : Prop :=
  (exists i s m, v = x_var i s m) \/ (exists i m s, v = z_var i m s) \/
  (exists i, v = p_plus_var i) \/ (exists i, v = p_minus_var i).

(** How many times a name occurs in a list, as a rational. *)
Definition occurrences (s : string) (l : list string) : Q :=
  sumQ (map (fun s' => if String.eqb s' s then 1%Q else 0%Q) l).


(** * Properties *)

(** ** The monads *)

Lemma bind_Ok A B (r : result A) (k : A -> result B) b :
  bind r k = Ok b -> exists a, r = Ok a /\ k a = Ok b.
Proof.
  destruct r as [a|e]; simpl; intros H; [eauto | discriminate].
Qed.

Ltac inv_bind H :=
  let a := fresh "a" in
  let Ha := fresh "Ha" in
  apply bind_Ok in H; destruct H as (a & Ha & H).

Lemma mapM_In A B (f : A -> result B) l bs a :
  mapM f l = Ok bs -> In a l -> exists b, f a = Ok b /\ In b bs.
Proof.
  revert bs; induction l as [|a0 l IH]; simpl; intros bs H Hin; [tauto|].
  inv_bind H. inv_bind H. injection H as <-.
  destruct Hin as [->|Hin].
  - exists a1; simpl; auto.
  - destruct (IH _ Ha0 Hin) as (b & Hb & Hb'). exists b; simpl; auto.
Qed.

Lemma mapM_map A B (f : A -> result B) (g : A -> B) l bs :
  (forall a b, In a l -> f a = Ok b -> b = g a) ->
  mapM f l = Ok bs -> bs = map g l.
Proof.
  revert bs; induction l as [|a0 l IH]; simpl; intros bs Hf H.
  - now injection H as <-.
  - inv_bind H. inv_bind H. injection H as <-.
    f_equal; [apply Hf; auto | apply IH; auto].
Qed.

Lemma mapM_total A B (f : A -> result B) l :
  (forall a, In a l -> exists b, f a = Ok b) -> exists bs, mapM f l = Ok bs.
Proof.
  induction l as [|a0 l IH]; simpl; intros Hf; [eauto|].
  destruct (Hf a0) as (b & Hb); auto. rewrite Hb; simpl.
  destruct IH as (bs & Hbs); auto. rewrite Hbs; simpl. eauto.
Qed.

Lemma flat_mapM_In A B (f : A -> result (list B)) l bs a :
  flat_mapM f l = Ok bs -> In a l -> exists r, f a = Ok r /\ incl r bs.
Proof.
  revert bs; induction l as [|a0 l IH]; simpl; intros bs H Hin; [tauto|].
  inv_bind H. inv_bind H. injection H as <-.
  destruct Hin as [->|Hin].
  - exists a1; split; auto. apply incl_appl, incl_refl.
  - destruct (IH _ Ha0 Hin) as (r & Hr & Hr'). exists r; split; auto.
    now apply incl_appr.
Qed.

Lemma flat_mapM_flat_map A B (f : A -> result (list B)) (g : A -> list B) l bs :
  (forall a b, In a l -> f a = Ok b -> b = g a) ->
  flat_mapM f l = Ok bs -> bs = flat_map g l.
Proof.
  revert bs; induction l as [|a0 l IH]; simpl; intros bs Hf H.
  - now injection H as <-.
  - inv_bind H. inv_bind H. injection H as <-.
    f_equal; [apply Hf; auto | apply IH; auto].
Qed.

(** ** Dictionaries *)

Lemma get_In V (d : dict V) k v : get d k = Some v -> In (k, v) d.
Proof.
  induction d as [|[k' v'] d IH]; simpl; [discriminate|].
  destruct (String.eqb_spec k k') as [->|Hne]; intros H.
  - injection H as ->; auto.
  - auto.
Qed.

Lemma get_keys V (d : dict V) k v : get d k = Some v -> In k (keys d).
Proof.
  intros H. apply get_In in H. now apply (in_map fst) in H.
Qed.

Lemma keys_get V (d : dict V) k : In k (keys d) -> exists v, get d k = Some v.
Proof.
  induction d as [|[k' v'] d IH]; simpl; [tauto|].
  destruct (String.eqb_spec k k') as [->|Hne]; [eauto|].
  intros [H|H]; [congruence | auto].
Qed.

Lemma getitem_Ok V (d : dict V) k v : getitem d k = Ok v <-> get d k = Some v.
Proof.
  unfold getitem; destruct (get d k); split; congruence.
Qed.

Lemma key3_eqb_eq k k' : key3_eqb k k' = true <-> k = k'.
Proof.
  destruct k as [[a b] c], k' as [[a' b'] c']; simpl.
  rewrite !andb_true_iff, !String.eqb_eq. split.
  - intros [[-> ->] ->]; reflexivity.
  - intros H; injection H as -> -> ->; auto.
Qed.

Lemma get3_dicts n ks lo up c k v :
  get3 (LpVariable_dicts n ks lo up c) k = Some v ->
  In k ks /\ v = LpVariable_new (n k) lo up c.
Proof.
  induction ks as [|k0 ks IH]; simpl; [discriminate|].
  destruct (key3_eqb k k0) eqn:E.
  - apply key3_eqb_eq in E; subst k0. intros H; injection H as <-; auto.
  - intros H; destruct (IH H); auto.
Qed.

Lemma get3_dicts_In n ks lo up c k :
  In k ks ->
  get3 (LpVariable_dicts n ks lo up c) k = Some (LpVariable_new (n k) lo up c).
Proof.
  induction ks as [|k0 ks IH]; simpl; [tauto|].
  destruct (key3_eqb k k0) eqn:E.
  - apply key3_eqb_eq in E; subst k0; reflexivity.
  - intros [->|H]; [|auto].
    assert (key3_eqb k k = true) by now apply key3_eqb_eq. congruence.
Qed.

Lemma getitem3_dicts n ks lo up c k v :
  getitem3 (LpVariable_dicts n ks lo up c) k = Ok v ->
  In k ks /\ v = LpVariable_new (n k) lo up c.
Proof.
  unfold getitem3.
  destruct (get3 _ k) eqn:E.
  - intros H; injection H as <-. now apply get3_dicts in E.
  - destruct k as [[? ?] ?]; discriminate.
Qed.

Lemma get_dicts n ks lo up c k v :
  get (LpVariable_dicts n ks lo up c) k = Some v ->
  v = LpVariable_new (n k) lo up c.
Proof.
  induction ks as [|k0 ks IH]; simpl; [discriminate|].
  destruct (String.eqb_spec k k0) as [->|Hne]; [|auto].
  now intros H; injection H as <-.
Qed.

Lemma getitem_dicts n ks lo up c k v :
  getitem (LpVariable_dicts n ks lo up c) k = Ok v ->
  v = LpVariable_new (n k) lo up c.
Proof.
  rewrite getitem_Ok. apply get_dicts.
Qed.

(** ** Values of expressions *)

Lemma sumQ_app l1 l2 : (sumQ (l1 ++ l2) == sumQ l1 + sumQ l2)%Q.
Proof.
  induction l1 as [|q l1 IH]; simpl; [ring | rewrite IH; ring].
Qed.

Lemma value_of_of_var a v : (value_of a (of_var v) == a (name v))%Q.
Proof. unfold value_of; simpl; ring. Qed.

Lemma value_of_of_num a c : (value_of a (of_num c) == c)%Q.
Proof. unfold value_of; simpl; ring. Qed.

Lemma value_of_add a e1 e2 :
  (value_of a (add e1 e2) == value_of a e1 + value_of a e2)%Q.
Proof.
  unfold value_of; simpl. rewrite map_app, sumQ_app. ring.
Qed.

Lemma value_of_scale a c e :
  (value_of a (scale c e) == c * value_of a e)%Q.
Proof.
  unfold scale. destruct (Qeq_bool c 0) eqn:Hc.
  { apply Qeq_bool_iff in Hc. unfold value_of; simpl. rewrite Hc. ring. }
  unfold value_of; simpl. rewrite map_map; simpl.
  assert (E : forall l : list (LpVariable * Q),
    (sumQ (map (fun t => c * snd t * a (name (fst t))) l) ==
     c * sumQ (map (fun t => snd t * a (name (fst t))) l))%Q).
  { induction l as [|t l IH]; simpl; [ring | rewrite IH; ring]. }
  rewrite E. ring.
Qed.

Lemma value_of_sub a e1 e2 :
  (value_of a (sub e1 e2) == value_of a e1 - value_of a e2)%Q.
Proof.
  unfold sub. rewrite value_of_add, value_of_scale. ring.
Qed.

Lemma value_of_fold_add a l e :
  (value_of a (fold_left add l e) ==
   value_of a e + sumQ (map (value_of a) l))%Q.
Proof.
  revert e; induction l as [|e0 l IH]; simpl; intros e; [ring|].
  rewrite IH, value_of_add. ring.
Qed.

Lemma value_of_lpSum a l :
  (value_of a (lpSum l) == sumQ (map (value_of a) l))%Q.
Proof.
  unfold lpSum. rewrite value_of_fold_add, value_of_of_num. ring.
Qed.

Lemma sumQ_ext A (f g : A -> Q) l :
  (forall x, In x l -> (f x == g x)%Q) ->
  (sumQ (map f l) == sumQ (map g l))%Q.
Proof.
  induction l as [|x0 l IH]; simpl; intros H; [reflexivity|].
  rewrite (H x0), IH; auto. reflexivity.
Qed.

Lemma value_of_lpSum_vars a A (v : A -> LpVariable) l :
  (value_of a (lpSum (map (fun k => of_var (v k)) l)) ==
   sumQ (map (fun k => a (name (v k))) l))%Q.
Proof.
  rewrite value_of_lpSum, map_map.
  apply sumQ_ext; intros; apply value_of_of_var.
Qed.

Lemma terms_fold_add l e :
  terms (fold_left add l e) = terms e ++ flat_map terms l.
Proof.
  revert e; induction l as [|e0 l IH]; simpl; intros e.
  - now rewrite app_nil_r.
  - rewrite IH; simpl. now rewrite app_assoc.
Qed.

Lemma expr_vars_lpSum_vars A (v : A -> LpVariable) l :
  expr_vars (lpSum (map (fun k => of_var (v k)) l)) = map v l.
Proof.
  unfold expr_vars, lpSum. rewrite terms_fold_add; simpl.
  induction l as [|k l IH]; simpl; [reflexivity | now rewrite IH].
Qed.

(** ** What a successful build produced *)

Section Built.

Context {demand : dict Q} {costs ceramic_composition : dict (dict Q)}.
Context {mdl : model}.
Hypothesis Hbuild : build demand costs ceramic_composition = Ok mdl.

Lemma build_inv :
  exists xi zi obj cs,
    x_indices demand costs ceramic_composition = Ok xi /\
    z_indices demand costs ceramic_composition = Ok zi /\
    x mdl = LpVariable_dicts x_name xi (Some 0%Q) None LpContinuous /\
    p_plus mdl =
      LpVariable_dicts P_plus (keys demand) (Some 0%Q) None LpContinuous /\
    p_minus mdl =
      LpVariable_dicts P_minus (keys demand) (Some 0%Q) None LpContinuous /\
    z mdl = LpVariable_dicts z_name zi None None LpBinary /\
    objective_function demand costs ceramic_composition
      (x mdl) (p_plus mdl) (p_minus mdl) = Ok obj /\
    restrictions demand costs ceramic_composition
      (x mdl) (p_plus mdl) (p_minus mdl) (z mdl) = Ok cs /\
    prob mdl = mkProblem LpMinimize obj cs.
Proof.
  pose proof Hbuild as H. unfold build in H.
  apply bind_Ok in H; destruct H as (xi & Hxi & H).
  apply bind_Ok in H; destruct H as (zi & Hzi & H).
  apply bind_Ok in H; destruct H as (obj & Hobj & H).
  apply bind_Ok in H; destruct H as (cs & Hcs & H).
  injection H as <-. exists xi, zi, obj, cs; simpl. repeat split; auto.
Qed.

Lemma x_lookup i s m v :
  getitem3 (x mdl) (i, s, m) = Ok v -> v = x_var i s m.
Proof.
  destruct build_inv as (xi & zi & obj & cs & _ & _ & -> & _).
  intros H; apply getitem3_dicts in H. tauto.
Qed.

Lemma z_lookup i m s v :
  getitem3 (z mdl) (i, m, s) = Ok v -> v = z_var i m s.
Proof.
  destruct build_inv as (xi & zi & obj & cs & _ & _ & _ & _ & _ & -> & _).
  intros H; apply getitem3_dicts in H. tauto.
Qed.

Lemma p_plus_lookup i v : getitem (p_plus mdl) i = Ok v -> v = p_plus_var i.
Proof.
  destruct build_inv as (xi & zi & obj & cs & _ & _ & _ & -> & _).
  apply getitem_dicts.
Qed.

Lemma p_minus_lookup i v :
  getitem (p_minus mdl) i = Ok v -> v = p_minus_var i.
Proof.
  destruct build_inv as (xi & zi & obj & cs & _ & _ & _ & _ & -> & _).
  apply getitem_dicts.
Qed.

Lemma restrictions_inv :
  exists c1 c2 c3 c4 c5,
    mapM (restriction1 ceramic_composition (x mdl)) (keys demand) = Ok c1 /\
    mapM (restriction2 ceramic_composition (z mdl)) (keys demand) = Ok c2 /\
    flat_mapM (fun i =>
        ms <- getitem ceramic_composition i ;;
        mapM (restriction3 costs ceramic_composition (x mdl) i) (keys ms))
      (keys ceramic_composition) = Ok c3 /\
    mapM (restriction4 demand costs ceramic_composition
            (x mdl) (p_plus mdl) (p_minus mdl)) (keys demand) = Ok c4 /\
    flat_mapM (fun i =>
        ms <- getitem ceramic_composition i ;;
        flat_mapM (fun m =>
            one <- restriction5_one costs (z mdl) i m ;;
            links <- mapM (restriction5_link ceramic_composition
                             (x mdl) (z mdl) i m) (keys costs) ;;
            Ok (one :: links))
          (keys ms))
      (keys demand) = Ok c5 /\
    constraints (prob mdl) = c1 ++ c2 ++ c3 ++ c4 ++ c5.
Proof.
  destruct build_inv as (xi & zi & obj & cs & _ & _ & _ & _ & _ & _ & _ & H & ->).
  unfold restrictions in H.
  apply bind_Ok in H; destruct H as (c1 & H1 & H).
  apply bind_Ok in H; destruct H as (c2 & H2 & H).
  apply bind_Ok in H; destruct H as (c3 & H3 & H).
  apply bind_Ok in H; destruct H as (c4 & H4 & H).
  apply bind_Ok in H; destruct H as (c5 & H5 & H).
  injection H as <-. exists c1, c2, c3, c4, c5; simpl. repeat split; auto.
Qed.

(** The shape of the constraint of line 68. *)
Lemma restriction3_shape i m c :
  restriction3 costs ceramic_composition (x mdl) i m = Ok c ->
  exists ms q,
    get ceramic_composition i = Some ms /\ get ms m = Some q /\
    c = mkConstraint
          (lpSum (map (fun s => of_var (x_var i s m)) (keys costs)))
          LpConstraintEQ (of_num q).
Proof.
  unfold restriction3; intros H.
  apply bind_Ok in H; destruct H as (vs & Hvs & H).
  apply bind_Ok in H; destruct H as (ms & Hms & H).
  apply bind_Ok in H; destruct H as (q & Hq & H).
  injection H as <-. exists ms, q.
  rewrite getitem_Ok in Hms, Hq. repeat split; auto.
  f_equal. f_equal.
  apply mapM_map with (2 := Hvs). intros s e _ He.
  apply bind_Ok in He; destruct He as (v & Hv & He).
  injection He as <-. now rewrite (x_lookup _ _ _ Hv).
Qed.

Lemma restriction3_In i ms m :
  get ceramic_composition i = Some ms -> In m (keys ms) ->
  exists c, restriction3 costs ceramic_composition (x mdl) i m = Ok c /\
            In c (constraints (prob mdl)).
Proof.
  intros Hi Hm.
  destruct restrictions_inv as (c1 & c2 & c3 & c4 & c5 & _ & _ & H3 & _ & _ & ->).
  destruct (flat_mapM_In _ _ i H3) as (r & Hr & Hincl).
  { eapply get_keys; eauto. }
  apply bind_Ok in Hr; destruct Hr as (ms' & Hms' & Hr).
  rewrite getitem_Ok in Hms'. rewrite Hi in Hms'; injection Hms' as <-.
  destruct (mapM_In _ _ m Hr Hm) as (c & Hc & Hin).
  exists c; split; auto.
  rewrite !in_app_iff. right; right; left. now apply Hincl.
Qed.

End Built.

(** ** Feasibility, decided *)

Lemma satisfies_b_ok a c : satisfies_b a c = true <-> satisfies a c.
Proof.
  unfold satisfies_b, satisfies. destruct (sense c).
  - apply Qle_bool_iff.
  - apply Qeq_bool_iff.
  - apply Qle_bool_iff.
Qed.

Lemma in_domain_b_ok v q : in_domain_b v q = true <-> in_domain v q.
Proof.
  unfold in_domain_b, in_domain, above, below.
  rewrite !andb_true_iff.
  destruct (lowBound v), (upBound v), (cat v);
    rewrite ?orb_true_iff, ?Qle_bool_iff, ?Qeq_bool_iff; intuition.
Qed.

Lemma feasible_b_ok p a : feasible_b p a = true <-> feasible p a.
Proof.
  unfold feasible_b, feasible. rewrite andb_true_iff, !forallb_forall.
  split; intros [H1 H2]; split; intros y Hy.
  - apply satisfies_b_ok; auto.
  - apply in_domain_b_ok; auto.
  - apply satisfies_b_ok; auto.
  - apply in_domain_b_ok; auto.
Qed.

Lemma costmin_built : build demand costs ceramic_composition = Ok costmin.
Proof. vm_compute. reflexivity. Qed.

(** The model of the script has feasible assignments: what is proved of
    them below is not said of nothing. *)
Lemma costmin_feasible : feasible (prob costmin) all_from_supplier_1.
Proof. apply feasible_b_ok. vm_compute. reflexivity. Qed.

Lemma constraint_vars_variables p c v :
  In c (constraints p) -> In v (constraint_vars c) -> In v (variables p).
Proof.
  intros Hc Hv. unfold variables. apply in_or_app; right.
  apply in_flat_map. exists c; auto.
Qed.

Lemma optimal_feasible p a : optimal p a -> feasible p a.
Proof. intros [H _]; exact H. Qed.

(** ** Restriction 3: the composition is bought exactly *)

(** C1: for every implant of the composition table and every powder of its
    composition, the built model contains the constraint of line 68; it is
    an equality, its only variables are the purchases [x[i, s, m]] of the
    suppliers (no slack variable), it holds exactly when these purchases sum
    to the required quantity, and so every feasible, hence every optimal,
    assignment buys exactly that quantity. *)
Theorem C1_requirement_equality
    (demand : dict Q) (costs ceramic_composition : dict (dict Q))
    (mdl : model) (i m : string) (ms : dict Q) (q : Q) :
  build demand costs ceramic_composition = Ok mdl ->
  get ceramic_composition i = Some ms ->
  get ms m = Some q ->
  exists c,
    restriction3 costs ceramic_composition (x mdl) i m = Ok c /\
    In c (constraints (prob mdl)) /\
    sense c = LpConstraintEQ /\
    constraint_vars c = map (fun s => x_var i s m) (keys costs) /\
    (forall a, satisfies a c <->
       (sumQ (map (fun s => a (X i s m)) (keys costs)) == q)%Q) /\
    (forall a, feasible (prob mdl) a ->
       (sumQ (map (fun s => a (X i s m)) (keys costs)) == q)%Q) /\
    (forall a, optimal (prob mdl) a ->
       (sumQ (map (fun s => a (X i s m)) (keys costs)) == q)%Q).
Proof.
  intros Hb Hi Hm.
  destruct (restriction3_In Hb i m Hi) as (c & Hc & Hin);
    [eapply get_keys; eassumption|].
  destruct (restriction3_shape Hb _ _ Hc) as (ms' & q' & Hi' & Hm' & ->).
  rewrite Hi in Hi'; injection Hi' as <-.
  rewrite Hm in Hm'; injection Hm' as <-.
  assert (Hsat : forall a,
    satisfies a
      (mkConstraint (lpSum (map (fun s => of_var (x_var i s m)) (keys costs)))
         LpConstraintEQ (of_num q)) <->
    (sumQ (map (fun s => a (X i s m)) (keys costs)) == q)%Q).
  { intros a. unfold satisfies; simpl.
    rewrite value_of_lpSum_vars, value_of_of_num. simpl. reflexivity. }
  eexists; split; [exact Hc|]. split; [exact Hin|].
  split; [reflexivity|]. split.
  { unfold constraint_vars; simpl.
    rewrite expr_vars_lpSum_vars. unfold expr_vars; simpl. apply app_nil_r. }
  split; [exact Hsat|]. split.
  - intros a [Hall _]. apply Hsat. now apply Hall.
  - intros a Ha. apply optimal_feasible in Ha. destruct Ha as [Hall _].
    apply Hsat. now apply Hall.
Qed.

Lemma C1_requirement_equality_witness :
  build demand costs ceramic_composition = Ok costmin /\
  get ceramic_composition "A2" = Some (powders (9172 # 100) (45 # 10) (128 # 100) (25 # 10)) /\
  exists c,
    restriction3 costs ceramic_composition (x costmin) "A2" "white" = Ok c /\
    In c (constraints (prob costmin)) /\
    sense c = LpConstraintEQ /\
    constraint_vars c = map (fun s => x_var "A2" s "white") (keys costs) /\
    (forall a, satisfies a c <->
       (sumQ (map (fun s => a (X "A2" s "white")) (keys costs)) == 9172 # 100)%Q) /\
    (forall a, feasible (prob costmin) a ->
       (sumQ (map (fun s => a (X "A2" s "white")) (keys costs)) == 9172 # 100)%Q) /\
    (forall a, optimal (prob costmin) a ->
       (sumQ (map (fun s => a (X "A2" s "white")) (keys costs)) == 9172 # 100)%Q).
Proof.
  split; [exact costmin_built|]. split; [reflexivity|].
  apply (@C1_requirement_equality demand costs ceramic_composition costmin
           "A2" "white" (powders (9172 # 100) (45 # 10) (128 # 100) (25 # 10))
           (9172 # 100)).
  - exact costmin_built.
  - reflexivity.
  - reflexivity.
Defined.

(** ** Restriction 5: one supplier for each powder *)

Section SingleSupplier.

Context {demand : dict Q} {costs ceramic_composition : dict (dict Q)}.
Context {mdl : model}.
Hypothesis Hbuild : build demand costs ceramic_composition = Ok mdl.

(** The shape of the constraint of line 77. *)
Lemma restriction5_one_shape i m c :
  restriction5_one costs (z mdl) i m = Ok c ->
  c = mkConstraint
        (lpSum (map (fun s => of_var (z_var i m s)) (keys costs)))
        LpConstraintEQ (of_num 1).
Proof.
  unfold restriction5_one; intros H.
  apply bind_Ok in H; destruct H as (vs & Hvs & H).
  injection H as <-. do 2 f_equal.
  apply mapM_map with (2 := Hvs). intros s e _ He.
  apply bind_Ok in He; destruct He as (v & Hv & He).
  injection He as <-. now rewrite (z_lookup Hbuild _ _ _ Hv).
Qed.

(** The shape of the constraint of line 79. *)
Lemma restriction5_link_shape i m s c :
  restriction5_link ceramic_composition (x mdl) (z mdl) i m s = Ok c ->
  exists ms q,
    get ceramic_composition i = Some ms /\ get ms m = Some q /\
    c = mkConstraint (of_var (x_var i s m)) LpConstraintLE
          (scale q (of_var (z_var i m s))).
Proof.
  unfold restriction5_link; intros H.
  apply bind_Ok in H; destruct H as (xv & Hxv & H).
  apply bind_Ok in H; destruct H as (zv & Hzv & H).
  apply bind_Ok in H; destruct H as (ms & Hms & H).
  apply bind_Ok in H; destruct H as (q & Hq & H).
  injection H as <-. exists ms, q.
  rewrite getitem_Ok in Hms, Hq.
  rewrite (x_lookup Hbuild _ _ _ Hxv), (z_lookup Hbuild _ _ _ Hzv). auto.
Qed.

Lemma restriction5_In i ms m :
  In i (keys demand) ->
  get ceramic_composition i = Some ms -> In m (keys ms) ->
  exists one,
    restriction5_one costs (z mdl) i m = Ok one /\
    In one (constraints (prob mdl)) /\
    forall s, In s (keys costs) ->
      exists c,
        restriction5_link ceramic_composition (x mdl) (z mdl) i m s = Ok c /\
        In c (constraints (prob mdl)).
Proof.
  intros Hd Hi Hm.
  destruct (restrictions_inv Hbuild)
    as (c1 & c2 & c3 & c4 & c5 & _ & _ & _ & _ & H5 & ->).
  destruct (flat_mapM_In _ _ i H5 Hd) as (r & Hr & Hincl).
  apply bind_Ok in Hr; destruct Hr as (ms' & Hms' & Hr).
  rewrite getitem_Ok in Hms'. rewrite Hi in Hms'; injection Hms' as <-.
  destruct (flat_mapM_In _ _ m Hr Hm) as (r' & Hr' & Hincl').
  apply bind_Ok in Hr'; destruct Hr' as (one & Hone & Hr').
  apply bind_Ok in Hr'; destruct Hr' as (links & Hlinks & Hr').
  injection Hr' as <-.
  assert (Hsub : forall c, In c (one :: links) ->
            In c (c1 ++ c2 ++ c3 ++ c4 ++ c5)).
  { intros c Hc. rewrite !in_app_iff. do 4 right. auto. }
  exists one. split; [exact Hone|]. split; [apply Hsub; simpl; auto|].
  intros s Hs. destruct (mapM_In _ _ s Hlinks Hs) as (c & Hc & Hin).
  exists c. split; [exact Hc | apply Hsub; simpl; auto].
Qed.

End SingleSupplier.

Lemma sumQ_nonneg (l : list Q) :
  (forall q, In q l -> (0 <= q)%Q) -> (0 <= sumQ l)%Q.
Proof.
  induction l as [|q l IH]; simpl; intros H; [lra|].
  assert (0 <= q)%Q by (apply H; auto).
  assert (0 <= sumQ l)%Q by (apply IH; auto). lra.
Qed.

Lemma sumQ_zero A (f : A -> Q) l :
  (forall s, In s l -> (f s == 0 \/ f s == 1)%Q) ->
  (sumQ (map f l) == 0)%Q ->
  forall s, In s l -> (f s == 0)%Q.
Proof.
  induction l as [|s0 l IH]; simpl; intros Hb Hsum s Hs; [tauto|].
  assert (H0 : (0 <= sumQ (map f l))%Q).
  { apply sumQ_nonneg. intros q Hq. apply in_map_iff in Hq.
    destruct Hq as (s' & <- & Hs'). destruct (Hb s'); auto; lra. }
  assert (Hs0 : (f s0 == 0)%Q) by (destruct (Hb s0); auto; lra).
  destruct Hs as [<-|Hs]; [exact Hs0|].
  apply IH; auto. lra.
Qed.

(** Binary values that sum to one: one of them is 1 and the others are 0. *)
Lemma one_hot (f : string -> Q) l :
  (forall s, In s l -> (f s == 0 \/ f s == 1)%Q) ->
  (sumQ (map f l) == 1)%Q ->
  exists s, In s l /\ (f s == 1)%Q /\
    forall s', In s' l -> s' <> s -> (f s' == 0)%Q.
Proof.
  induction l as [|s0 l IH]; simpl; intros Hb Hsum; [lra|].
  destruct (Hb s0) as [H0|H1]; auto.
  - destruct IH as (s & Hs & Hs1 & Hothers); auto; [lra|].
    exists s. repeat split; auto.
    intros s' [<-|Hs'] Hne; auto.
  - exists s0. repeat split; auto.
    intros s' [<-|Hs'] Hne; [congruence|].
    apply (sumQ_zero f l); auto. lra.
Qed.

(** C2: for every implant of the demand table and every powder of its
    composition, the built model contains the constraint of line 77: the
    indicators [z[i, m, s]] of the suppliers, which are binary, sum to 1.
    So a feasible assignment sets the indicator of one supplier to 1 and
    those of all the others to 0. *)
Theorem C2_single_supplier
    (demand : dict Q) (costs ceramic_composition : dict (dict Q))
    (mdl : model) (i m : string) (ms : dict Q) :
  build demand costs ceramic_composition = Ok mdl ->
  In i (keys demand) ->
  get ceramic_composition i = Some ms ->
  In m (keys ms) ->
  exists c,
    restriction5_one costs (z mdl) i m = Ok c /\
    In c (constraints (prob mdl)) /\
    sense c = LpConstraintEQ /\
    constraint_vars c = map (fun s => z_var i m s) (keys costs) /\
    (forall s, cat (z_var i m s) = LpBinary) /\
    (forall a, satisfies a c <->
       (sumQ (map (fun s => a (Z i m s)) (keys costs)) == 1)%Q) /\
    (forall a, feasible (prob mdl) a ->
       exists s, In s (keys costs) /\ (a (Z i m s) == 1)%Q /\
         forall s', In s' (keys costs) -> s' <> s -> (a (Z i m s') == 0)%Q).
Proof.
  intros Hb Hd Hi Hm.
  destruct (restriction5_In Hb i m Hd Hi Hm) as (c & Hc & Hin & _).
  pose proof (restriction5_one_shape Hb _ _ Hc) as ->.
  assert (Hvars :
    constraint_vars
      (mkConstraint (lpSum (map (fun s => of_var (z_var i m s)) (keys costs)))
         LpConstraintEQ (of_num 1)) = map (fun s => z_var i m s) (keys costs)).
  { unfold constraint_vars; simpl.
    rewrite expr_vars_lpSum_vars. unfold expr_vars; simpl. apply app_nil_r. }
  assert (Hsat : forall a,
    satisfies a
      (mkConstraint (lpSum (map (fun s => of_var (z_var i m s)) (keys costs)))
         LpConstraintEQ (of_num 1)) <->
    (sumQ (map (fun s => a (Z i m s)) (keys costs)) == 1)%Q).
  { intros a. unfold satisfies; simpl.
    rewrite value_of_lpSum_vars, value_of_of_num. simpl. reflexivity. }
  eexists; split; [exact Hc|]. split; [exact Hin|].
  split; [reflexivity|]. split; [exact Hvars|].
  split; [reflexivity|]. split; [exact Hsat|].
  intros a [Hall Hdom].
  apply (one_hot (fun s => a (Z i m s))).
  - intros s Hs.
    assert (Hv : In (z_var i m s) (variables (prob mdl))).
    { eapply constraint_vars_variables; [exact Hin|].
      rewrite Hvars. now apply (in_map (fun s => z_var i m s)). }
    apply Hdom in Hv. destruct Hv as (_ & _ & Hv). exact Hv.
  - apply Hsat. now apply Hall.
Qed.

Lemma C2_single_supplier_witness :
  build demand costs ceramic_composition = Ok costmin /\
  In "B3" (keys demand) /\
  get ceramic_composition "B3" = Some (powders (356 # 10) 35 (94 # 10) 20) /\
  In "pink" (keys (powders (356 # 10) 35 (94 # 10) 20)) /\
  exists c,
    restriction5_one costs (z costmin) "B3" "pink" = Ok c /\
    In c (constraints (prob costmin)) /\
    sense c = LpConstraintEQ /\
    constraint_vars c = map (fun s => z_var "B3" "pink" s) (keys costs) /\
    (forall s, cat (z_var "B3" "pink" s) = LpBinary) /\
    (forall a, satisfies a c <->
       (sumQ (map (fun s => a (Z "B3" "pink" s)) (keys costs)) == 1)%Q) /\
    (forall a, feasible (prob costmin) a ->
       exists s, In s (keys costs) /\ (a (Z "B3" "pink" s) == 1)%Q /\
         forall s', In s' (keys costs) -> s' <> s ->
           (a (Z "B3" "pink" s') == 0)%Q).
Proof.
  assert (Hd : In "B3" (keys demand)) by (simpl; tauto).
  assert (Hm : In "pink" (keys (powders (356 # 10) 35 (94 # 10) 20)))
    by (simpl; tauto).
  split; [exact costmin_built|]. split; [exact Hd|].
  split; [reflexivity|]. split; [exact Hm|].
  exact (@C2_single_supplier demand costs ceramic_composition costmin
           "B3" "pink" (powders (356 # 10) 35 (94 # 10) 20)
           costmin_built Hd eq_refl Hm).
Defined.

(** C3: for every implant of the demand table, every powder of its
    composition and every supplier, the built model contains the constraint
    of line 79, [x[i, s, m] <= z[i, m, s] * required].  Its variables are
    the purchase and the indicator, or the purchase alone when the required
    quantity is 0 and the product is the empty expression.  The purchase is
    bounded below by 0 and the indicator is binary, so in a feasible
    assignment an indicator at 0 forces the purchase to 0 and an indicator
    at 1 caps it at the required quantity itself. *)
Theorem C3_linking
    (demand : dict Q) (costs ceramic_composition : dict (dict Q))
    (mdl : model) (i m s : string) (ms : dict Q) (q : Q) :
  build demand costs ceramic_composition = Ok mdl ->
  In i (keys demand) ->
  get ceramic_composition i = Some ms ->
  get ms m = Some q ->
  In s (keys costs) ->
  exists c,
    restriction5_link ceramic_composition (x mdl) (z mdl) i m s = Ok c /\
    In c (constraints (prob mdl)) /\
    constraint_vars c =
      (if Qeq_bool q 0 then [x_var i s m]
       else [x_var i s m; z_var i m s]) /\
    (forall a, satisfies a c <-> (a (X i s m) <= a (Z i m s) * q)%Q) /\
    (forall a, feasible (prob mdl) a ->
       (a (Z i m s) == 0 \/ a (Z i m s) == 1)%Q /\
       ((a (Z i m s) == 0)%Q -> (a (X i s m) == 0)%Q) /\
       ((a (Z i m s) == 1)%Q -> (0 <= a (X i s m) <= q)%Q)).
Proof.
  intros Hb Hd Hi Hm Hs.
  destruct (restriction5_In Hb i m Hd Hi (get_keys _ _ Hm))
    as (one & Hone & Hin1 & Hlinks).
  pose proof (restriction5_one_shape Hb _ _ Hone) as ->.
  destruct (Hlinks s Hs) as (c & Hc & Hin).
  destruct (restriction5_link_shape Hb _ _ _ Hc) as (ms' & q' & Hi' & Hm' & ->).
  rewrite Hi in Hi'; injection Hi' as <-.
  rewrite Hm in Hm'; injection Hm' as <-.
  assert (Hsat : forall a,
    satisfies a
      (mkConstraint (of_var (x_var i s m)) LpConstraintLE
         (scale q (of_var (z_var i m s)))) <->
    (a (X i s m) <= a (Z i m s) * q)%Q).
  { intros a. unfold satisfies; simpl.
    rewrite value_of_scale, !value_of_of_var; simpl.
    rewrite (Qmult_comm q). reflexivity. }
  eexists; split; [exact Hc|]. split; [exact Hin|].
  split.
  { unfold constraint_vars, scale; simpl.
    destruct (Qeq_bool q 0); reflexivity. }
  split; [exact Hsat|].
  intros a [Hall Hdom].
  assert (Hx : in_domain (x_var i s m) (a (X i s m))).
  { apply (Hdom (x_var i s m)).
    eapply constraint_vars_variables; [exact Hin|].
    unfold constraint_vars; simpl. auto. }
  assert (Hz : in_domain (z_var i m s) (a (Z i m s))).
  { apply (Hdom (z_var i m s)).
    eapply constraint_vars_variables; [exact Hin1|].
    unfold constraint_vars; simpl. rewrite expr_vars_lpSum_vars.
    apply in_or_app; left. now apply (in_map (fun s => z_var i m s)). }
  destruct Hx as (Hx & _). destruct Hz as (_ & _ & Hz). simpl in Hx, Hz.
  pose proof (proj1 (Hsat a) (Hall _ Hin)) as Hle.
  split; [exact Hz|]. split.
  - intros E. rewrite E in Hle. lra.
  - intros E. rewrite E in Hle. lra.
Qed.

Lemma C3_linking_witness :
  build demand costs ceramic_composition = Ok costmin /\
  In "A5" (keys demand) /\
  get ceramic_composition "A5" = Some (powders (7701 # 100) 15 (299 # 100) 5) /\
  get (powders (7701 # 100) 15 (299 # 100) 5) "pink" = Some (299 # 100) /\
  In "supplier 2" (keys costs) /\
  exists c,
    restriction5_link ceramic_composition (x costmin) (z costmin)
      "A5" "pink" "supplier 2" = Ok c /\
    In c (constraints (prob costmin)) /\
    constraint_vars c =
      [x_var "A5" "supplier 2" "pink"; z_var "A5" "pink" "supplier 2"] /\
    (forall a, satisfies a c <->
       (a (X "A5" "supplier 2" "pink") <=
        a (Z "A5" "pink" "supplier 2") * (299 # 100))%Q) /\
    (forall a, feasible (prob costmin) a ->
       (a (Z "A5" "pink" "supplier 2") == 0 \/
        a (Z "A5" "pink" "supplier 2") == 1)%Q /\
       ((a (Z "A5" "pink" "supplier 2") == 0)%Q ->
        (a (X "A5" "supplier 2" "pink") == 0)%Q) /\
       ((a (Z "A5" "pink" "supplier 2") == 1)%Q ->
        (0 <= a (X "A5" "supplier 2" "pink") <= 299 # 100)%Q)).
Proof.
  assert (Hd : In "A5" (keys demand)) by (simpl; tauto).
  assert (Hs : In "supplier 2" (keys costs)) by (simpl; tauto).
  split; [exact costmin_built|]. split; [exact Hd|].
  split; [reflexivity|]. split; [reflexivity|]. split; [exact Hs|].
  exact (@C3_linking demand costs ceramic_composition costmin
           "A5" "pink" "supplier 2" (powders (7701 # 100) 15 (299 # 100) 5)
           (299 # 100) costmin_built Hd eq_refl eq_refl Hs).
Defined.

(** Pink is absent from implant A1: the constraint of line 79 is then
    [x <= 0], without the indicator. *)
Example linking_of_an_absent_powder :
  restriction5_link ceramic_composition (x costmin) (z costmin)
    "A1" "pink" "supplier 1" =
  Ok (mkConstraint (of_var (x_var "A1" "supplier 1" "pink")) LpConstraintLE
        (of_num 0)).
Proof. vm_compute. reflexivity. Qed.

(** ** Restrictions 1 and 2: the first and the third supplier *)

Section Diversity.

Context {demand : dict Q} {costs ceramic_composition : dict (dict Q)}.
Context {mdl : model}.
Hypothesis Hbuild : build demand costs ceramic_composition = Ok mdl.

(** The shape of the constraint of line 59. *)
Lemma restriction1_shape i c :
  restriction1 ceramic_composition (x mdl) i = Ok c ->
  exists ms,
    get ceramic_composition i = Some ms /\
    c = mkConstraint
          (lpSum (map (fun m => of_var (x_var i "supplier 1" m)) (keys ms)))
          LpConstraintGE (of_num 1).
Proof.
  unfold restriction1; intros H.
  apply bind_Ok in H; destruct H as (ms & Hms & H).
  apply bind_Ok in H; destruct H as (vs & Hvs & H).
  injection H as <-. exists ms. rewrite getitem_Ok in Hms.
  split; [exact Hms|]. do 2 f_equal.
  apply mapM_map with (2 := Hvs). intros m e _ He.
  apply bind_Ok in He; destruct He as (v & Hv & He).
  injection He as <-. now rewrite (x_lookup Hbuild _ _ _ Hv).
Qed.

(** The shape of the constraint of line 63. *)
Lemma restriction2_shape i c :
  restriction2 ceramic_composition (z mdl) i = Ok c ->
  exists ms,
    get ceramic_composition i = Some ms /\
    c = mkConstraint
          (lpSum (map (fun m => of_var (z_var i m "supplier 3")) (keys ms)))
          LpConstraintLE (of_num 2).
Proof.
  unfold restriction2; intros H.
  apply bind_Ok in H; destruct H as (ms & Hms & H).
  apply bind_Ok in H; destruct H as (vs & Hvs & H).
  injection H as <-. exists ms. rewrite getitem_Ok in Hms.
  split; [exact Hms|]. do 2 f_equal.
  apply mapM_map with (2 := Hvs). intros m e _ He.
  apply bind_Ok in He; destruct He as (v & Hv & He).
  injection He as <-. now rewrite (z_lookup Hbuild _ _ _ Hv).
Qed.

Lemma restriction1_In i :
  In i (keys demand) ->
  exists c, restriction1 ceramic_composition (x mdl) i = Ok c /\
            In c (constraints (prob mdl)).
Proof.
  intros Hd.
  destruct (restrictions_inv Hbuild)
    as (c1 & c2 & c3 & c4 & c5 & H1 & _ & _ & _ & _ & ->).
  destruct (mapM_In _ _ i H1 Hd) as (c & Hc & Hin).
  exists c; split; auto. rewrite !in_app_iff; auto.
Qed.

Lemma restriction2_In i :
  In i (keys demand) ->
  exists c, restriction2 ceramic_composition (z mdl) i = Ok c /\
            In c (constraints (prob mdl)).
Proof.
  intros Hd.
  destruct (restrictions_inv Hbuild)
    as (c1 & c2 & c3 & c4 & c5 & _ & H2 & _ & _ & _ & ->).
  destruct (mapM_In _ _ i H2 Hd) as (c & Hc & Hin).
  exists c; split; auto. rewrite !in_app_iff; auto.
Qed.

End Diversity.

Lemma forallb_map_true A B (f : A -> B) (p : B -> bool) l :
  (forall a, p (f a) = true) -> forallb p (map f l) = true.
Proof.
  intros H. apply forallb_forall. intros b Hb.
  apply in_map_iff in Hb. destruct Hb as (a & <- & _). apply H.
Qed.

(** C4, as the script has it: of the two sourcing constraints only the
    ceiling of line 63 ranges over the indicators ([z[i, m, "supplier 3"]]
    summed over the powders is at most 2).  The floor of line 59 ranges over
    the purchases: [x[i, "supplier 1", m]] summed over the powders is at
    least 1, a bound on the purchased quantity. *)
Theorem C4_floor_on_purchases_ceiling_on_indicators
    (demand : dict Q) (costs ceramic_composition : dict (dict Q))
    (mdl : model) (i : string) :
  build demand costs ceramic_composition = Ok mdl ->
  In i (keys demand) ->
  exists ms floor ceiling,
    get ceramic_composition i = Some ms /\
    restriction1 ceramic_composition (x mdl) i = Ok floor /\
    In floor (constraints (prob mdl)) /\
    constraint_vars floor = map (fun m => x_var i "supplier 1" m) (keys ms) /\
    over_purchases floor = true /\
    (forall a, satisfies a floor <->
       (1 <= sumQ (map (fun m => a (X i "supplier 1" m)) (keys ms)))%Q) /\
    restriction2 ceramic_composition (z mdl) i = Ok ceiling /\
    In ceiling (constraints (prob mdl)) /\
    constraint_vars ceiling = map (fun m => z_var i m "supplier 3") (keys ms) /\
    over_indicators ceiling = true /\
    (forall a, satisfies a ceiling <->
       (sumQ (map (fun m => a (Z i m "supplier 3")) (keys ms)) <= 2)%Q).
Proof.
  intros Hb Hd.
  destruct (restriction1_In Hb i Hd) as (c1 & Hc1 & Hin1).
  destruct (restriction2_In Hb i Hd) as (c2 & Hc2 & Hin2).
  destruct (restriction1_shape Hb _ Hc1) as (ms & Hms & ->).
  destruct (restriction2_shape Hb _ Hc2) as (ms' & Hms' & ->).
  rewrite Hms in Hms'; injection Hms' as <-.
  assert (Hv1 :
    constraint_vars
      (mkConstraint
         (lpSum (map (fun m => of_var (x_var i "supplier 1" m)) (keys ms)))
         LpConstraintGE (of_num 1)) =
    map (fun m => x_var i "supplier 1" m) (keys ms)).
  { unfold constraint_vars; simpl.
    rewrite expr_vars_lpSum_vars. unfold expr_vars; simpl. apply app_nil_r. }
  assert (Hv2 :
    constraint_vars
      (mkConstraint
         (lpSum (map (fun m => of_var (z_var i m "supplier 3")) (keys ms)))
         LpConstraintLE (of_num 2)) =
    map (fun m => z_var i m "supplier 3") (keys ms)).
  { unfold constraint_vars; simpl.
    rewrite expr_vars_lpSum_vars. unfold expr_vars; simpl. apply app_nil_r. }
  exists ms. do 2 eexists.
  split; [exact Hms|]. split; [exact Hc1|]. split; [exact Hin1|].
  split; [exact Hv1|]. split.
  { unfold over_purchases. rewrite Hv1. now apply forallb_map_true. }
  split.
  { intros a. unfold satisfies; simpl.
    rewrite value_of_lpSum_vars, value_of_of_num. simpl. reflexivity. }
  split; [exact Hc2|]. split; [exact Hin2|]. split; [exact Hv2|]. split.
  { unfold over_indicators. rewrite Hv2. now apply forallb_map_true. }
  intros a. unfold satisfies; simpl.
  rewrite value_of_lpSum_vars, value_of_of_num. simpl. reflexivity.
Qed.

Lemma C4_floor_on_purchases_ceiling_on_indicators_witness :
  build demand costs ceramic_composition = Ok costmin /\
  In "A1" (keys demand) /\
  exists ms floor ceiling,
    get ceramic_composition "A1" = Some ms /\
    restriction1 ceramic_composition (x costmin) "A1" = Ok floor /\
    In floor (constraints (prob costmin)) /\
    constraint_vars floor =
      map (fun m => x_var "A1" "supplier 1" m) (keys ms) /\
    over_purchases floor = true /\
    (forall a, satisfies a floor <->
       (1 <= sumQ (map (fun m => a (X "A1" "supplier 1" m)) (keys ms)))%Q) /\
    restriction2 ceramic_composition (z costmin) "A1" = Ok ceiling /\
    In ceiling (constraints (prob costmin)) /\
    constraint_vars ceiling =
      map (fun m => z_var "A1" m "supplier 3") (keys ms) /\
    over_indicators ceiling = true /\
    (forall a, satisfies a ceiling <->
       (sumQ (map (fun m => a (Z "A1" m "supplier 3")) (keys ms)) <= 2)%Q).
Proof.
  assert (Hd : In "A1" (keys demand)) by (simpl; tauto).
  split; [exact costmin_built|]. split; [exact Hd|].
  exact (@C4_floor_on_purchases_ceiling_on_indicators
           demand costs ceramic_composition costmin "A1" costmin_built Hd).
Defined.

(** C4 as stated does not hold on the script's own tables: the floor
    built for implant A1 is in the model and is not over the indicators. *)
Lemma C4_floor_not_over_indicators :
  exists floor,
    restriction1 ceramic_composition (x costmin) "A1" = Ok floor /\
    In floor (constraints (prob costmin)) /\
    In (x_var "A1" "supplier 1" "white") (constraint_vars floor) /\
    over_indicators floor = false.
Proof.
  eexists. split; [vm_compute; reflexivity|].
  split; [vm_compute; tauto|].
  split; [vm_compute; tauto|]. vm_compute. reflexivity.
Qed.

(** ** Lines 52-53: the objective *)

Lemma sumQ_map_flat_map A B (f : B -> Q) (g : A -> list B) l :
  (sumQ (map f (flat_map g l)) == sumQ (map (fun k => sumQ (map f (g k))) l))%Q.
Proof.
  induction l as [|k l IH]; simpl; [reflexivity|].
  rewrite map_app, sumQ_app, IH. reflexivity.
Qed.

Section Objective.

Context {demand : dict Q} {costs ceramic_composition : dict (dict Q)}.
Context {mdl : model}.
Hypothesis Hbuild : build demand costs ceramic_composition = Ok mdl.

Lemma purchase_terms_shape xs :
  purchase_terms demand costs ceramic_composition (x mdl) = Ok xs ->
  xs = flat_map (fun i =>
         flat_map (fun s =>
           map (fun m => scale (price costs s m) (of_var (x_var i s m)))
               (materials ceramic_composition i))
         (keys costs))
       (keys demand).
Proof.
  unfold purchase_terms. apply flat_mapM_flat_map. intros i r _.
  apply flat_mapM_flat_map. intros s r' _ H.
  apply bind_Ok in H; destruct H as (ms & Hms & H).
  rewrite getitem_Ok in Hms. unfold materials; rewrite Hms.
  apply mapM_map with (2 := H). intros m e _ He.
  apply bind_Ok in He; destruct He as (v & Hv & He).
  apply bind_Ok in He; destruct He as (prices & Hp & He).
  apply bind_Ok in He; destruct He as (c & Hc & He).
  injection He as <-. rewrite getitem_Ok in Hp, Hc.
  unfold price; rewrite Hp, Hc. now rewrite (x_lookup Hbuild _ _ _ Hv).
Qed.

Lemma penalty_terms_plus_shape pp :
  penalty_terms demand (p_plus mdl) = Ok pp ->
  pp = map (fun i => of_var (p_plus_var i)) (keys demand).
Proof.
  unfold penalty_terms. apply mapM_map. intros i e _ He.
  apply bind_Ok in He; destruct He as (v & Hv & He).
  injection He as <-. now rewrite (p_plus_lookup Hbuild _ Hv).
Qed.

Lemma penalty_terms_minus_shape pm :
  penalty_terms demand (p_minus mdl) = Ok pm ->
  pm = map (fun i => of_var (p_minus_var i)) (keys demand).
Proof.
  unfold penalty_terms. apply mapM_map. intros i e _ He.
  apply bind_Ok in He; destruct He as (v & Hv & He).
  injection He as <-. now rewrite (p_minus_lookup Hbuild _ Hv).
Qed.

Lemma objective_shape :
  objective (prob mdl) =
  add (add
    (lpSum (flat_map (fun i =>
       flat_map (fun s =>
         map (fun m => scale (price costs s m) (of_var (x_var i s m)))
             (materials ceramic_composition i))
       (keys costs))
     (keys demand)))
    (scale w_plus (lpSum (map (fun i => of_var (p_plus_var i)) (keys demand)))))
    (scale w_minus (lpSum (map (fun i => of_var (p_minus_var i)) (keys demand)))).
Proof.
  destruct (build_inv Hbuild)
    as (xi & zi & obj & cs & _ & _ & _ & _ & _ & _ & Hobj & _ & ->).
  simpl. unfold objective_function in Hobj.
  apply bind_Ok in Hobj; destruct Hobj as (xs & Hxs & Hobj).
  apply bind_Ok in Hobj; destruct Hobj as (pp & Hpp & Hobj).
  apply bind_Ok in Hobj; destruct Hobj as (pm & Hpm & Hobj).
  injection Hobj as <-.
  now rewrite (purchase_terms_shape Hxs), (penalty_terms_plus_shape Hpp),
    (penalty_terms_minus_shape Hpm).
Qed.

End Objective.

(** C5: the built problem is a minimisation, and under every assignment its
    objective is worth the sum over (line, supplier, material) of
    [x * price], plus [w_plus] times the sum of the [p_plus], plus [w_minus]
    times the sum of the [p_minus], where [w_plus] is 0.02 and [w_minus] is
    0.05, the larger of the two. *)
Theorem C5_objective
    (demand : dict Q) (costs ceramic_composition : dict (dict Q))
    (mdl : model) :
  build demand costs ceramic_composition = Ok mdl ->
  direction (prob mdl) = LpMinimize /\
  (forall a, (value_of a (objective (prob mdl)) ==
              spec_objective demand costs ceramic_composition a)%Q) /\
  (w_plus == 2 / 100)%Q /\ (w_minus == 5 / 100)%Q /\ (w_plus < w_minus)%Q.
Proof.
  intros Hb. split.
  { destruct (build_inv Hb)
      as (xi & zi & obj & cs & _ & _ & _ & _ & _ & _ & _ & _ & ->).
    reflexivity. }
  split.
  { intros a. rewrite (objective_shape Hb). unfold spec_objective.
    rewrite !value_of_add, !value_of_scale, !value_of_lpSum_vars.
    rewrite value_of_lpSum. simpl.
    apply Qplus_comp; [apply Qplus_comp|]; try reflexivity.
    rewrite sumQ_map_flat_map. apply sumQ_ext; intros i _.
    rewrite sumQ_map_flat_map. apply sumQ_ext; intros s _.
    rewrite map_map. apply sumQ_ext; intros m _.
    rewrite value_of_scale, value_of_of_var. simpl. ring. }
  unfold w_plus, w_minus. repeat split; reflexivity.
Qed.

Lemma C5_objective_witness :
  build demand costs ceramic_composition = Ok costmin /\
  direction (prob costmin) = LpMinimize /\
  (forall a, (value_of a (objective (prob costmin)) ==
              spec_objective demand costs ceramic_composition a)%Q) /\
  (w_plus == 2 / 100)%Q /\ (w_minus == 5 / 100)%Q /\ (w_plus < w_minus)%Q.
Proof.
  split; [exact costmin_built|].
  exact (@C5_objective demand costs ceramic_composition costmin costmin_built).
Defined.

(** ** Restriction 4: the demand, with its penalties *)

Section Demand.

Context {demand : dict Q} {costs ceramic_composition : dict (dict Q)}.
Context {mdl : model}.
Hypothesis Hbuild : build demand costs ceramic_composition = Ok mdl.

(** The shape of the constraint of line 72. *)
Lemma restriction4_shape i c :
  restriction4 demand costs ceramic_composition
    (x mdl) (p_plus mdl) (p_minus mdl) i = Ok c ->
  exists d,
    get demand i = Some d /\
    c = mkConstraint
          (lpSum (flat_map (fun s =>
             map (fun m => of_var (x_var i s m))
                 (materials ceramic_composition i))
           (keys costs)))
          LpConstraintEQ
          (sub (add (of_num d) (of_var (p_plus_var i)))
               (of_var (p_minus_var i))).
Proof.
  unfold restriction4; intros H.
  apply bind_Ok in H; destruct H as (vs & Hvs & H).
  apply bind_Ok in H; destruct H as (d & Hd & H).
  apply bind_Ok in H; destruct H as (pp & Hpp & H).
  apply bind_Ok in H; destruct H as (pm & Hpm & H).
  injection H as <-. exists d. rewrite getitem_Ok in Hd.
  split; [exact Hd|].
  rewrite (p_plus_lookup Hbuild _ Hpp), (p_minus_lookup Hbuild _ Hpm).
  do 2 f_equal.
  apply flat_mapM_flat_map with (2 := Hvs). intros s r _ Hr.
  apply bind_Ok in Hr; destruct Hr as (ms & Hms & Hr).
  rewrite getitem_Ok in Hms. unfold materials; rewrite Hms.
  apply mapM_map with (2 := Hr). intros m e _ He.
  apply bind_Ok in He; destruct He as (v & Hv & He).
  injection He as <-. now rewrite (x_lookup Hbuild _ _ _ Hv).
Qed.

Lemma restriction4_In i :
  In i (keys demand) ->
  exists c,
    restriction4 demand costs ceramic_composition
      (x mdl) (p_plus mdl) (p_minus mdl) i = Ok c /\
    In c (constraints (prob mdl)).
Proof.
  intros Hd.
  destruct (restrictions_inv Hbuild)
    as (c1 & c2 & c3 & c4 & c5 & _ & _ & _ & H4 & _ & ->).
  destruct (mapM_In _ _ i H4 Hd) as (c & Hc & Hin).
  exists c; split; auto. rewrite !in_app_iff; auto.
Qed.

End Demand.

Lemma total_purchased_with_penalties costs ceramic_composition a i j pp pm :
  total_purchased costs ceramic_composition (with_penalties a j pp pm) i =
  total_purchased costs ceramic_composition a i.
Proof. reflexivity. Qed.

(** C6: for every implant of the demand table the built model contains the
    constraint of line 72, an equality that holds exactly when the quantity
    bought for the implant, over all suppliers and powders, equals the
    demand plus [p_plus] minus [p_minus].  Both penalties are continuous
    with lower bound 0 and no upper bound, so the equation is soft: whatever
    is bought, some non-negative penalties satisfy it. *)
Theorem C6_demand_matching
    (demand : dict Q) (costs ceramic_composition : dict (dict Q))
    (mdl : model) (i : string) (d : Q) :
  build demand costs ceramic_composition = Ok mdl ->
  get demand i = Some d ->
  exists c,
    restriction4 demand costs ceramic_composition
      (x mdl) (p_plus mdl) (p_minus mdl) i = Ok c /\
    In c (constraints (prob mdl)) /\
    sense c = LpConstraintEQ /\
    (forall a, satisfies a c <->
       (total_purchased costs ceramic_composition a i ==
        d + a (P_plus i) - a (P_minus i))%Q) /\
    In (p_plus_var i) (constraint_vars c) /\
    In (p_minus_var i) (constraint_vars c) /\
    p_plus_var i = mkVar (P_plus i) (Some 0%Q) None LpContinuous /\
    p_minus_var i = mkVar (P_minus i) (Some 0%Q) None LpContinuous /\
    (forall a, feasible (prob mdl) a ->
       (0 <= a (P_plus i))%Q /\ (0 <= a (P_minus i))%Q /\
       (total_purchased costs ceramic_composition a i ==
        d + a (P_plus i) - a (P_minus i))%Q) /\
    (forall a, exists pp pm,
       (0 <= pp)%Q /\ (0 <= pm)%Q /\
       satisfies (with_penalties a i pp pm) c).
Proof.
  intros Hb Hd.
  destruct (restriction4_In Hb i (get_keys _ _ Hd)) as (c & Hc & Hin).
  destruct (restriction4_shape Hb _ Hc) as (d' & Hd' & ->).
  rewrite Hd in Hd'; injection Hd' as <-.
  set (c := mkConstraint _ _ _) in *.
  assert (Hsat : forall a, satisfies a c <->
    (total_purchased costs ceramic_composition a i ==
     d + a (P_plus i) - a (P_minus i))%Q).
  { intros a. unfold satisfies, c; simpl.
    rewrite value_of_sub, value_of_add, value_of_of_num, !value_of_of_var.
    rewrite value_of_lpSum, sumQ_map_flat_map. simpl.
    unfold total_purchased.
    assert (E : (sumQ (map (fun s =>
                   sumQ (map (value_of a)
                     (map (fun m => of_var (x_var i s m))
                        (materials ceramic_composition i)))) (keys costs)) ==
                 sumQ (map (fun s =>
                   sumQ (map (fun m => a (X i s m))
                     (materials ceramic_composition i))) (keys costs)))%Q).
    { apply sumQ_ext; intros s _. rewrite map_map.
      apply sumQ_ext; intros m _. apply value_of_of_var. }
    rewrite E. reflexivity. }
  assert (Hpp : In (p_plus_var i) (constraint_vars c)).
  { unfold constraint_vars, c; simpl. apply in_or_app; right.
    unfold expr_vars; simpl. auto. }
  assert (Hpm : In (p_minus_var i) (constraint_vars c)).
  { unfold constraint_vars, c; simpl. apply in_or_app; right.
    unfold expr_vars; simpl. auto. }
  exists c. split; [exact Hc|]. split; [exact Hin|].
  split; [reflexivity|]. split; [exact Hsat|].
  split; [exact Hpp|]. split; [exact Hpm|].
  split; [reflexivity|]. split; [reflexivity|]. split.
  - intros a [Hall Hdom].
    pose proof (Hdom _ (constraint_vars_variables _ _ _ Hin Hpp)) as (H1 & _).
    pose proof (Hdom _ (constraint_vars_variables _ _ _ Hin Hpm)) as (H2 & _).
    simpl in H1, H2. repeat split; auto. apply Hsat. now apply Hall.
  - intros a.
    set (t := total_purchased costs ceramic_composition a i).
    destruct (Qlt_le_dec t d) as [Hlt|Hge].
    + exists 0%Q, (d - t)%Q. split; [lra|]. split; [lra|].
      apply Hsat. rewrite total_purchased_with_penalties. fold t.
      simpl. rewrite String.eqb_refl. lra.
    + exists (t - d)%Q, 0%Q. split; [lra|]. split; [lra|].
      apply Hsat. rewrite total_purchased_with_penalties. fold t.
      simpl. rewrite String.eqb_refl. lra.
Qed.

Lemma C6_demand_matching_witness :
  build demand costs ceramic_composition = Ok costmin /\
  get demand "C4" = Some 19%Q /\
  exists c,
    restriction4 demand costs ceramic_composition
      (x costmin) (p_plus costmin) (p_minus costmin) "C4" = Ok c /\
    In c (constraints (prob costmin)) /\
    sense c = LpConstraintEQ /\
    (forall a, satisfies a c <->
       (total_purchased costs ceramic_composition a "C4" ==
        19 + a (P_plus "C4") - a (P_minus "C4"))%Q) /\
    In (p_plus_var "C4") (constraint_vars c) /\
    In (p_minus_var "C4") (constraint_vars c) /\
    p_plus_var "C4" = mkVar (P_plus "C4") (Some 0%Q) None LpContinuous /\
    p_minus_var "C4" = mkVar (P_minus "C4") (Some 0%Q) None LpContinuous /\
    (forall a, feasible (prob costmin) a ->
       (0 <= a (P_plus "C4"))%Q /\ (0 <= a (P_minus "C4"))%Q /\
       (total_purchased costs ceramic_composition a "C4" ==
        19 + a (P_plus "C4") - a (P_minus "C4"))%Q) /\
    (forall a, exists pp pm,
       (0 <= pp)%Q /\ (0 <= pm)%Q /\
       satisfies (with_penalties a "C4" pp pm) c).
Proof.
  split; [exact costmin_built|]. split; [reflexivity|].
  exact (@C6_demand_matching demand costs ceramic_composition costmin
           "C4" 19%Q costmin_built eq_refl).
Defined.

(** ** A price that is missing *)

Lemma mapM_Err A B (f : A -> result B) l e :
  mapM f l = Err e -> exists a, In a l /\ f a = Err e.
Proof.
  induction l as [|a0 l IH]; simpl; [discriminate|].
  destruct (f a0) as [b|e0] eqn:E; simpl.
  - destruct (mapM f l) as [bs|e1]; simpl; [discriminate|].
    intros H; injection H as <-.
    destruct IH as (a & Ha & Hfa); eauto.
  - intros H; injection H as <-. eauto.
Qed.

Lemma flat_mapM_Err A B (f : A -> result (list B)) l e :
  flat_mapM f l = Err e -> exists a, In a l /\ f a = Err e.
Proof.
  induction l as [|a0 l IH]; simpl; [discriminate|].
  destruct (f a0) as [b|e0] eqn:E; simpl.
  - destruct (flat_mapM f l) as [bs|e1]; simpl; [discriminate|].
    intros H; injection H as <-.
    destruct IH as (a & Ha & Hfa); eauto.
  - intros H; injection H as <-. eauto.
Qed.

Lemma mapM_fails A B (f : A -> result B) l a e0 :
  In a l -> f a = Err e0 -> exists e, mapM f l = Err e.
Proof.
  intros Hin Hf. destruct (mapM f l) as [bs|e] eqn:E; [|eauto].
  destruct (mapM_In _ _ a E Hin) as (b & Hb & _). congruence.
Qed.

Lemma flat_mapM_fails A B (f : A -> result (list B)) l a e0 :
  In a l -> f a = Err e0 -> exists e, flat_mapM f l = Err e.
Proof.
  intros Hin Hf. destruct (flat_mapM f l) as [bs|e] eqn:E; [|eauto].
  destruct (flat_mapM_In _ _ a E Hin) as (b & Hb & _). congruence.
Qed.

Lemma mapM_eq A B (f : A -> result B) (g : A -> B) l :
  (forall a, In a l -> f a = Ok (g a)) -> mapM f l = Ok (map g l).
Proof.
  induction l as [|a0 l IH]; simpl; intros H; [reflexivity|].
  rewrite H, IH; auto.
Qed.

Lemma flat_mapM_eq A B (f : A -> result (list B)) (g : A -> list B) l :
  (forall a, In a l -> f a = Ok (g a)) -> flat_mapM f l = Ok (flat_map g l).
Proof.
  induction l as [|a0 l IH]; simpl; intros H; [reflexivity|].
  rewrite H, IH; auto.
Qed.

Lemma find_app_first A (p : A -> bool) l1 l2 :
  find p (l1 ++ l2) =
  match find p l1 with Some a => Some a | None => find p l2 end.
Proof.
  induction l1 as [|a l1 IH]; simpl; [reflexivity|].
  destruct (p a); [reflexivity | exact IH].
Qed.

Lemma find_split A (p : A -> bool) l a :
  find p l = Some a ->
  exists before after,
    l = before ++ a :: after /\
    (forall k, In k before -> p k = false) /\ p a = true.
Proof.
  induction l as [|a0 l IH]; simpl; [discriminate|].
  destruct (p a0) eqn:E.
  - intros H; injection H as <-. exists [], l. simpl. repeat split; tauto.
  - intros H. destruct (IH H) as (before & after & -> & Hb & Ha).
    exists (a0 :: before), after. simpl. repeat split; auto.
    intros k [<-|Hk]; auto.
Qed.

(** A comprehension stops at the first item whose body raises. *)
Lemma mapM_find A B C (f : A -> result B) (h : A -> C) (p : C -> bool)
    (err : C -> exn) l :
  (forall a, In a l ->
     if p (h a) then f a = Err (err (h a)) else exists b, f a = Ok b) ->
  match find p (map h l) with
  | Some c => mapM f l = Err (err c)
  | None => exists bs, mapM f l = Ok bs
  end.
Proof.
  induction l as [|a l IH]; simpl; intros H; [eauto|].
  pose proof (H a (or_introl eq_refl)) as Ha.
  destruct (p (h a)).
  - rewrite Ha. reflexivity.
  - destruct Ha as (b & ->). simpl.
    assert (IH' := IH (fun a' Ha' => H a' (or_intror Ha'))).
    destruct (find p (map h l)).
    + rewrite IH'. reflexivity.
    + destruct IH' as (bs & ->). simpl. eauto.
Qed.

Lemma flat_mapM_find A B C (f : A -> result (list B)) (g : A -> list C)
    (p : C -> bool) (err : C -> exn) l :
  (forall a, In a l ->
     match find p (g a) with
     | Some c => f a = Err (err c)
     | None => exists bs, f a = Ok bs
     end) ->
  match find p (flat_map g l) with
  | Some c => flat_mapM f l = Err (err c)
  | None => exists bs, flat_mapM f l = Ok bs
  end.
Proof.
  induction l as [|a l IH]; simpl; intros H; [eauto|].
  pose proof (H a (or_introl eq_refl)) as Ha.
  rewrite find_app_first.
  destruct (find p (g a)).
  - rewrite Ha. reflexivity.
  - destruct Ha as (b & ->). simpl.
    assert (IH' := IH (fun a' Ha' => H a' (or_intror Ha'))).
    destruct (find p (flat_map g l)).
    + rewrite IH'. reflexivity.
    + destruct IH' as (bs & ->). simpl. eauto.
Qed.

Section MissingPrice.

Variable demand : dict Q.
Variable costs ceramic_composition : dict (dict Q).
Hypothesis Hcomposed :
  forall j, In j (keys demand) -> exists ms, get ceramic_composition j = Some ms.

Lemma x_indices_composed :
  x_indices demand costs ceramic_composition =
  Ok (flat_map (fun i =>
        flat_map (fun s =>
          map (fun m => (i, s, m)) (materials ceramic_composition i))
        (keys costs))
      (keys demand)).
Proof.
  unfold x_indices. apply flat_mapM_eq. intros i Hi.
  apply flat_mapM_eq. intros s _.
  destruct (Hcomposed i Hi) as (ms & Hms).
  unfold getitem, materials. rewrite Hms. reflexivity.
Qed.

Lemma z_indices_composed :
  exists zi, z_indices demand costs ceramic_composition = Ok zi.
Proof.
  unfold z_indices.
  rewrite (flat_mapM_eq _
    (fun i => flat_map (fun m => map (fun s => (i, m, s)) (keys costs))
                (materials ceramic_composition i))); [eauto|].
  intros i Hi. destruct (Hcomposed i Hi) as (ms & Hms).
  unfold getitem, materials. rewrite Hms. reflexivity.
Qed.

Lemma x_indices_In xi i s m :
  x_indices demand costs ceramic_composition = Ok xi ->
  In i (keys demand) -> In s (keys costs) ->
  In m (materials ceramic_composition i) ->
  In (i, s, m) xi.
Proof.
  rewrite x_indices_composed. intros H; injection H as <-. intros Hi Hs Hm.
  apply in_flat_map. exists i; split; auto.
  apply in_flat_map. exists s; split; auto.
  now apply (in_map (fun m => (i, s, m))).
Qed.

(** The term of line 52 for one triple: it raises exactly when the price is
    missing, and then with the powder as the key. *)
Lemma purchase_term_cases xi i s m :
  In (i, s, m) xi -> In s (keys costs) ->
  let x := LpVariable_dicts x_name xi (Some 0%Q) None LpContinuous in
  let term :=
    (v <- getitem3 x (i, s, m) ;;
     prices <- getitem costs s ;;
     c <- getitem prices m ;;
     Ok (scale c (of_var v))) in
  (has_price costs s m = true /\ exists e, term = Ok e) \/
  (has_price costs s m = false /\ term = Err (KeyError (KStr m))).
Proof.
  intros Hx Hs x term. subst term x. unfold getitem3.
  rewrite (get3_dicts_In _ _ _ _ _ _ Hx). simpl.
  destruct (keys_get _ _ Hs) as (prices & Hp).
  unfold getitem, has_price. rewrite Hp. simpl.
  destruct (get prices m); simpl; eauto.
Qed.

(** Line 52 stops at the first triple without a price. *)
Lemma purchase_terms_first xi :
  x_indices demand costs ceramic_composition = Ok xi ->
  let x := LpVariable_dicts x_name xi (Some 0%Q) None LpContinuous in
  match first_missing demand costs ceramic_composition with
  | Some k =>
      purchase_terms demand costs ceramic_composition x = Err (missing_key k)
  | None =>
      exists xs, purchase_terms demand costs ceramic_composition x = Ok xs
  end.
Proof.
  intros Hxi x. unfold first_missing, purchase_order, purchase_terms.
  apply flat_mapM_find with (g := fun i =>
    flat_map (fun s =>
      map (fun m => (i, s, m)) (materials ceramic_composition i))
    (keys costs)) (p := is_missing costs) (err := missing_key).
  intros i Hi.
  apply flat_mapM_find with (g := fun s =>
    map (fun m => (i, s, m)) (materials ceramic_composition i))
    (p := is_missing costs) (err := missing_key).
  intros s Hs.
  destruct (Hcomposed i Hi) as (ms & Hms).
  assert (Hget : getitem ceramic_composition i = Ok ms)
    by (unfold getitem; now rewrite Hms).
  rewrite Hget. unfold materials. rewrite Hms. simpl.
  apply mapM_find with (h := fun m => (i, s, m)) (p := is_missing costs)
    (err := missing_key).
  intros m Hm.
  assert (Hmat : In m (materials ceramic_composition i))
    by (unfold materials; now rewrite Hms).
  destruct (@purchase_term_cases xi i s m
              (@x_indices_In xi i s m Hxi Hi Hs Hmat) Hs)
    as [[Hp (e & E)]|[Hp E]]; fold x in E; simpl; rewrite Hp; simpl; eauto.
Qed.

Lemma purchase_order_In i s m :
  In (i, s, m) (purchase_order demand costs ceramic_composition) <->
  In i (keys demand) /\ In s (keys costs) /\
  In m (materials ceramic_composition i).
Proof.
  unfold purchase_order. rewrite in_flat_map. split.
  - intros (i0 & Hi & H). rewrite in_flat_map in H.
    destruct H as (s0 & Hs & H). rewrite in_map_iff in H.
    destruct H as (m0 & E & Hm). injection E as <- <- <-. auto.
  - intros (Hi & Hs & Hm). exists i; split; auto.
    rewrite in_flat_map. exists s; split; auto.
    now apply (in_map (fun m => (i, s, m))).
Qed.

End MissingPrice.

(** C7, as the script has it: when every implant of the demand table has a
    composition and some supplier quotes no price for a powder of one of
    them, the build raises the [KeyError] of the failing subscript
    [costs[s][m]] of line 52, whose key is the powder alone: the powder of
    the first triple without a price in the order of the generator of line
    52 (implants, then suppliers, then powders), every triple before it
    having its price.  The script ends there: nothing is solved or
    printed. *)
Theorem C7_missing_price_is_KeyError
    (demand : dict Q) (costs ceramic_composition : dict (dict Q))
    (i s m : string) :
  (forall j, In j (keys demand) ->
     exists ms, get ceramic_composition j = Some ms) ->
  In i (keys demand) ->
  In s (keys costs) ->
  In m (materials ceramic_composition i) ->
  has_price costs s m = false ->
  exists i' s' m',
    first_missing demand costs ceramic_composition = Some (i', s', m') /\
    (exists before after,
       purchase_order demand costs ceramic_composition =
       before ++ (i', s', m') :: after /\
       forall j t n, In (j, t, n) before -> has_price costs t n = true) /\
    In i' (keys demand) /\ In s' (keys costs) /\
    In m' (materials ceramic_composition i') /\
    has_price costs s' m' = false /\
    build demand costs ceramic_composition = Err (KeyError (KStr m')) /\
    exn_class (KeyError (KStr m')) = "KeyError" /\
    forall solver,
      script demand costs ceramic_composition solver =
      ([], Err (KeyError (KStr m'))).
Proof.
  intros Hcomp Hi Hs Hm Hmiss.
  pose proof (@x_indices_composed demand costs ceramic_composition Hcomp)
    as Hxi.
  destruct (@z_indices_composed demand costs ceramic_composition Hcomp)
    as (zi & Hzi).
  pose proof (@purchase_terms_first demand costs ceramic_composition Hcomp
                _ Hxi) as Hfirst.
  simpl in Hfirst.
  destruct (first_missing demand costs ceramic_composition)
    as [[[i' s'] m']|] eqn:Efirst.
  - unfold first_missing in Efirst.
    destruct (find_split _ _ Efirst) as (before & after & Hsplit & Hb & Hk).
    pose proof (find_some _ _ Efirst) as [Hin _].
    apply purchase_order_In in Hin. destruct Hin as (Hi' & Hs' & Hm').
    simpl in Hk. apply negb_true_iff in Hk.
    simpl in Hfirst.
    assert (Hbuild : build demand costs ceramic_composition =
                     Err (KeyError (KStr m'))).
    { unfold build. rewrite Hxi; simpl. rewrite Hzi; simpl.
      unfold objective_function. rewrite Hfirst. reflexivity. }
    exists i', s', m'. split; [reflexivity|].
    split.
    { exists before, after. split; [exact Hsplit|].
      intros j t n Hin. apply Hb in Hin. simpl in Hin.
      now apply negb_false_iff in Hin. }
    repeat split; auto.
    intros solver. unfold script. rewrite Hbuild. reflexivity.
  - exfalso. unfold first_missing in Efirst.
    assert (Hin : In (i, s, m)
                    (purchase_order demand costs ceramic_composition))
      by (apply purchase_order_In; auto).
    pose proof (find_none _ _ Efirst _ Hin) as Hnone.
    simpl in Hnone. rewrite Hmiss in Hnone. discriminate.
Qed.

(** On the script's tables with the gray of the second supplier taken out,
    starting from the missing price of the last implant: the key raised is
    that of the first implant, whose second supplier is met first. *)
Lemma C7_missing_price_is_KeyError_witness :
  (forall j, In j (keys demand) ->
     exists ms, get ceramic_composition j = Some ms) /\
  In "D4" (keys demand) /\
  In "supplier 2" (keys costs_gap_2) /\
  In "gray" (materials ceramic_composition "D4") /\
  has_price costs_gap_2 "supplier 2" "gray" = false /\
  exists i' s' m',
    first_missing demand costs_gap_2 ceramic_composition =
      Some (i', s', m') /\
    (exists before after,
       purchase_order demand costs_gap_2 ceramic_composition =
       before ++ (i', s', m') :: after /\
       forall j t n, In (j, t, n) before ->
         has_price costs_gap_2 t n = true) /\
    In i' (keys demand) /\ In s' (keys costs_gap_2) /\
    In m' (materials ceramic_composition i') /\
    has_price costs_gap_2 s' m' = false /\
    build demand costs_gap_2 ceramic_composition = Err (KeyError (KStr m')) /\
    exn_class (KeyError (KStr m')) = "KeyError" /\
    forall solver,
      script demand costs_gap_2 ceramic_composition solver =
      ([], Err (KeyError (KStr m'))).
Proof.
  assert (Hcomp : forall j, In j (keys demand) ->
            exists ms, get ceramic_composition j = Some ms).
  { intros j Hj. simpl in Hj.
    repeat (destruct Hj as [<-|Hj]; [eexists; reflexivity|]). contradiction. }
  assert (Hi : In "D4" (keys demand)) by (simpl; tauto).
  assert (Hs : In "supplier 2" (keys costs_gap_2)) by (simpl; tauto).
  assert (Hm : In "gray" (materials ceramic_composition "D4"))
    by (simpl; tauto).
  split; [exact Hcomp|]. split; [exact Hi|]. split; [exact Hs|].
  split; [exact Hm|]. split; [reflexivity|].
  exact (@C7_missing_price_is_KeyError demand costs_gap_2 ceramic_composition
           "D4" "supplier 2" "gray" Hcomp Hi Hs Hm eq_refl).
Defined.

(** The first triple without a price on the tables of the script with
    prices taken out.  With two gaps the key is the powder of the triple met
    first: gray of the second supplier, although white comes before gray in
    the composition, because the suppliers are the outer loop. *)
Example first_missing_of_the_tables :
  first_missing demand costs_gap_2 ceramic_composition =
    Some ("A1", "supplier 2", "gray") /\
  first_missing demand costs_gap_3 ceramic_composition =
    Some ("A1", "supplier 3", "gray") /\
  first_missing demand costs_two_gaps ceramic_composition =
    Some ("A1", "supplier 2", "gray") /\
  build demand costs_two_gaps ceramic_composition =
    Err (KeyError (KStr "gray")) /\
  first_missing demand costs ceramic_composition = None.
Proof. repeat split; vm_compute; reflexivity. Qed.

(** C7 as stated does not hold on the script's tables with one price
    taken out: the build raises [KeyError('gray')], not a [MissingPriceData],
    and the same exception whether the second or the third supplier is the
    one without a price for gray, so the supplier is not identified. *)
Lemma C7_no_MissingPriceData :
  has_price costs_gap_2 "supplier 2" "gray" = false /\
  has_price costs_gap_3 "supplier 3" "gray" = false /\
  build demand costs_gap_2 ceramic_composition = Err (KeyError (KStr "gray")) /\
  build demand costs_gap_3 ceramic_composition = Err (KeyError (KStr "gray")) /\
  ~ (exists e, build demand costs_gap_2 ceramic_composition = Err e /\
               exn_class e = "MissingPriceData").
Proof.
  assert (H2 : build demand costs_gap_2 ceramic_composition =
               Err (KeyError (KStr "gray"))) by (vm_compute; reflexivity).
  split; [reflexivity|]. split; [reflexivity|]. split; [exact H2|].
  split; [vm_compute; reflexivity|].
  intros (e & He & Hclass). rewrite H2 in He. injection He as <-.
  discriminate Hclass.
Qed.

(** ** Lines 85-94: the detail view *)

Lemma for_each_ok A (f : A -> io unit) (g : A -> list event) l :
  (forall a, In a l -> f a = (g a, Ok tt)) ->
  for_each f l = (flat_map g l, Ok tt).
Proof.
  induction l as [|a0 l IH]; simpl; intros H; [reflexivity|].
  rewrite H by auto. rewrite IH by auto. reflexivity.
Qed.

Lemma flat_map_filter A B (p : A -> bool) (h : A -> B) l :
  flat_map (fun a => if p a then [h a] else []) l = map h (filter p l).
Proof.
  induction l as [|a l IH]; simpl; [reflexivity|].
  destruct (p a); simpl; now rewrite IH.
Qed.

Section DetailView.

Context {demand : dict Q} {costs ceramic_composition : dict (dict Q)}.
Context {mdl : model}.
Hypothesis Hbuild : build demand costs ceramic_composition = Ok mdl.

(** Restriction 3 has read every [x[i, s, m]] that the report reads. *)
Lemma x_lookup_composition i ms m s :
  get ceramic_composition i = Some ms -> In m (keys ms) ->
  In s (keys costs) ->
  getitem3 (x mdl) (i, s, m) = Ok (x_var i s m).
Proof.
  intros Hi Hm Hs.
  destruct (restriction3_In Hbuild i m Hi Hm) as (c & Hc & _).
  unfold restriction3 in Hc.
  apply bind_Ok in Hc; destruct Hc as (vs & Hvs & _).
  destruct (mapM_In _ _ s Hvs Hs) as (e & He & _).
  apply bind_Ok in He; destruct He as (v & Hv & _).
  now rewrite Hv, (x_lookup Hbuild _ _ _ Hv).
Qed.

Lemma report_purchase_ok sol i ms m s :
  get ceramic_composition i = Some ms -> In m (keys ms) ->
  In s (keys costs) ->
  report_purchase (x mdl) sol i m s =
  (if ne_zero (varValue sol (X i s m))
   then [PrintPurchase m s (varValue sol (X i s m))] else [], Ok tt).
Proof.
  intros Hi Hm Hs. unfold report_purchase, lift.
  rewrite (x_lookup_composition i m s Hi Hm Hs). simpl.
  destruct (ne_zero (varValue sol (X i s m))); reflexivity.
Qed.

Lemma report_powder_ok sol i ms m :
  get ceramic_composition i = Some ms -> In m (keys ms) ->
  for_each (report_purchase (x mdl) sol i m) (keys costs) =
  (purchase_lines costs sol i m, Ok tt).
Proof.
  intros Hi Hm. unfold purchase_lines. rewrite <- flat_map_filter.
  apply for_each_ok. intros s Hs. now apply report_purchase_ok with (ms := ms).
Qed.

Lemma report_implant_ok sol i :
  In i (keys ceramic_composition) ->
  report_implant costs ceramic_composition (x mdl) sol i =
  (implant_lines costs ceramic_composition sol i, Ok tt).
Proof.
  intros Hi. destruct (keys_get _ _ Hi) as (ms & Hms).
  unfold report_implant, implant_lines, materials, lift, getitem.
  rewrite Hms. simpl.
  rewrite (for_each_ok _ (purchase_lines costs sol i)).
  - reflexivity.
  - intros m Hm. now apply report_powder_ok with (ms := ms).
Qed.

Lemma detail_view_ok sol :
  detail_view costs ceramic_composition (x mdl) sol =
  (detail_lines costs ceramic_composition sol, Ok tt).
Proof.
  unfold detail_view, detail_lines. apply for_each_ok.
  intros i Hi. now apply report_implant_ok.
Qed.

End DetailView.

Lemma ne_zero_spec v : ne_zero v = true <-> ~ is_zero v.
Proof.
  unfold is_zero. destruct v as [q|]; simpl.
  - rewrite negb_true_iff. split.
    + intros E (q' & Hq & H0). injection Hq as <-.
      apply Qeq_bool_iff in H0. congruence.
    + intros H. destruct (Qeq_bool q 0) eqn:E; [|reflexivity].
      exfalso. apply H. exists q. split; [reflexivity|].
      now apply Qeq_bool_iff.
  - split; [|reflexivity]. intros _ (q & Hq & _). discriminate.
Qed.

(** C8, as the script has it: the detail view tests each value against 0
    itself, with no tolerance.  For an implant and a powder of its
    composition it prints one line for every supplier whose value is not
    exactly 0, in the order of the price table, and does not stop at the
    first of them. *)
Theorem C8_detail_view_tests_zero_exactly
    (demand : dict Q) (costs ceramic_composition : dict (dict Q))
    (mdl : model) (sol : solution) (i m : string) (ms : dict Q) :
  build demand costs ceramic_composition = Ok mdl ->
  get ceramic_composition i = Some ms ->
  In m (keys ms) ->
  for_each (report_purchase (x mdl) sol i m) (keys costs) =
    (map (fun s => PrintPurchase m s (varValue sol (X i s m)))
         (filter (fun s => ne_zero (varValue sol (X i s m))) (keys costs)),
     Ok tt) /\
  (forall s, In s (keys costs) ->
     (In (PrintPurchase m s (varValue sol (X i s m)))
         (fst (for_each (report_purchase (x mdl) sol i m) (keys costs))) <->
      ~ is_zero (varValue sol (X i s m)))) /\
  (forall q, ~ (q == 0)%Q -> ne_zero (Some q) = true).
Proof.
  intros Hb Hi Hm.
  pose proof (report_powder_ok Hb sol i m Hi Hm) as E.
  unfold purchase_lines in E. split; [exact E|]. split.
  - intros s Hs. rewrite E; simpl. rewrite <- ne_zero_spec. split.
    + intros H. apply in_map_iff in H. destruct H as (s' & Heq & Hin).
      injection Heq as -> _. apply filter_In in Hin. tauto.
    + intros H.
      apply (in_map (fun s => PrintPurchase m s (varValue sol (X i s m)))).
      apply filter_In. auto.
  - intros q Hq. apply ne_zero_spec. intros (q' & E' & H0).
    injection E' as <-. contradiction.
Qed.

Lemma C8_detail_view_tests_zero_exactly_witness :
  build demand costs ceramic_composition = Ok costmin /\
  get ceramic_composition "A1" = Some (powders 58 38 0 4) /\
  In "white" (keys (powders 58 38 0 4)) /\
  for_each (report_purchase (x costmin)
              (all_at (1 # 1000000000) (prob costmin)) "A1" "white")
    (keys costs) =
    ([PrintPurchase "white" "supplier 1" (Some (1 # 1000000000));
      PrintPurchase "white" "supplier 2" (Some (1 # 1000000000));
      PrintPurchase "white" "supplier 3" (Some (1 # 1000000000))], Ok tt).
Proof.
  assert (Hm : In "white" (keys (powders 58 38 0 4))) by (simpl; tauto).
  split; [exact costmin_built|]. split; [reflexivity|]. split; [exact Hm|].
  exact (proj1 (@C8_detail_view_tests_zero_exactly
                  demand costs ceramic_composition costmin
                  (all_at (1 # 1000000000) (prob costmin))
                  "A1" "white" (powders 58 38 0 4)
                  costmin_built eq_refl Hm)).
Defined.

(** C8 as stated does not hold: there is no tolerance below which a
    value is left out of the detail view.  Whatever the threshold, a value
    of half of it is printed. *)
Lemma C8_no_zero_tolerance :
  ~ exists eps : Q, (0 < eps)%Q /\
      forall q : Q, (- eps < q)%Q -> (q < eps)%Q ->
        fst (report_purchase (x costmin) (all_at q (prob costmin))
               "A1" "white" "supplier 1") = [].
Proof.
  intros (eps & Hpos & H).
  assert (H1 : (- eps < eps * (1 # 2))%Q) by lra.
  assert (H2 : (eps * (1 # 2) < eps)%Q) by lra.
  specialize (H _ H1 H2).
  assert (Hm : In "white" (keys (powders 58 38 0 4))) by (simpl; tauto).
  assert (Hs : In "supplier 1" (keys costs)) by (simpl; tauto).
  rewrite (@report_purchase_ok demand costs ceramic_composition costmin
             costmin_built (all_at (eps * (1 # 2)) (prob costmin))
             "A1" (powders 58 38 0 4) "white" "supplier 1" eq_refl Hm Hs) in H.
  simpl in H.
  destruct (Qeq_bool (eps * (1 # 2)) 0) eqn:E; simpl in H; [|discriminate].
  apply Qeq_bool_iff in E. lra.
Qed.

(** ** Lines 82-121: the status of the solver is not read *)

(** C9, as the script has it: once the model is built, whatever status the
    solver returns, the script prints the detail view (with a heading for
    every implant of the composition table) and the total cost, and then
    the summary table unless its renderer raises.  The status shows nowhere
    but in the call itself. *)
Theorem C9_report_whatever_the_status
    (demand : dict Q) (costs ceramic_composition : dict (dict Q))
    (mdl : model) (solver : LpProblem -> solution) :
  build demand costs ceramic_composition = Ok mdl ->
  script demand costs ceramic_composition solver =
    (let sol := solver (prob mdl) in
     let total :=
       PrintTotalCost (expr_value (varValue sol) (objective (prob mdl))) in
     match generate_formatted_table_with_suppliers
             (x mdl) sol ceramic_composition costs with
     | Ok t =>
         (Solved (status sol) ::
          detail_lines costs ceramic_composition sol ++ [total; PrintTable t],
          Ok tt)
     | Err e =>
         (Solved (status sol) ::
          detail_lines costs ceramic_composition sol ++ [total],
          Err e)
     end) /\
  (forall i, In i (keys ceramic_composition) ->
     In (PrintImplant i)
        (fst (script demand costs ceramic_composition solver))) /\
  In (PrintTotalCost
        (expr_value (varValue (solver (prob mdl))) (objective (prob mdl))))
     (fst (script demand costs ceramic_composition solver)).
Proof.
  intros Hb.
  assert (E : script demand costs ceramic_composition solver =
    (let sol := solver (prob mdl) in
     let total :=
       PrintTotalCost (expr_value (varValue sol) (objective (prob mdl))) in
     match generate_formatted_table_with_suppliers
             (x mdl) sol ceramic_composition costs with
     | Ok t =>
         (Solved (status sol) ::
          detail_lines costs ceramic_composition sol ++ [total; PrintTable t],
          Ok tt)
     | Err e =>
         (Solved (status sol) ::
          detail_lines costs ceramic_composition sol ++ [total],
          Err e)
     end)).
  { unfold script. rewrite Hb. unfold lift; simpl.
    rewrite (detail_view_ok Hb). simpl.
    destruct (generate_formatted_table_with_suppliers _ _ _ _); reflexivity. }
  split; [exact E|].
  assert (Hhead : forall i, In i (keys ceramic_composition) ->
    In (PrintImplant i)
       (detail_lines costs ceramic_composition (solver (prob mdl)))).
  { intros i Hi. unfold detail_lines. apply in_flat_map.
    exists i. split; [exact Hi | simpl; auto]. }
  split.
  - intros i Hi. rewrite E; simpl.
    destruct (generate_formatted_table_with_suppliers _ _ _ _); simpl;
      right; apply in_or_app; left; now apply Hhead.
  - rewrite E; simpl.
    destruct (generate_formatted_table_with_suppliers _ _ _ _); simpl;
      right; apply in_or_app; right; simpl; auto.
Qed.

Lemma C9_report_whatever_the_status_witness :
  build demand_A1 costs composition_nothing = Ok nothing /\
  script demand_A1 costs composition_nothing reports_infeasible =
    ([Solved LpStatusInfeasible; PrintImplant "A1"; PrintBlank;
      PrintTotalCost (Some PrimFloat.zero);
      PrintTable (header ++ divider ++
        ljust 15 "A1" ++ " | " ++ ljust 10 "0" ++ " | " ++ ljust 10 "0" ++
        " | " ++ ljust 10 "0" ++ " | " ++ ljust 10 "0" ++ nl)%string],
     Ok tt).
Proof.
  assert (Hb : build demand_A1 costs composition_nothing = Ok nothing)
    by (vm_compute; reflexivity).
  split; [exact Hb|].
  rewrite (proj1 (@C9_report_whatever_the_status
                    demand_A1 costs composition_nothing nothing
                    reports_infeasible Hb)).
  vm_compute. reflexivity.
Defined.

Lemma sumQ_nonpos A (f : A -> Q) l :
  (forall k, In k l -> (f k <= 0)%Q) -> (sumQ (map f l) <= 0)%Q.
Proof.
  induction l as [|k l IH]; simpl; intros H; [lra|].
  assert (f k <= 0)%Q by (apply H; auto).
  assert (sumQ (map f l) <= 0)%Q by (apply IH; auto). lra.
Qed.

(** An implant whose composition asks for nothing makes the model
    infeasible: restriction 1 wants a unit bought from the first supplier,
    restriction 5 caps every purchase at the required quantity, 0. *)
Lemma zero_composition_infeasible
    (demand : dict Q) (costs ceramic_composition : dict (dict Q))
    (mdl : model) (i : string) (ms : dict Q) :
  build demand costs ceramic_composition = Ok mdl ->
  In i (keys demand) ->
  In "supplier 1" (keys costs) ->
  get ceramic_composition i = Some ms ->
  (forall m q, get ms m = Some q -> (q == 0)%Q) ->
  forall a, ~ feasible (prob mdl) a.
Proof.
  intros Hb Hd Hs Hi Hzero a [Hall _].
  destruct (restriction1_In Hb i Hd) as (c1 & Hc1 & Hin1).
  destruct (restriction1_shape Hb _ Hc1) as (ms' & Hms' & ->).
  rewrite Hi in Hms'; injection Hms' as <-.
  pose proof (Hall _ Hin1) as Hfloor.
  unfold satisfies in Hfloor; simpl in Hfloor.
  rewrite value_of_lpSum_vars, value_of_of_num in Hfloor. simpl in Hfloor.
  assert (Hle : (sumQ (map (fun m => a (X i "supplier 1" m)) (keys ms)) <= 0)%Q).
  { apply sumQ_nonpos. intros m Hm.
    destruct (restriction5_In Hb i m Hd Hi Hm) as (_ & _ & _ & Hlinks).
    destruct (Hlinks _ Hs) as (c & Hc & Hin).
    destruct (restriction5_link_shape Hb _ _ _ Hc)
      as (ms' & q & Hi' & Hq & ->).
    rewrite Hi in Hi'; injection Hi' as <-.
    pose proof (Hall _ Hin) as Hlink.
    unfold satisfies in Hlink; simpl in Hlink.
    rewrite value_of_scale, !value_of_of_var in Hlink. simpl in Hlink.
    rewrite (Hzero _ _ Hq) in Hlink. lra. }
  lra.
Qed.

(** C9 as stated does not hold: for an order that no assignment can
    meet, and a solver that says so, the script still prints the detail
    view, the total cost and the summary table. *)
Lemma C9_infeasible_is_reported :
  (forall a, ~ feasible (prob nothing) a) /\
  status (reports_infeasible (prob nothing)) = LpStatusInfeasible /\
  script demand_A1 costs composition_nothing reports_infeasible =
    ([Solved LpStatusInfeasible; PrintImplant "A1"; PrintBlank;
      PrintTotalCost (Some PrimFloat.zero);
      PrintTable (header ++ divider ++
        ljust 15 "A1" ++ " | " ++ ljust 10 "0" ++ " | " ++ ljust 10 "0" ++
        " | " ++ ljust 10 "0" ++ " | " ++ ljust 10 "0" ++ nl)%string],
     Ok tt).
Proof.
  split; [|split; [reflexivity | vm_compute; reflexivity]].
  apply (@zero_composition_infeasible demand_A1 costs composition_nothing
           nothing "A1" (powders 0 0 0 0)).
  - vm_compute; reflexivity.
  - simpl; tauto.
  - simpl; tauto.
  - reflexivity.
  - intros m q. unfold powders, get.
    repeat (destruct (String.eqb m _));
      intros H; try discriminate; injection H as <-; reflexivity.
Qed.

(** ** Lines 97-117: the summary table has four columns *)

Lemma mapM_length A B (f : A -> result B) l bs :
  mapM f l = Ok bs -> length bs = length l.
Proof.
  revert bs; induction l as [|a l IH]; simpl; intros bs H.
  - now injection H as <-.
  - apply bind_Ok in H; destruct H as (b & _ & H).
    apply bind_Ok in H; destruct H as (bs' & Hbs' & H).
    injection H as <-. simpl. f_equal. now apply IH.
Qed.

Lemma mapM_firstn A B (f : A -> result B) n l bs :
  mapM f l = Ok bs -> mapM f (firstn n l) = Ok (firstn n bs).
Proof.
  revert l bs; induction n as [|n IH]; intros l bs H; [reflexivity|].
  destruct l as [|a l]; simpl in *.
  - now injection H as <-.
  - apply bind_Ok in H; destruct H as (b & Hb & H).
    apply bind_Ok in H; destruct H as (bs' & Hbs' & H).
    injection H as <-. rewrite Hb; simpl.
    rewrite (IH _ _ Hbs'). reflexivity.
Qed.

Lemma mapM_both A B (f g : A -> result B) l :
  (forall a, In a l -> exists b, f a = Ok b /\ g a = Ok b) ->
  exists bs, mapM f l = Ok bs /\ mapM g l = Ok bs.
Proof.
  induction l as [|a l IH]; simpl; intros H; [eauto|].
  destruct (H a) as (b & Hf & Hg); auto.
  destruct IH as (bs & Hfs & Hgs); auto.
  rewrite Hf, Hg, Hfs, Hgs. simpl. eauto.
Qed.

Lemma index_Err row n e : index row n = Err e -> e = IndexError.
Proof.
  unfold index. destruct (nth_error row n); intros H;
    [discriminate | now injection H].
Qed.

Lemma format_row_Err row e : format_row row = Err e -> e = IndexError.
Proof.
  unfold format_row.
  destruct (index row 0) eqn:E0; simpl; [|intros H; injection H as <-; eapply index_Err; eauto].
  destruct (index row 1) eqn:E1; simpl; [|intros H; injection H as <-; eapply index_Err; eauto].
  destruct (index row 2) eqn:E2; simpl; [|intros H; injection H as <-; eapply index_Err; eauto].
  destruct (index row 3) eqn:E3; simpl; [|intros H; injection H as <-; eapply index_Err; eauto].
  destruct (index row 4) eqn:E4; simpl; [|intros H; injection H as <-; eapply index_Err; eauto].
  discriminate.
Qed.

Lemma format_row_short i cells :
  (length cells < 4)%nat -> format_row (i :: cells) = Err IndexError.
Proof.
  destruct cells as [|c1 [|c2 [|c3 [|c4 rest]]]]; simpl; intros H;
    try reflexivity; lia.
Qed.

Lemma format_row_first_four i cells :
  (4 <= length cells)%nat ->
  exists t, format_row (i :: cells) = Ok t /\
            format_row (i :: firstn 4 cells) = Ok t.
Proof.
  destruct cells as [|c1 [|c2 [|c3 [|c4 rest]]]]; simpl; intros H;
    try lia. eexists; split; reflexivity.
Qed.

Lemma last_char_Err s e : last_char s = Err e -> e = IndexError.
Proof.
  induction s as [|c s IH]; simpl.
  - intros H; now injection H.
  - destruct s; [discriminate | exact IH].
Qed.

Lemma last_char_Ok s : s <> "" -> exists c, last_char s = Ok c.
Proof.
  induction s as [|c s IH]; [congruence|]. intros _.
  destruct s as [|c' s']; [simpl; eauto|].
  destruct IH as (c0 & Hc0); [discriminate|].
  exists c0. exact Hc0.
Qed.

Section SummaryTable.

Variable x : dict3 LpVariable.
Variable sol : solution.
Variable costs : dict (dict Q).

Lemma supplier_cell_Err i m suppliers e :
  (forall s, In s suppliers -> valued x sol i s m = true) ->
  supplier_cell x sol i m suppliers = Err e -> e = IndexError.
Proof.
  induction suppliers as [|s rest IH]; simpl; intros Hv; [discriminate|].
  pose proof (Hv s (or_introl eq_refl)) as Hs. unfold valued in Hs.
  unfold getitem3. destruct (get3 x (i, s, m)) as [v|]; [|discriminate].
  simpl. destruct (varValue sol (name v)) as [q|]; [|discriminate].
  simpl. destruct (negb (Qle_bool q 0)).
  - destruct (last_char s) eqn:E; simpl; [discriminate|].
    intros H; injection H as <-. eapply last_char_Err; eauto.
  - apply IH. intros s' Hs'. apply Hv; auto.
Qed.

Lemma supplier_cell_Ok i m suppliers :
  (forall s, In s suppliers -> valued x sol i s m = true) ->
  (forall s, In s suppliers -> s <> "") ->
  exists c, supplier_cell x sol i m suppliers = Ok c.
Proof.
  induction suppliers as [|s rest IH]; simpl; intros Hv Hne; [eauto|].
  pose proof (Hv s (or_introl eq_refl)) as Hs. unfold valued in Hs.
  unfold getitem3. destruct (get3 x (i, s, m)) as [v|]; [|discriminate].
  simpl. destruct (varValue sol (name v)) as [q|]; [|discriminate].
  simpl. destruct (negb (Qle_bool q 0)).
  - destruct (last_char_Ok (Hne s (or_introl eq_refl))) as (c & ->).
    simpl. eauto.
  - apply IH; intros s' Hs'; [apply Hv | apply Hne]; auto.
Qed.

Variable ceramic_composition : dict (dict Q).

Lemma all_valued_get i ms m s :
  all_valued x sol ceramic_composition costs = true ->
  get ceramic_composition i = Some ms -> In m (keys ms) ->
  In s (keys costs) -> valued x sol i s m = true.
Proof.
  unfold all_valued. rewrite forallb_forall. intros H Hi Hm Hs.
  apply get_In in Hi. specialize (H _ Hi). simpl in H.
  rewrite forallb_forall in H. specialize (H _ Hm).
  rewrite forallb_forall in H. now apply H.
Qed.

(** A row of fewer than four cells cannot be formatted. *)
Lemma table_row_short i ms :
  get ceramic_composition i = Some ms -> (length ms < 4)%nat ->
  exists e, table_row x sol ceramic_composition costs i = Err e.
Proof.
  intros Hi Hlen. unfold table_row, getitem. rewrite Hi. simpl.
  destruct (mapM _ (keys ms)) as [cells|e] eqn:E; simpl; [|eauto].
  apply mapM_length in E. unfold keys in E. rewrite length_map in E.
  rewrite format_row_short; [eauto | lia].
Qed.

Lemma table_row_Err i e :
  all_valued x sol ceramic_composition costs = true ->
  In i (keys ceramic_composition) ->
  table_row x sol ceramic_composition costs i = Err e -> e = IndexError.
Proof.
  intros Hv Hi. destruct (keys_get _ _ Hi) as (ms & Hms).
  unfold table_row, getitem. rewrite Hms. simpl.
  destruct (mapM _ (keys ms)) as [cells|e'] eqn:E; simpl.
  - apply format_row_Err.
  - intros H; injection H as <-.
    apply mapM_Err in E. destruct E as (m & Hm & E).
    apply supplier_cell_Err in E; auto.
    intros s Hs. now apply all_valued_get with (ms := ms).
Qed.

Lemma get_first_four i :
  get (first_four ceramic_composition) i =
  option_map (firstn 4) (get ceramic_composition i).
Proof.
  unfold first_four.
  induction ceramic_composition as [|[k ms] d IH]; simpl; [reflexivity|].
  destruct (String.eqb i k); [reflexivity | exact IH].
Qed.

Lemma keys_first_four :
  keys (first_four ceramic_composition) = keys ceramic_composition.
Proof.
  unfold first_four, keys. rewrite map_map. reflexivity.
Qed.

(** A row of four cells or more is formatted from the first four. *)
Lemma table_row_first_four i ms :
  all_valued x sol ceramic_composition costs = true ->
  (forall s, In s (keys costs) -> s <> "") ->
  get ceramic_composition i = Some ms -> (4 <= length ms)%nat ->
  exists t,
    table_row x sol ceramic_composition costs i = Ok t /\
    table_row x sol (first_four ceramic_composition) costs i = Ok t.
Proof.
  intros Hv Hne Hi Hlen. unfold table_row, getitem.
  rewrite get_first_four, Hi. cbn [option_map bind].
  destruct (@mapM_total _ _
              (fun m => supplier_cell x sol i m (keys costs)) (keys ms))
    as (cells & Hcells).
  { intros m Hm. apply supplier_cell_Ok; auto.
    intros s Hs. now apply all_valued_get with (ms := ms). }
  rewrite Hcells. cbn [bind].
  assert (Hk : keys (firstn 4 ms) = firstn 4 (keys ms))
    by (unfold keys; now rewrite firstn_map).
  rewrite Hk, (mapM_firstn _ 4 _ Hcells). cbn [bind].
  apply format_row_first_four.
  apply mapM_length in Hcells. unfold keys in Hcells.
  rewrite length_map in Hcells. lia.
Qed.

End SummaryTable.

(** C10: the summary table is built for four powders an implant.  When an
    implant of the composition table has fewer than four, the function
    raises, and [IndexError] (from [row[4]] or before) when every variable
    it reads has a number for value.  When every implant has four or more,
    the suppliers have a name and the variables a value, the table is
    returned and it is the table of the first four powders of each implant:
    the cells of the others are left out. *)
Theorem C10_summary_table_four_columns
    (x : dict3 LpVariable) (sol : solution)
    (ceramic_composition costs : dict (dict Q)) :
  ((exists i ms, get ceramic_composition i = Some ms /\
                 (length ms < 4)%nat) ->
   exists e,
     generate_formatted_table_with_suppliers x sol ceramic_composition costs
     = Err e) /\
  (all_valued x sol ceramic_composition costs = true ->
   (exists i ms, get ceramic_composition i = Some ms /\
                 (length ms < 4)%nat) ->
   generate_formatted_table_with_suppliers x sol ceramic_composition costs
   = Err IndexError) /\
  (all_valued x sol ceramic_composition costs = true ->
   (forall s, In s (keys costs) -> s <> "") ->
   (forall i ms, get ceramic_composition i = Some ms ->
                 (4 <= length ms)%nat) ->
   exists t,
     generate_formatted_table_with_suppliers x sol ceramic_composition costs
     = Ok t /\
     generate_formatted_table_with_suppliers
       x sol (first_four ceramic_composition) costs = Ok t).
Proof.
  assert (Hfail : (exists i ms, get ceramic_composition i = Some ms /\
                                (length ms < 4)%nat) ->
    exists e,
      generate_formatted_table_with_suppliers x sol ceramic_composition costs
      = Err e).
  { intros (i & ms & Hi & Hlen).
    destruct (table_row_short x sol costs ceramic_composition i Hi Hlen)
      as (e0 & He0).
    destruct (@mapM_fails _ _
                (table_row x sol ceramic_composition costs)
                (keys ceramic_composition) i e0 (get_keys _ _ Hi) He0)
      as (e & He).
    exists e. unfold generate_formatted_table_with_suppliers.
    rewrite He. reflexivity. }
  split; [exact Hfail|]. split.
  - intros Hv Hshort. destruct (Hfail Hshort) as (e & He).
    rewrite He. f_equal.
    unfold generate_formatted_table_with_suppliers in He.
    destruct (mapM _ (keys ceramic_composition)) as [rows|e'] eqn:E;
      simpl in He; [discriminate|].
    injection He as <-.
    apply mapM_Err in E. destruct E as (i & Hi & E).
    eapply table_row_Err; eauto.
  - intros Hv Hne Hlen.
    destruct (@mapM_both _ _
                (table_row x sol ceramic_composition costs)
                (table_row x sol (first_four ceramic_composition) costs)
                (keys ceramic_composition)) as (rows & H1 & H2).
    { intros i Hi. destruct (keys_get _ _ Hi) as (ms & Hms).
      apply table_row_first_four with (ms := ms); auto.
      now apply Hlen with (i := i). }
    exists (header ++ divider ++ String.concat "" rows)%string.
    unfold generate_formatted_table_with_suppliers.
    rewrite keys_first_four, H1, H2. split; reflexivity.
Qed.

Lemma C10_summary_table_four_columns_witness :
  all_valued (x three) (all_at 1 (prob three)) composition_three costs = true /\
  (exists i ms, get composition_three i = Some ms /\ (length ms < 4)%nat) /\
  generate_formatted_table_with_suppliers
    (x three) (all_at 1 (prob three)) composition_three costs
  = Err IndexError.
Proof.
  assert (Hv : all_valued (x three) (all_at 1 (prob three))
                 composition_three costs = true) by reflexivity.
  assert (Hshort : exists i ms, get composition_three i = Some ms /\
                                (length ms < 4)%nat).
  { exists "A1", [("white", 58%Q); ("yellow", 38%Q); ("gray", 4%Q)].
    split; [reflexivity | simpl; lia]. }
  split; [exact Hv|]. split; [exact Hshort|].
  exact (proj1 (proj2 (@C10_summary_table_four_columns
                         (x three) (all_at 1 (prob three))
                         composition_three costs)) Hv Hshort).
Defined.

(** With a fifth powder the table is returned, and shows only four. *)
Example summary_table_five_powders :
  generate_formatted_table_with_suppliers
    (x five) (all_at 1 (prob five)) composition_five costs_five =
  Ok (header ++ divider ++
      ljust 15 "A1" ++ " | " ++ ljust 10 "supplier 1" ++ " | " ++
      ljust 10 "supplier 1" ++ " | " ++ ljust 10 "supplier 1" ++ " | " ++
      ljust 10 "supplier 1" ++ nl)%string /\
  generate_formatted_table_with_suppliers
    (x five) (all_at 1 (prob five)) (first_four composition_five) costs_five =
  generate_formatted_table_with_suppliers
    (x five) (all_at 1 (prob five)) composition_five costs_five.
Proof. split; vm_compute; reflexivity. Qed.

(** * Further properties of the script *)

(** ** Lines 42-49: the variable families *)

Lemma mapM_In_inv A B (f : A -> result B) l bs b :
  mapM f l = Ok bs -> In b bs -> exists a, In a l /\ f a = Ok b.
Proof.
  revert bs; induction l as [|a0 l IH]; simpl; intros bs H Hin.
  - injection H as <-. contradiction.
  - apply bind_Ok in H; destruct H as (b0 & Hb0 & H).
    apply bind_Ok in H; destruct H as (bs' & Hbs' & H).
    injection H as <-. destruct Hin as [<-|Hin]; [eauto|].
    destruct (IH _ Hbs' Hin) as (a & Ha & Hfa). eauto.
Qed.

Lemma flat_mapM_In_inv A B (f : A -> result (list B)) l bs b :
  flat_mapM f l = Ok bs -> In b bs ->
  exists a r, In a l /\ f a = Ok r /\ In b r.
Proof.
  revert bs; induction l as [|a0 l IH]; simpl; intros bs H Hin.
  - injection H as <-. contradiction.
  - apply bind_Ok in H; destruct H as (r0 & Hr0 & H).
    apply bind_Ok in H; destruct H as (bs' & Hbs' & H).
    injection H as <-. apply in_app_or in Hin. destruct Hin as [Hin|Hin].
    + exists a0, r0. auto.
    + destruct (IH _ Hbs' Hin) as (a & r & Ha & Hfa & Hr).
      exists a, r. auto.
Qed.

Lemma flat_mapM_total A B (f : A -> result (list B)) l :
  (forall a, In a l -> exists r, f a = Ok r) ->
  exists bs, flat_mapM f l = Ok bs.
Proof.
  induction l as [|a0 l IH]; simpl; intros Hf; [eauto|].
  destruct (Hf a0) as (r & Hr); auto. rewrite Hr; simpl.
  destruct IH as (bs & Hbs); auto. rewrite Hbs; simpl. eauto.
Qed.

Lemma get_dicts_In n ks lo up c k :
  In k ks ->
  get (LpVariable_dicts n ks lo up c) k = Some (LpVariable_new (n k) lo up c).
Proof.
  induction ks as [|k0 ks IH]; simpl; [tauto|].
  destruct (String.eqb_spec k k0) as [->|Hne]; [reflexivity|].
  intros [E|H]; [congruence | auto].
Qed.

Lemma get_dicts_keys n ks lo up c k v :
  get (LpVariable_dicts n ks lo up c) k = Some v -> In k ks.
Proof.
  induction ks as [|k0 ks IH]; simpl; [discriminate|].
  destruct (String.eqb_spec k k0) as [->|Hne]; auto.
Qed.

Section Families.

Variable demand : dict Q.
Variable costs ceramic_composition : dict (dict Q).
Hypothesis Hcomposed :
  forall j, In j (keys demand) -> exists ms, get ceramic_composition j = Some ms.

Lemma z_indices_composed_eq :
  z_indices demand costs ceramic_composition =
  Ok (flat_map (fun i =>
        flat_map (fun m => map (fun s => (i, m, s)) (keys costs))
                 (materials ceramic_composition i))
      (keys demand)).
Proof.
  unfold z_indices. apply flat_mapM_eq. intros i Hi.
  destruct (Hcomposed i Hi) as (ms & Hms).
  unfold getitem, materials. rewrite Hms. reflexivity.
Qed.

Lemma x_indices_iff xi i s m :
  x_indices demand costs ceramic_composition = Ok xi ->
  (In (i, s, m) xi <->
   In i (keys demand) /\ In s (keys costs) /\
   In m (materials ceramic_composition i)).
Proof.
  rewrite (@x_indices_composed demand costs ceramic_composition Hcomposed).
  intros H; injection H as <-. split.
  - intros H. apply in_flat_map in H. destruct H as (i' & Hi' & H).
    apply in_flat_map in H. destruct H as (s' & Hs' & H).
    apply in_map_iff in H. destruct H as (m' & E & Hm').
    injection E as <- <- <-. auto.
  - intros (Hi & Hs & Hm).
    apply in_flat_map. exists i; split; auto.
    apply in_flat_map. exists s; split; auto.
    now apply (in_map (fun m => (i, s, m))).
Qed.

Lemma z_indices_iff zi i m s :
  z_indices demand costs ceramic_composition = Ok zi ->
  (In (i, m, s) zi <->
   In i (keys demand) /\ In s (keys costs) /\
   In m (materials ceramic_composition i)).
Proof.
  rewrite z_indices_composed_eq. intros H; injection H as <-. split.
  - intros H. apply in_flat_map in H. destruct H as (i' & Hi' & H).
    apply in_flat_map in H. destruct H as (m' & Hm' & H).
    apply in_map_iff in H. destruct H as (s' & E & Hs').
    injection E as <- <- <-. auto.
  - intros (Hi & Hs & Hm).
    apply in_flat_map. exists i; split; auto.
    apply in_flat_map. exists m; split; auto.
    now apply (in_map (fun s => (i, m, s))).
Qed.

End Families.

Section BuiltFamilies.

Context {demand : dict Q} {costs ceramic_composition : dict (dict Q)}.
Context {mdl : model}.
Hypothesis Hbuild : build demand costs ceramic_composition = Ok mdl.

Lemma build_composed j :
  In j (keys demand) -> exists ms, get ceramic_composition j = Some ms.
Proof.
  intros Hj.
  destruct (build_inv Hbuild) as (xi & zi & obj & cs & _ & Hzi & _).
  unfold z_indices in Hzi.
  destruct (flat_mapM_In _ _ j Hzi Hj) as (r & Hr & _).
  apply bind_Ok in Hr; destruct Hr as (ms & Hms & _).
  rewrite getitem_Ok in Hms. eauto.
Qed.

Lemma x_family i s m v :
  get3 (x mdl) (i, s, m) = Some v <->
  (In i (keys demand) /\ In s (keys costs) /\
   In m (materials ceramic_composition i)) /\ v = x_var i s m.
Proof.
  destruct (build_inv Hbuild) as (xi & zi & obj & cs & Hxi & _ & -> & _).
  rewrite <- (@x_indices_iff demand costs ceramic_composition build_composed
                xi i s m Hxi). split.
  - intros H. apply get3_dicts in H. exact H.
  - intros (Hin & ->). now apply get3_dicts_In.
Qed.

Lemma z_family i m s v :
  get3 (z mdl) (i, m, s) = Some v <->
  (In i (keys demand) /\ In s (keys costs) /\
   In m (materials ceramic_composition i)) /\ v = z_var i m s.
Proof.
  destruct (build_inv Hbuild)
    as (xi & zi & obj & cs & _ & Hzi & _ & _ & _ & -> & _).
  rewrite <- (@z_indices_iff demand costs ceramic_composition build_composed
                zi i m s Hzi). split.
  - intros H. apply get3_dicts in H. exact H.
  - intros (Hin & ->). now apply get3_dicts_In.
Qed.

End BuiltFamilies.

(** X1: the family [x] holds a variable for exactly the triples (implant of
    the demand table, supplier of the price table, powder of the implant's
    composition), and [z] likewise: sparse over the powders, dense over the
    suppliers.  Each [x] is continuous with lower bound 0 and no upper
    bound, each [z] is binary; [p_plus] and [p_minus] hold one continuous
    variable with lower bound 0 for every implant of the demand table.  Any
    other subscript raises [KeyError]. *)
Theorem variable_families
    (demand : dict Q) (costs ceramic_composition : dict (dict Q))
    (mdl : model) :
  build demand costs ceramic_composition = Ok mdl ->
  (forall i s m,
     (In i (keys demand) /\ In s (keys costs) /\
      In m (materials ceramic_composition i) ->
      getitem3 (x mdl) (i, s, m) =
        Ok (mkVar (X i s m) (Some 0%Q) None LpContinuous) /\
      getitem3 (z mdl) (i, m, s) =
        Ok (mkVar (Z i m s) (Some 0%Q) (Some 1%Q) LpBinary)) /\
     (~ (In i (keys demand) /\ In s (keys costs) /\
         In m (materials ceramic_composition i)) ->
      getitem3 (x mdl) (i, s, m) = Err (KeyError (KTuple i s m)) /\
      getitem3 (z mdl) (i, m, s) = Err (KeyError (KTuple i m s)))) /\
  (forall i,
     (In i (keys demand) ->
      getitem (p_plus mdl) i =
        Ok (mkVar (P_plus i) (Some 0%Q) None LpContinuous) /\
      getitem (p_minus mdl) i =
        Ok (mkVar (P_minus i) (Some 0%Q) None LpContinuous)) /\
     (~ In i (keys demand) ->
      getitem (p_plus mdl) i = Err (KeyError (KStr i)) /\
      getitem (p_minus mdl) i = Err (KeyError (KStr i)))).
Proof.
  intros Hb. split.
  - intros i s m. split.
    + intros Hin. unfold getitem3.
      rewrite (proj2 (x_family Hb i s m _) (conj Hin eq_refl)).
      rewrite (proj2 (z_family Hb i m s _) (conj Hin eq_refl)).
      split; reflexivity.
    + intros Hnot. unfold getitem3.
      destruct (get3 (x mdl) (i, s, m)) as [v|] eqn:Ex.
      { apply (x_family Hb) in Ex. tauto. }
      destruct (get3 (z mdl) (i, m, s)) as [v|] eqn:Ez.
      { apply (z_family Hb) in Ez. tauto. }
      split; reflexivity.
  - destruct (build_inv Hb)
      as (xi & zi & obj & cs & _ & _ & _ & Hpp & Hpm & _).
    intros i. rewrite Hpp, Hpm. split.
    + intros Hi. unfold getitem. rewrite !get_dicts_In by exact Hi.
      split; reflexivity.
    + intros Hnot. unfold getitem.
      destruct (get (LpVariable_dicts P_plus _ _ _ _) i) eqn:E1.
      { apply get_dicts_keys in E1. contradiction. }
      destruct (get (LpVariable_dicts P_minus _ _ _ _) i) eqn:E2.
      { apply get_dicts_keys in E2. contradiction. }
      split; reflexivity.
Qed.

Lemma variable_families_witness :
  build demand costs ceramic_composition = Ok costmin /\
  getitem3 (x costmin) ("A2", "supplier 3", "pink") =
    Ok (mkVar (X "A2" "supplier 3" "pink") (Some 0%Q) None LpContinuous) /\
  getitem3 (z costmin) ("A2", "pink", "supplier 3") =
    Ok (mkVar (Z "A2" "pink" "supplier 3") (Some 0%Q) (Some 1%Q) LpBinary).
Proof.
  split; [exact costmin_built|].
  apply (proj1 (proj1 (@variable_families demand costs ceramic_composition
                         costmin costmin_built)
                  "A2" "supplier 3" "pink")).
  simpl. tauto.
Defined.

(** ** Lines 39-79: when the build succeeds *)

Lemma getitem3_Ok V (d : dict3 V) k v :
  getitem3 d k = Ok v <-> get3 d k = Some v.
Proof.
  unfold getitem3. destruct (get3 d k); destruct k as [[? ?] ?];
    split; congruence.
Qed.

Lemma materials_get (ceramic_composition : dict (dict Q)) i ms :
  get ceramic_composition i = Some ms ->
  materials ceramic_composition i = keys ms.
Proof. intros H. unfold materials. now rewrite H. Qed.

Lemma nonempty_In A (l : list A) : l <> [] -> exists a, In a l.
Proof. destruct l as [|a l]; [congruence | simpl; eauto]. Qed.

Section BuildNeeds.

Context {demand : dict Q} {costs ceramic_composition : dict (dict Q)}.
Context {mdl : model}.
Hypothesis Hbuild : build demand costs ceramic_composition = Ok mdl.

Lemma build_prices i s m :
  In i (keys demand) -> In s (keys costs) ->
  In m (materials ceramic_composition i) -> has_price costs s m = true.
Proof.
  intros Hi Hs Hm.
  destruct (build_inv Hbuild)
    as (xi & zi & obj & cs & _ & _ & _ & _ & _ & _ & Hobj & _).
  unfold objective_function in Hobj.
  apply bind_Ok in Hobj; destruct Hobj as (xs & Hxs & _).
  unfold purchase_terms in Hxs.
  destruct (flat_mapM_In _ _ i Hxs Hi) as (r & Hr & _).
  destruct (flat_mapM_In _ _ s Hr Hs) as (r' & Hr' & _).
  apply bind_Ok in Hr'; destruct Hr' as (ms & Hms & Hr').
  rewrite getitem_Ok in Hms. rewrite (materials_get _ _ Hms) in Hm.
  destruct (mapM_In _ _ m Hr' Hm) as (e & He & _).
  apply bind_Ok in He; destruct He as (v & _ & He).
  apply bind_Ok in He; destruct He as (prices & Hp & He).
  apply bind_Ok in He; destruct He as (c & Hc & _).
  rewrite getitem_Ok in Hp, Hc. unfold has_price. now rewrite Hp, Hc.
Qed.

Lemma build_named_suppliers i :
  In i (keys demand) -> materials ceramic_composition i <> [] ->
  In "supplier 1" (keys costs) /\ In "supplier 3" (keys costs).
Proof.
  intros Hi Hne. destruct (nonempty_In Hne) as (m & Hm).
  destruct (build_composed Hbuild i Hi) as (ms & Hms).
  rewrite (materials_get _ _ Hms) in Hm. split.
  - destruct (restriction1_In Hbuild i Hi) as (c & Hc & _).
    unfold restriction1 in Hc.
    apply bind_Ok in Hc; destruct Hc as (ms' & Hms' & Hc).
    rewrite getitem_Ok, Hms in Hms'; injection Hms' as <-.
    apply bind_Ok in Hc; destruct Hc as (vs & Hvs & _).
    destruct (mapM_In _ _ m Hvs Hm) as (e & He & _).
    apply bind_Ok in He; destruct He as (v & Hv & _).
    rewrite getitem3_Ok in Hv. apply (x_family Hbuild) in Hv. tauto.
  - destruct (restriction2_In Hbuild i Hi) as (c & Hc & _).
    unfold restriction2 in Hc.
    apply bind_Ok in Hc; destruct Hc as (ms' & Hms' & Hc).
    rewrite getitem_Ok, Hms in Hms'; injection Hms' as <-.
    apply bind_Ok in Hc; destruct Hc as (vs & Hvs & _).
    destruct (mapM_In _ _ m Hvs Hm) as (e & He & _).
    apply bind_Ok in He; destruct He as (v & Hv & _).
    rewrite getitem3_Ok in Hv. apply (z_family Hbuild) in Hv. tauto.
Qed.

Lemma build_composition_demanded i :
  In i (keys ceramic_composition) ->
  materials ceramic_composition i <> [] -> keys costs <> [] ->
  In i (keys demand).
Proof.
  intros Hi Hne Hs. destruct (nonempty_In Hne) as (m & Hm).
  destruct (nonempty_In Hs) as (s & Hs').
  destruct (keys_get _ _ Hi) as (ms & Hms).
  rewrite (materials_get _ _ Hms) in Hm.
  pose proof (x_lookup_composition Hbuild i m s Hms Hm Hs') as Hv.
  rewrite getitem3_Ok in Hv. apply (x_family Hbuild) in Hv. tauto.
Qed.

Lemma build_well_formed : well_formed demand costs ceramic_composition.
Proof.
  split; [exact (build_composed Hbuild)|].
  split; [exact build_prices|].
  split; [exact build_named_suppliers | exact build_composition_demanded].
Qed.

End BuildNeeds.

Section BuildSucceeds.

Variable demand : dict Q.
Variable costs ceramic_composition : dict (dict Q).
Hypothesis Hwf : well_formed demand costs ceramic_composition.

Let xi : list key3 :=
  flat_map (fun i =>
    flat_map (fun s =>
      map (fun m => (i, s, m)) (materials ceramic_composition i))
    (keys costs))
  (keys demand).

Let zi : list key3 :=
  flat_map (fun i =>
    flat_map (fun m => map (fun s => (i, m, s)) (keys costs))
             (materials ceramic_composition i))
  (keys demand).

Let xd : dict3 LpVariable :=
  LpVariable_dicts x_name xi (Some 0%Q) None LpContinuous.
Let zd : dict3 LpVariable := LpVariable_dicts z_name zi None None LpBinary.
Let ppd : dict LpVariable :=
  LpVariable_dicts P_plus (keys demand) (Some 0%Q) None LpContinuous.
Let pmd : dict LpVariable :=
  LpVariable_dicts P_minus (keys demand) (Some 0%Q) None LpContinuous.

Lemma wf_composed j :
  In j (keys demand) -> exists ms, get ceramic_composition j = Some ms.
Proof. destruct Hwf as (H & _). exact (H j). Qed.

Lemma wf_x_indices : x_indices demand costs ceramic_composition = Ok xi.
Proof. exact (@x_indices_composed demand costs ceramic_composition wf_composed). Qed.

Lemma wf_z_indices : z_indices demand costs ceramic_composition = Ok zi.
Proof.
  exact (@z_indices_composed_eq demand costs ceramic_composition wf_composed).
Qed.

Lemma wf_x_lookup i s m :
  In i (keys demand) -> In s (keys costs) ->
  In m (materials ceramic_composition i) ->
  getitem3 xd (i, s, m) = Ok (x_var i s m).
Proof.
  intros Hi Hs Hm. apply getitem3_Ok. unfold xd.
  apply (get3_dicts_In x_name xi (Some 0%Q) None LpContinuous (i, s, m)).
  apply (@x_indices_iff demand costs ceramic_composition wf_composed
           xi i s m wf_x_indices). auto.
Qed.

Lemma wf_z_lookup i m s :
  In i (keys demand) -> In s (keys costs) ->
  In m (materials ceramic_composition i) ->
  getitem3 zd (i, m, s) = Ok (z_var i m s).
Proof.
  intros Hi Hs Hm. apply getitem3_Ok. unfold zd.
  apply (get3_dicts_In z_name zi None None LpBinary (i, m, s)).
  apply (@z_indices_iff demand costs ceramic_composition wf_composed
           zi i m s wf_z_indices). auto.
Qed.

Lemma wf_objective :
  exists obj,
    objective_function demand costs ceramic_composition xd ppd pmd = Ok obj.
Proof.
  destruct Hwf as (_ & Hprice & _).
  assert (H1 : exists xs,
    purchase_terms demand costs ceramic_composition xd = Ok xs).
  { unfold purchase_terms. apply flat_mapM_total. intros i Hi.
    apply flat_mapM_total. intros s Hs.
    destruct (wf_composed i Hi) as (ms & Hms).
    unfold getitem at 1. rewrite Hms. cbn [bind].
    apply mapM_total. intros m Hm.
    rewrite <- (materials_get _ _ Hms) in Hm.
    rewrite (wf_x_lookup i s m Hi Hs Hm). cbn [bind].
    pose proof (Hprice i s m Hi Hs Hm) as Hp. unfold has_price in Hp.
    unfold getitem. destruct (get costs s) as [prices|]; [|discriminate].
    cbn [bind]. destruct (get prices m); [|discriminate].
    cbn [bind]. eauto. }
  assert (H2 : forall n,
    exists ps,
      penalty_terms demand
        (LpVariable_dicts n (keys demand) (Some 0%Q) None LpContinuous) = Ok ps).
  { intros n. unfold penalty_terms. apply mapM_total. intros i Hi.
    unfold getitem. rewrite (get_dicts_In _ _ _ _ _ _ Hi).
    cbn [bind]. eauto. }
  destruct H1 as (xs & Hxs). destruct (H2 P_plus) as (pp & Hpp).
  destruct (H2 P_minus) as (pm & Hpm).
  unfold objective_function, ppd, pmd. rewrite Hxs, Hpp, Hpm.
  cbn [bind]. eauto.
Qed.

Lemma wf_nonempty A (a : A) l : In a l -> l <> [].
Proof. destruct l; [contradiction | discriminate]. Qed.

Lemma wf_restriction3 i ms m :
  get ceramic_composition i = Some ms -> In m (keys ms) ->
  exists c, restriction3 costs ceramic_composition xd i m = Ok c.
Proof.
  intros Hms Hm. destruct Hwf as (_ & _ & _ & Hdem).
  assert (Hm' : In m (materials ceramic_composition i))
    by now rewrite (materials_get _ _ Hms).
  unfold restriction3.
  destruct (@mapM_total _ _
              (fun s => v <- getitem3 xd (i, s, m) ;; Ok (of_var v))
              (keys costs)) as (vs & Hvs).
  { intros s Hs.
    assert (Hi : In i (keys demand)).
    { apply Hdem; [eapply get_keys; eauto | | ];
        eapply wf_nonempty; eauto. }
    rewrite (wf_x_lookup i s m Hi Hs Hm'). cbn [bind]. eauto. }
  rewrite Hvs. cbn [bind]. unfold getitem at 1. rewrite Hms. cbn [bind].
  destruct (keys_get _ _ Hm) as (q & Hq). unfold getitem. rewrite Hq.
  cbn [bind]. eauto.
Qed.

Lemma wf_restrictions :
  exists cs,
    restrictions demand costs ceramic_composition xd ppd pmd zd = Ok cs.
Proof.
  destruct Hwf as (_ & _ & Hnamed & _).
  assert (H1 : exists c1,
    mapM (restriction1 ceramic_composition xd) (keys demand) = Ok c1).
  { apply mapM_total. intros i Hi. unfold restriction1.
    destruct (wf_composed i Hi) as (ms & Hms).
    unfold getitem. rewrite Hms. cbn [bind].
    destruct (@mapM_total _ _
                (fun m => v <- getitem3 xd (i, "supplier 1", m) ;;
                          Ok (of_var v)) (keys ms)) as (vs & Hvs).
    { intros m Hm. rewrite <- (materials_get _ _ Hms) in Hm.
      destruct (Hnamed i Hi (@wf_nonempty _ _ _ Hm)) as (Hs1 & _).
      rewrite (wf_x_lookup i "supplier 1" m Hi Hs1 Hm). cbn [bind]. eauto. }
    rewrite Hvs. cbn [bind]. eauto. }
  assert (H2 : exists c2,
    mapM (restriction2 ceramic_composition zd) (keys demand) = Ok c2).
  { apply mapM_total. intros i Hi. unfold restriction2.
    destruct (wf_composed i Hi) as (ms & Hms).
    unfold getitem. rewrite Hms. cbn [bind].
    destruct (@mapM_total _ _
                (fun m => v <- getitem3 zd (i, m, "supplier 3") ;;
                          Ok (of_var v)) (keys ms)) as (vs & Hvs).
    { intros m Hm. rewrite <- (materials_get _ _ Hms) in Hm.
      destruct (Hnamed i Hi (@wf_nonempty _ _ _ Hm)) as (_ & Hs3).
      rewrite (wf_z_lookup i m "supplier 3" Hi Hs3 Hm). cbn [bind]. eauto. }
    rewrite Hvs. cbn [bind]. eauto. }
  assert (H3 : exists c3,
    flat_mapM (fun i =>
        ms <- getitem ceramic_composition i ;;
        mapM (restriction3 costs ceramic_composition xd i) (keys ms))
      (keys ceramic_composition) = Ok c3).
  { apply flat_mapM_total. intros i Hi.
    destruct (keys_get _ _ Hi) as (ms & Hms).
    unfold getitem. rewrite Hms. cbn [bind].
    apply mapM_total. intros m Hm. now apply wf_restriction3 with (ms := ms). }
  assert (H4 : exists c4,
    mapM (restriction4 demand costs ceramic_composition xd ppd pmd)
         (keys demand) = Ok c4).
  { apply mapM_total. intros i Hi. unfold restriction4.
    destruct (wf_composed i Hi) as (ms & Hms).
    destruct (@flat_mapM_total _ _
                (fun s => ms <- getitem ceramic_composition i ;;
                          mapM (fun m => v <- getitem3 xd (i, s, m) ;;
                                         Ok (of_var v)) (keys ms))
                (keys costs)) as (vs & Hvs).
    { intros s Hs. unfold getitem. rewrite Hms. cbn [bind].
      apply mapM_total. intros m Hm.
      rewrite <- (materials_get _ _ Hms) in Hm.
      rewrite (wf_x_lookup i s m Hi Hs Hm). cbn [bind]. eauto. }
    rewrite Hvs. cbn [bind].
    destruct (keys_get _ _ Hi) as (d & Hd).
    unfold getitem, ppd, pmd. rewrite Hd. cbn [bind].
    rewrite !(get_dicts_In _ _ _ _ _ _ Hi). cbn [bind]. eauto. }
  assert (H5 : exists c5,
    flat_mapM (fun i =>
        ms <- getitem ceramic_composition i ;;
        flat_mapM (fun m =>
            one <- restriction5_one costs zd i m ;;
            links <- mapM (restriction5_link ceramic_composition xd zd i m)
                          (keys costs) ;;
            Ok (one :: links))
          (keys ms))
      (keys demand) = Ok c5).
  { apply flat_mapM_total. intros i Hi.
    destruct (wf_composed i Hi) as (ms & Hms).
    unfold getitem at 1. rewrite Hms. cbn [bind].
    apply flat_mapM_total. intros m Hm.
    assert (Hm' : In m (materials ceramic_composition i))
      by now rewrite (materials_get _ _ Hms).
    unfold restriction5_one.
    destruct (@mapM_total _ _
                (fun s => v <- getitem3 zd (i, m, s) ;; Ok (of_var v))
                (keys costs)) as (vs & Hvs).
    { intros s Hs. rewrite (wf_z_lookup i m s Hi Hs Hm'). cbn [bind]. eauto. }
    rewrite Hvs. cbn [bind].
    destruct (@mapM_total _ _
                (restriction5_link ceramic_composition xd zd i m)
                (keys costs)) as (links & Hlinks).
    { intros s Hs. unfold restriction5_link.
      rewrite (wf_x_lookup i s m Hi Hs Hm'), (wf_z_lookup i m s Hi Hs Hm').
      cbn [bind]. unfold getitem at 1. rewrite Hms. cbn [bind].
      destruct (keys_get _ _ Hm) as (q & Hq). unfold getitem. rewrite Hq.
      cbn [bind]. eauto. }
    rewrite Hlinks. cbn [bind]. eauto. }
  destruct H1 as (c1 & H1). destruct H2 as (c2 & H2).
  destruct H3 as (c3 & H3). destruct H4 as (c4 & H4).
  destruct H5 as (c5 & H5).
  unfold restrictions. rewrite H1, H2, H3, H4, H5. cbn [bind]. eauto.
Qed.

Lemma wf_build : exists mdl, build demand costs ceramic_composition = Ok mdl.
Proof.
  destruct wf_objective as (obj & Hobj).
  destruct wf_restrictions as (cs & Hcs).
  unfold build. rewrite wf_x_indices. cbn [bind].
  rewrite wf_z_indices. cbn [bind]. cbv zeta.
  fold xd ppd pmd zd. rewrite Hobj. cbn [bind]. rewrite Hcs. cbn [bind].
  eauto.
Qed.

End BuildSucceeds.

(** X2: the build returns a model exactly when the tables fit together:
    every implant of the demand table has a composition, every price read
    by the objective is quoted, the suppliers named on lines 59 and 63 are
    in the price table (when some demanded implant has a powder), and every
    implant of the composition table that has a powder is demanded (when
    there is a supplier).  Otherwise a subscript raises. *)
Theorem build_succeeds_iff
    (demand : dict Q) (costs ceramic_composition : dict (dict Q)) :
  (exists mdl, build demand costs ceramic_composition = Ok mdl) <->
  well_formed demand costs ceramic_composition.
Proof.
  split.
  - intros (mdl & Hb). exact (build_well_formed Hb).
  - apply wf_build.
Qed.

(** ** Line 42 and 49: an implant without a composition *)

Lemma flat_mapM_first_Err A B (f : A -> result (list B)) l1 a l2 e :
  (forall a', In a' l1 -> exists r, f a' = Ok r) ->
  f a = Err e ->
  flat_mapM f (l1 ++ a :: l2) = Err e.
Proof.
  induction l1 as [|a0 l1 IH]; simpl; intros Hok Hf.
  - rewrite Hf. reflexivity.
  - destruct (Hok a0) as (r & Hr); auto. rewrite Hr. cbn [bind].
    rewrite IH; auto.
Qed.

(** X3: when an implant of the demand table has no entry in the composition
    table, and all the implants before it have one, the build raises
    [KeyError] with the name of that implant, whatever the rest of the
    tables; nothing is solved or printed. *)
Theorem missing_composition_is_KeyError
    (before after : dict Q) (i : string) (d : Q)
    (costs ceramic_composition : dict (dict Q)) :
  (forall j, In j (keys before) ->
     exists ms, get ceramic_composition j = Some ms) ->
  get ceramic_composition i = None ->
  build (before ++ (i, d) :: after) costs ceramic_composition =
    Err (KeyError (KStr i)) /\
  forall solver,
    script (before ++ (i, d) :: after) costs ceramic_composition solver =
    ([], Err (KeyError (KStr i))).
Proof.
  intros Hbefore Hnone.
  assert (Hkeys : keys (before ++ (i, d) :: after) =
                  keys before ++ i :: keys after).
  { unfold keys. rewrite map_app. reflexivity. }
  assert (Hz : z_indices (before ++ (i, d) :: after) costs ceramic_composition
               = Err (KeyError (KStr i))).
  { unfold z_indices. rewrite Hkeys. apply flat_mapM_first_Err.
    - intros j Hj. destruct (Hbefore j Hj) as (ms & Hms).
      unfold getitem. rewrite Hms. cbn [bind]. eauto.
    - unfold getitem. rewrite Hnone. reflexivity. }
  assert (Hb : build (before ++ (i, d) :: after) costs ceramic_composition =
               Err (KeyError (KStr i))).
  { destruct (keys costs) as [|s0 rest] eqn:Hk.
    - assert (Hx : exists xi,
        x_indices (before ++ (i, d) :: after) costs ceramic_composition
        = Ok xi).
      { unfold x_indices. rewrite Hk. apply flat_mapM_total.
        intros j _. simpl. eauto. }
      destruct Hx as (xi & Hx). unfold build. rewrite Hx. cbn [bind].
      cbv zeta. rewrite Hz. reflexivity.
    - assert (Hx :
        x_indices (before ++ (i, d) :: after) costs ceramic_composition
        = Err (KeyError (KStr i))).
      { unfold x_indices. rewrite Hkeys, Hk. apply flat_mapM_first_Err.
        + intros j Hj. destruct (Hbefore j Hj) as (ms & Hms).
          apply flat_mapM_total. intros s _.
          unfold getitem. rewrite Hms. cbn [bind]. eauto.
        + simpl. unfold getitem. rewrite Hnone. reflexivity. }
      unfold build. rewrite Hx. reflexivity. }
  split; [exact Hb|].
  intros solver. unfold script. rewrite Hb. reflexivity.
Qed.

Lemma missing_composition_is_KeyError_witness :
  (forall j, In j (keys [("A1", 7%Q)]) ->
     exists ms, get ceramic_composition j = Some ms) /\
  get ceramic_composition "E1" = None /\
  build ([("A1", 7%Q)] ++ ("E1", 4%Q) :: [("A2", 18%Q)])
        costs ceramic_composition = Err (KeyError (KStr "E1")).
Proof.
  assert (H : forall j, In j (keys [("A1", 7%Q)]) ->
            exists ms, get ceramic_composition j = Some ms).
  { intros j [<-|[]]. eexists; reflexivity. }
  split; [exact H|]. split; [reflexivity|].
  exact (proj1 (@missing_composition_is_KeyError
                  [("A1", 7%Q)] [("A2", 18%Q)] "E1" 4%Q
                  costs ceramic_composition H eq_refl)).
Defined.

(** ** Lines 58-79: the constraints, all of them *)

(** X4: the constraints of the built model are those of the five loops and
    no other: a constraint is in the model exactly when it is one of line
    59 or 63 or 72 for an implant of the demand table, one of line 68 for
    an implant of the composition table and a powder of it, or one of line
    77 or 79 for an implant of the demand table, a powder of it and, for
    line 79, a supplier. *)
Theorem constraints_are_the_restrictions
    (demand : dict Q) (costs ceramic_composition : dict (dict Q))
    (mdl : model) (c : LpConstraint) :
  build demand costs ceramic_composition = Ok mdl ->
  (In c (constraints (prob mdl)) <->
   (exists i, In i (keys demand) /\
      restriction1 ceramic_composition (x mdl) i = Ok c) \/
   (exists i, In i (keys demand) /\
      restriction2 ceramic_composition (z mdl) i = Ok c) \/
   (exists i m, In i (keys ceramic_composition) /\
      In m (materials ceramic_composition i) /\
      restriction3 costs ceramic_composition (x mdl) i m = Ok c) \/
   (exists i, In i (keys demand) /\
      restriction4 demand costs ceramic_composition
        (x mdl) (p_plus mdl) (p_minus mdl) i = Ok c) \/
   (exists i m, In i (keys demand) /\
      In m (materials ceramic_composition i) /\
      restriction5_one costs (z mdl) i m = Ok c) \/
   (exists i m s, In i (keys demand) /\
      In m (materials ceramic_composition i) /\ In s (keys costs) /\
      restriction5_link ceramic_composition (x mdl) (z mdl) i m s = Ok c)).
Proof.
  intros Hb. split.
  - destruct (restrictions_inv Hb)
      as (c1 & c2 & c3 & c4 & c5 & H1 & H2 & H3 & H4 & H5 & ->).
    rewrite !in_app_iff. intros [H|[H|[H|[H|H]]]].
    + left. destruct (@mapM_In_inv _ _ _ _ _ _ H1 H) as (i & Hi & Hc). eauto.
    + right; left. destruct (@mapM_In_inv _ _ _ _ _ _ H2 H) as (i & Hi & Hc). eauto.
    + right; right; left.
      destruct (@flat_mapM_In_inv _ _ _ _ _ _ H3 H) as (i & r & Hi & Hr & Hin).
      apply bind_Ok in Hr; destruct Hr as (ms & Hms & Hr).
      rewrite getitem_Ok in Hms.
      destruct (@mapM_In_inv _ _ _ _ _ _ Hr Hin) as (m & Hm & Hc).
      exists i, m. rewrite (materials_get _ _ Hms). auto.
    + do 3 right; left.
      destruct (@mapM_In_inv _ _ _ _ _ _ H4 H) as (i & Hi & Hc). eauto.
    + do 4 right.
      destruct (@flat_mapM_In_inv _ _ _ _ _ _ H5 H) as (i & r & Hi & Hr & Hin).
      apply bind_Ok in Hr; destruct Hr as (ms & Hms & Hr).
      rewrite getitem_Ok in Hms.
      destruct (@flat_mapM_In_inv _ _ _ _ _ _ Hr Hin) as (m & r' & Hm & Hr' & Hin').
      apply bind_Ok in Hr'; destruct Hr' as (one & Hone & Hr').
      apply bind_Ok in Hr'; destruct Hr' as (links & Hlinks & Hr').
      injection Hr' as <-. destruct Hin' as [<-|Hin'].
      * left. exists i, m. rewrite (materials_get _ _ Hms). auto.
      * right. destruct (@mapM_In_inv _ _ _ _ _ _ Hlinks Hin') as (s & Hs & Hc).
        exists i, m, s. rewrite (materials_get _ _ Hms). auto.
  - intros [(i & Hi & Hc)|[(i & Hi & Hc)|[(i & m & Hi & Hm & Hc)|
            [(i & Hi & Hc)|[(i & m & Hi & Hm & Hc)|
             (i & m & s & Hi & Hm & Hs & Hc)]]]]].
    + destruct (restriction1_In Hb i Hi) as (c' & Hc' & Hin). congruence.
    + destruct (restriction2_In Hb i Hi) as (c' & Hc' & Hin). congruence.
    + destruct (keys_get _ _ Hi) as (ms & Hms).
      rewrite (materials_get _ _ Hms) in Hm.
      destruct (restriction3_In Hb i m Hms Hm) as (c' & Hc' & Hin).
      congruence.
    + destruct (restriction4_In Hb i Hi) as (c' & Hc' & Hin). congruence.
    + destruct (build_composed Hb i Hi) as (ms & Hms).
      rewrite (materials_get _ _ Hms) in Hm.
      destruct (restriction5_In Hb i m Hi Hms Hm) as (c' & Hc' & Hin & _).
      congruence.
    + destruct (build_composed Hb i Hi) as (ms & Hms).
      rewrite (materials_get _ _ Hms) in Hm.
      destruct (restriction5_In Hb i m Hi Hms Hm) as (_ & _ & _ & Hlinks).
      destruct (Hlinks s Hs) as (c' & Hc' & Hin). congruence.
Qed.

Lemma constraints_are_the_restrictions_witness :
  build demand costs ceramic_composition = Ok costmin /\
  In (mkConstraint (of_var (x_var "D4" "supplier 2" "gray")) LpConstraintLE
        (scale 9 (of_var (z_var "D4" "gray" "supplier 2"))))
     (constraints (prob costmin)).
Proof.
  split; [exact costmin_built|].
  apply (proj2 (@constraints_are_the_restrictions
                  demand costs ceramic_composition costmin _ costmin_built)).
  do 5 right. exists "D4", "gray", "supplier 2".
  split; [simpl; tauto|]. split; [simpl; tauto|]. split; [simpl; tauto|].
  vm_compute. reflexivity.
Defined.

Lemma list_sum_const A (l : list A) (k : nat) :
  list_sum (map (fun _ => k) l) = (length l * k)%nat.
Proof.
  induction l as [|a l IH]; simpl; [reflexivity | now rewrite IH].
Qed.

Lemma flat_mapM_length A B (f : A -> result (list B)) (g : A -> nat) l bs :
  (forall a r, In a l -> f a = Ok r -> length r = g a) ->
  flat_mapM f l = Ok bs -> length bs = list_sum (map g l).
Proof.
  revert bs; induction l as [|a0 l IH]; simpl; intros bs Hg H.
  - now injection H as <-.
  - apply bind_Ok in H; destruct H as (r & Hr & H).
    apply bind_Ok in H; destruct H as (bs' & Hbs' & H).
    injection H as <-. rewrite length_app.
    rewrite (Hg a0 r), (IH bs'); auto.
Qed.

(** X5: the size of the built model.  It has three constraints for every
    implant of the demand table (lines 59, 63, 72), one for every powder of
    every implant of the composition table (line 68) and, for every powder
    of every implant of the demand table, one plus one for each supplier
    (lines 77 and 79). *)
Theorem number_of_constraints
    (demand : dict Q) (costs ceramic_composition : dict (dict Q))
    (mdl : model) :
  build demand costs ceramic_composition = Ok mdl ->
  length (constraints (prob mdl)) =
  (3 * length demand
   + list_sum (map (fun i => length (materials ceramic_composition i))
                   (keys ceramic_composition))
   + list_sum (map (fun i => length (materials ceramic_composition i)
                             * (1 + length costs))
                   (keys demand)))%nat.
Proof.
  intros Hb.
  destruct (restrictions_inv Hb)
    as (c1 & c2 & c3 & c4 & c5 & H1 & H2 & H3 & H4 & H5 & ->).
  assert (L1 : length c1 = length (keys demand))
    by (eapply mapM_length; exact H1).
  assert (L2 : length c2 = length (keys demand))
    by (eapply mapM_length; exact H2).
  assert (L4 : length c4 = length (keys demand))
    by (eapply mapM_length; exact H4).
  assert (L3 : length c3 =
    list_sum (map (fun i => length (materials ceramic_composition i))
                  (keys ceramic_composition))).
  { eapply flat_mapM_length; [|exact H3]. intros i r _ Hr.
    apply bind_Ok in Hr; destruct Hr as (ms & Hms & Hr).
    rewrite getitem_Ok in Hms. rewrite (materials_get _ _ Hms).
    eapply mapM_length; exact Hr. }
  assert (L5 : length c5 =
    list_sum (map (fun i => (length (materials ceramic_composition i)
                             * (1 + length costs))%nat)
                  (keys demand))).
  { eapply flat_mapM_length; [|exact H5]. intros i r _ Hr.
    apply bind_Ok in Hr; destruct Hr as (ms & Hms & Hr).
    rewrite getitem_Ok in Hms. rewrite (materials_get _ _ Hms).
    assert (L : length r =
      list_sum (map (fun _ : string => (1 + length costs)%nat) (keys ms))).
    { eapply flat_mapM_length; [|exact Hr]. intros m r' _ Hr'.
      apply bind_Ok in Hr'; destruct Hr' as (one & _ & Hr').
      apply bind_Ok in Hr'; destruct Hr' as (links & Hlinks & Hr').
      injection Hr' as <-. simpl. f_equal.
      assert (L : length links = length (keys costs))
        by (eapply mapM_length; exact Hlinks).
      rewrite L. unfold keys. apply length_map. }
    rewrite L. apply list_sum_const. }
  rewrite !length_app, L1, L2, L3, L4, L5.
  unfold keys at 1 2 4. rewrite !length_map. lia.
Qed.

Lemma number_of_constraints_witness :
  build demand costs ceramic_composition = Ok costmin /\
  length (constraints (prob costmin)) = 368%nat.
Proof.
  split; [exact costmin_built|].
  rewrite (@number_of_constraints demand costs ceramic_composition costmin
             costmin_built).
  reflexivity.
Defined.

(** ** The variables of the model *)

Lemma expr_vars_add e1 e2 :
  expr_vars (add e1 e2) = expr_vars e1 ++ expr_vars e2.
Proof. unfold expr_vars; simpl. apply map_app. Qed.

Lemma expr_vars_scale c e v :
  In v (expr_vars (scale c e)) -> In v (expr_vars e).
Proof.
  unfold expr_vars, scale. destruct (Qeq_bool c 0); simpl; [tauto|].
  now rewrite map_map.
Qed.

Lemma expr_vars_lpSum l : expr_vars (lpSum l) = flat_map expr_vars l.
Proof.
  unfold expr_vars, lpSum. rewrite terms_fold_add; simpl.
  induction l as [|e l IH]; simpl; [reflexivity|].
  now rewrite map_app, IH.
Qed.

Lemma lpSum_vars (P : LpVariable -> Prop) l :
  (forall e, In e l -> forall v, In v (expr_vars e) -> P v) ->
  forall v, In v (expr_vars (lpSum l)) -> P v.
Proof.
  intros H v Hv. rewrite expr_vars_lpSum in Hv.
  apply in_flat_map in Hv. destruct Hv as (e & He & Hv). eauto.
Qed.

Lemma family_x i s m : in_family (x_var i s m).
Proof. left. eauto. Qed.

Lemma family_z i m s : in_family (z_var i m s).
Proof. right; left. eauto. Qed.

Lemma family_p_plus i : in_family (p_plus_var i).
Proof. right; right; left. eauto. Qed.

Lemma family_p_minus i : in_family (p_minus_var i).
Proof. right; right; right. eauto. Qed.

Lemma map_vars_family A (f : A -> LpVariable) l v :
  (forall a, in_family (f a)) -> In v (map f l) -> in_family v.
Proof.
  intros H Hv. apply in_map_iff in Hv. destruct Hv as (a & <- & _). apply H.
Qed.

Section ModelVariables.

Context {demand : dict Q} {costs ceramic_composition : dict (dict Q)}.
Context {mdl : model}.
Hypothesis Hbuild : build demand costs ceramic_composition = Ok mdl.

(** Where a constraint of the model comes from. *)
Lemma constraint_origin c :
  In c (constraints (prob mdl)) ->
  (exists i, In i (keys demand) /\
     restriction1 ceramic_composition (x mdl) i = Ok c) \/
  (exists i, In i (keys demand) /\
     restriction2 ceramic_composition (z mdl) i = Ok c) \/
  (exists i m, In i (keys ceramic_composition) /\
     In m (materials ceramic_composition i) /\
     restriction3 costs ceramic_composition (x mdl) i m = Ok c) \/
  (exists i, In i (keys demand) /\
     restriction4 demand costs ceramic_composition
       (x mdl) (p_plus mdl) (p_minus mdl) i = Ok c) \/
  (exists i m, In i (keys demand) /\
     In m (materials ceramic_composition i) /\
     restriction5_one costs (z mdl) i m = Ok c) \/
  (exists i m s, In i (keys demand) /\
     In m (materials ceramic_composition i) /\ In s (keys costs) /\
     restriction5_link ceramic_composition (x mdl) (z mdl) i m s = Ok c).
Proof.
  destruct (restrictions_inv Hbuild)
    as (c1 & c2 & c3 & c4 & c5 & H1 & H2 & H3 & H4 & H5 & ->).
  rewrite !in_app_iff. intros [H|[H|[H|[H|H]]]].
  - left. destruct (@mapM_In_inv _ _ _ _ _ _ H1 H) as (i & Hi & Hc). eauto.
  - right; left.
    destruct (@mapM_In_inv _ _ _ _ _ _ H2 H) as (i & Hi & Hc). eauto.
  - right; right; left.
    destruct (@flat_mapM_In_inv _ _ _ _ _ _ H3 H) as (i & r & Hi & Hr & Hin).
    apply bind_Ok in Hr; destruct Hr as (ms & Hms & Hr).
    rewrite getitem_Ok in Hms.
    destruct (@mapM_In_inv _ _ _ _ _ _ Hr Hin) as (m & Hm & Hc).
    exists i, m. rewrite (materials_get _ _ Hms). auto.
  - do 3 right; left.
    destruct (@mapM_In_inv _ _ _ _ _ _ H4 H) as (i & Hi & Hc). eauto.
  - do 4 right.
    destruct (@flat_mapM_In_inv _ _ _ _ _ _ H5 H) as (i & r & Hi & Hr & Hin).
    apply bind_Ok in Hr; destruct Hr as (ms & Hms & Hr).
    rewrite getitem_Ok in Hms.
    destruct (@flat_mapM_In_inv _ _ _ _ _ _ Hr Hin)
      as (m & r' & Hm & Hr' & Hin').
    apply bind_Ok in Hr'; destruct Hr' as (one & Hone & Hr').
    apply bind_Ok in Hr'; destruct Hr' as (links & Hlinks & Hr').
    injection Hr' as <-. destruct Hin' as [<-|Hin'].
    + left. exists i, m. rewrite (materials_get _ _ Hms). auto.
    + right. destruct (@mapM_In_inv _ _ _ _ _ _ Hlinks Hin') as (s & Hs & Hc).
      exists i, m, s. rewrite (materials_get _ _ Hms). auto.
Qed.

Lemma constraint_vars_family c v :
  In c (constraints (prob mdl)) -> In v (constraint_vars c) -> in_family v.
Proof.
  intros Hc Hv.
  destruct (constraint_origin c Hc)
    as [(i & _ & H)|[(i & _ & H)|[(i & m & _ & _ & H)|
        [(i & _ & H)|[(i & m & _ & _ & H)|(i & m & s & _ & _ & _ & H)]]]]].
  - destruct (restriction1_shape Hbuild _ H) as (ms & _ & ->).
    unfold constraint_vars in Hv; simpl in Hv.
    rewrite expr_vars_lpSum_vars in Hv. unfold expr_vars in Hv; simpl in Hv.
    rewrite app_nil_r in Hv.
    eapply map_vars_family; [|exact Hv]. intros; apply family_x.
  - destruct (restriction2_shape Hbuild _ H) as (ms & _ & ->).
    unfold constraint_vars in Hv; simpl in Hv.
    rewrite expr_vars_lpSum_vars in Hv. unfold expr_vars in Hv; simpl in Hv.
    rewrite app_nil_r in Hv.
    eapply map_vars_family; [|exact Hv]. intros; apply family_z.
  - destruct (restriction3_shape Hbuild _ _ H) as (ms & q & _ & _ & ->).
    unfold constraint_vars in Hv; simpl in Hv.
    rewrite expr_vars_lpSum_vars in Hv. unfold expr_vars in Hv; simpl in Hv.
    rewrite app_nil_r in Hv.
    eapply map_vars_family; [|exact Hv]. intros; apply family_x.
  - destruct (restriction4_shape Hbuild _ H) as (d & _ & ->).
    unfold constraint_vars in Hv; simpl in Hv.
    apply in_app_or in Hv. destruct Hv as [Hv|Hv].
    + revert v Hv. apply lpSum_vars. intros e He v Hv.
      apply in_flat_map in He. destruct He as (s & _ & He).
      apply in_map_iff in He. destruct He as (m & <- & _).
      destruct Hv as [<-|[]]. apply family_x.
    + unfold expr_vars in Hv; simpl in Hv.
      destruct Hv as [<-|[<-|[]]]; [apply family_p_plus|apply family_p_minus].
  - pose proof (restriction5_one_shape Hbuild _ _ H) as ->.
    unfold constraint_vars in Hv; simpl in Hv.
    rewrite expr_vars_lpSum_vars in Hv. unfold expr_vars in Hv; simpl in Hv.
    rewrite app_nil_r in Hv.
    eapply map_vars_family; [|exact Hv]. intros; apply family_z.
  - destruct (restriction5_link_shape Hbuild _ _ _ H)
      as (ms & q & _ & _ & ->).
    unfold constraint_vars in Hv; simpl in Hv.
    destruct Hv as [<-|Hv]; [apply family_x|].
    apply expr_vars_scale in Hv.
    destruct Hv as [<-|[]]. apply family_z.
Qed.

Lemma objective_vars_family v :
  In v (expr_vars (objective (prob mdl))) -> in_family v.
Proof.
  rewrite (objective_shape Hbuild).
  rewrite !expr_vars_add, !in_app_iff.
  intros [[Hv|Hv]|Hv].
  - revert v Hv. apply lpSum_vars. intros e He v Hv.
    apply in_flat_map in He. destruct He as (i & _ & He).
    apply in_flat_map in He. destruct He as (s & _ & He).
    apply in_map_iff in He. destruct He as (m & <- & _).
    apply expr_vars_scale in Hv. destruct Hv as [<-|[]]. apply family_x.
  - apply expr_vars_scale in Hv. rewrite expr_vars_lpSum_vars in Hv.
    eapply map_vars_family; [|exact Hv]. intros; apply family_p_plus.
  - apply expr_vars_scale in Hv. rewrite expr_vars_lpSum_vars in Hv.
    eapply map_vars_family; [|exact Hv]. intros; apply family_p_minus.
Qed.

End ModelVariables.

(** X6: every variable of the built model belongs to one of the four
    families.  So each has 0 for lower bound; a continuous one (a purchase
    or a penalty) has no upper bound of its own, and a binary one (an
    indicator) has 1. *)
Theorem model_variables
    (demand : dict Q) (costs ceramic_composition : dict (dict Q))
    (mdl : model) (v : LpVariable) :
  build demand costs ceramic_composition = Ok mdl ->
  In v (variables (prob mdl)) ->
  in_family v /\
  lowBound v = Some 0%Q /\
  (cat v = LpContinuous -> upBound v = None /\ is_indicator (name v) = false) /\
  (cat v = LpBinary -> upBound v = Some 1%Q /\ is_indicator (name v) = true).
Proof.
  intros Hb Hv.
  assert (Hf : in_family v).
  { unfold variables in Hv. apply in_app_or in Hv. destruct Hv as [Hv|Hv].
    - exact (objective_vars_family Hb v Hv).
    - apply in_flat_map in Hv. destruct Hv as (c & Hc & Hv).
      exact (constraint_vars_family Hb c v Hc Hv). }
  split; [exact Hf|].
  destruct Hf as [(i & s & m & ->)|[(i & m & s & ->)|[(i & ->)|(i & ->)]]];
    simpl; repeat split; auto; discriminate.
Qed.

Lemma model_variables_witness :
  build demand costs ceramic_composition = Ok costmin /\
  In (x_var "C3" "supplier 2" "yellow") (variables (prob costmin)) /\
  upBound (x_var "C3" "supplier 2" "yellow") = None.
Proof.
  assert (Hv : In (x_var "C3" "supplier 2" "yellow") (variables (prob costmin))).
  { apply (constraint_vars_variables (prob costmin)
             (mkConstraint (of_var (x_var "C3" "supplier 2" "yellow"))
                LpConstraintLE
                (scale 100 (of_var (z_var "C3" "yellow" "supplier 2"))))).
    - vm_compute. repeat (first [left; reflexivity | right]).
    - simpl. auto. }
  split; [exact costmin_built|]. split; [exact Hv|].
  apply (@model_variables demand costs ceramic_composition costmin
           (x_var "C3" "supplier 2" "yellow") costmin_built Hv).
  reflexivity.
Defined.

(** ** What the constraints give together *)

Lemma sumQ_at (f : string -> Q) s l :
  (forall s', In s' l -> s' <> s -> (f s' == 0)%Q) ->
  (sumQ (map f l) == occurrences s l * f s)%Q.
Proof.
  unfold occurrences.
  induction l as [|s0 l IH]; simpl; intros H; [ring|].
  rewrite IH by auto.
  destruct (String.eqb_spec s0 s) as [->|Hne]; [ring|].
  rewrite (H s0); auto. ring.
Qed.

Lemma sumQ_le A (f g : A -> Q) l :
  (forall k, In k l -> (f k <= g k)%Q) ->
  (sumQ (map f l) <= sumQ (map g l))%Q.
Proof.
  induction l as [|k l IH]; simpl; intros H; [lra|].
  assert (f k <= g k)%Q by (apply H; auto).
  assert (sumQ (map f l) <= sumQ (map g l))%Q by (apply IH; auto). lra.
Qed.

Lemma sumQ_plus A (f g : A -> Q) l :
  (sumQ (map (fun k => f k + g k) l) == sumQ (map f l) + sumQ (map g l))%Q.
Proof.
  induction l as [|k l IH]; simpl; [ring | rewrite IH; ring].
Qed.

Lemma sumQ_zeros A (l : list A) : (sumQ (map (fun _ => 0) l) == 0)%Q.
Proof.
  induction l as [|k l IH]; simpl; [reflexivity | rewrite IH; ring].
Qed.

Lemma sumQ_swap A B (f : A -> B -> Q) la lb :
  (sumQ (map (fun a => sumQ (map (fun b => f a b) lb)) la) ==
   sumQ (map (fun b => sumQ (map (fun a => f a b) la)) lb))%Q.
Proof.
  induction la as [|a la IH]; simpl.
  - now rewrite sumQ_zeros.
  - rewrite IH, <- sumQ_plus. reflexivity.
Qed.

Section Feasible.

Context {demand : dict Q} {costs ceramic_composition : dict (dict Q)}.
Context {mdl : model}.
Hypothesis Hbuild : build demand costs ceramic_composition = Ok mdl.
Variable a : assignment.
Hypothesis Hfeasible : feasible (prob mdl) a.

Lemma feasible_indicators i ms m :
  In i (keys demand) -> get ceramic_composition i = Some ms ->
  In m (keys ms) ->
  (sumQ (map (fun s => a (Z i m s)) (keys costs)) == 1)%Q /\
  forall s, In s (keys costs) -> (a (Z i m s) == 0 \/ a (Z i m s) == 1)%Q.
Proof.
  intros Hd Hi Hm. destruct Hfeasible as [Hall Hdom].
  destruct (restriction5_In Hbuild i m Hd Hi Hm) as (c & Hc & Hin & _).
  pose proof (restriction5_one_shape Hbuild _ _ Hc) as ->.
  pose proof (Hall _ Hin) as Hsat. unfold satisfies in Hsat; simpl in Hsat.
  rewrite value_of_lpSum_vars, value_of_of_num in Hsat. simpl in Hsat.
  split; [exact Hsat|]. intros s Hs.
  assert (Hv : In (z_var i m s) (variables (prob mdl))).
  { eapply constraint_vars_variables; [exact Hin|].
    unfold constraint_vars; simpl. rewrite expr_vars_lpSum_vars.
    apply in_or_app; left. now apply (in_map (fun s => z_var i m s)). }
  apply Hdom in Hv. destruct Hv as (_ & _ & Hv). exact Hv.
Qed.

Lemma feasible_link i ms m q s :
  In i (keys demand) -> get ceramic_composition i = Some ms ->
  get ms m = Some q -> In s (keys costs) ->
  (0 <= a (X i s m))%Q /\ (a (X i s m) <= a (Z i m s) * q)%Q.
Proof.
  intros Hd Hi Hm Hs. destruct Hfeasible as [Hall Hdom].
  destruct (restriction5_In Hbuild i m Hd Hi (get_keys _ _ Hm))
    as (_ & _ & _ & Hlinks).
  destruct (Hlinks s Hs) as (c & Hc & Hin).
  destruct (restriction5_link_shape Hbuild _ _ _ Hc)
    as (ms' & q' & Hi' & Hm' & ->).
  rewrite Hi in Hi'; injection Hi' as <-.
  rewrite Hm in Hm'; injection Hm' as <-.
  pose proof (Hall _ Hin) as Hsat. unfold satisfies in Hsat; simpl in Hsat.
  rewrite value_of_scale, !value_of_of_var in Hsat. simpl in Hsat.
  assert (Hv : In (x_var i s m) (variables (prob mdl))).
  { eapply constraint_vars_variables; [exact Hin | simpl; auto]. }
  apply Hdom in Hv. destruct Hv as (Hv & _). simpl in Hv.
  split; [exact Hv | lra].
Qed.

Lemma feasible_requirement i ms m q :
  get ceramic_composition i = Some ms -> get ms m = Some q ->
  (sumQ (map (fun s => a (X i s m)) (keys costs)) == q)%Q.
Proof.
  intros Hi Hm. destruct Hfeasible as [Hall _].
  destruct (restriction3_In Hbuild i m Hi (get_keys _ _ Hm)) as (c & Hc & Hin).
  destruct (restriction3_shape Hbuild _ _ Hc) as (ms' & q' & Hi' & Hm' & ->).
  rewrite Hi in Hi'; injection Hi' as <-.
  rewrite Hm in Hm'; injection Hm' as <-.
  pose proof (Hall _ Hin) as Hsat. unfold satisfies in Hsat; simpl in Hsat.
  rewrite value_of_lpSum_vars, value_of_of_num in Hsat. exact Hsat.
Qed.

End Feasible.

(** X7: restrictions 3 and 5 together.  In a feasible assignment, each
    powder of each demanded implant is bought whole from one supplier: its
    indicator is 1 and its purchase is the required quantity, while every
    other supplier has indicator 0 and purchase 0. *)
Theorem single_sourcing
    (demand : dict Q) (costs ceramic_composition : dict (dict Q))
    (mdl : model) (a : assignment) (i m : string) (ms : dict Q) (q : Q) :
  build demand costs ceramic_composition = Ok mdl ->
  feasible (prob mdl) a ->
  In i (keys demand) ->
  get ceramic_composition i = Some ms ->
  get ms m = Some q ->
  exists s,
    In s (keys costs) /\
    (a (Z i m s) == 1)%Q /\ (a (X i s m) == q)%Q /\
    forall s', In s' (keys costs) -> s' <> s ->
      (a (Z i m s') == 0)%Q /\ (a (X i s' m) == 0)%Q.
Proof.
  intros Hb Hf Hd Hi Hm.
  destruct (feasible_indicators Hb Hf i m Hd Hi (get_keys _ _ Hm))
    as (Hsum & Hbin).
  destruct (one_hot (fun s => a (Z i m s)) (keys costs) Hbin Hsum)
    as (s & Hs & Hone & Hzero).
  assert (Hx0 : forall s', In s' (keys costs) -> s' <> s ->
            (a (X i s' m) == 0)%Q).
  { intros s' Hs' Hne.
    destruct (feasible_link Hb Hf i m s' Hd Hi Hm Hs') as (H0 & Hle).
    rewrite (Hzero s' Hs' Hne) in Hle. lra. }
  assert (Hocc : (occurrences s (keys costs) == 1)%Q).
  { pose proof (@sumQ_at (fun s => a (Z i m s)) s (keys costs) Hzero) as E.
    simpl in E. rewrite Hsum, Hone in E. lra. }
  exists s. split; [exact Hs|]. split; [exact Hone|]. split.
  - pose proof (@sumQ_at (fun s => a (X i s m)) s (keys costs) Hx0) as E.
    simpl in E. rewrite (feasible_requirement Hb Hf i m Hi Hm), Hocc in E.
    lra.
  - intros s' Hs' Hne. split; auto.
Qed.

Lemma single_sourcing_witness :
  build demand costs ceramic_composition = Ok costmin /\
  feasible (prob costmin) all_from_supplier_1 /\
  exists s,
    In s (keys costs) /\
    (all_from_supplier_1 (Z "B2" "gray" s) == 1)%Q /\
    (all_from_supplier_1 (X "B2" s "gray") == 10)%Q /\
    forall s', In s' (keys costs) -> s' <> s ->
      (all_from_supplier_1 (Z "B2" "gray" s') == 0)%Q /\
      (all_from_supplier_1 (X "B2" s' "gray") == 0)%Q.
Proof.
  assert (Hd : In "B2" (keys demand)) by (simpl; tauto).
  split; [exact costmin_built|]. split; [exact costmin_feasible|].
  exact (@single_sourcing demand costs ceramic_composition costmin
           all_from_supplier_1 "B2" "gray" (powders 2 88 0 10) 10%Q
           costmin_built costmin_feasible Hd eq_refl eq_refl).
Defined.

(** X8: restrictions 3 and 4 together.  In a feasible assignment the
    difference of the two penalties of a demanded implant is what its
    composition adds up to, less its demand: it is fixed by the tables and
    no choice of supplier changes it. *)
Theorem penalties_fixed_by_tables
    (demand : dict Q) (costs ceramic_composition : dict (dict Q))
    (mdl : model) (a : assignment) (i : string) (d : Q) (ms : dict Q) :
  build demand costs ceramic_composition = Ok mdl ->
  feasible (prob mdl) a ->
  get demand i = Some d ->
  get ceramic_composition i = Some ms ->
  (a (P_plus i) - a (P_minus i) ==
   sumQ (map (quantity ms) (keys ms)) - d)%Q.
Proof.
  intros Hb Hf Hd Hi.
  destruct (restriction4_In Hb i (get_keys _ _ Hd)) as (c & Hc & Hin).
  destruct (restriction4_shape Hb _ Hc) as (d' & Hd' & ->).
  rewrite Hd in Hd'; injection Hd' as <-.
  pose proof (proj1 Hf _ Hin) as Hsat.
  unfold satisfies in Hsat; simpl in Hsat.
  rewrite value_of_sub, value_of_add, value_of_of_num, !value_of_of_var
    in Hsat.
  rewrite value_of_lpSum, sumQ_map_flat_map in Hsat. simpl in Hsat.
  rewrite (materials_get _ _ Hi) in Hsat.
  assert (E : (sumQ (map (fun s =>
                 sumQ (map (value_of a)
                   (map (fun m => of_var (x_var i s m)) (keys ms))))
                 (keys costs)) ==
               sumQ (map (quantity ms) (keys ms)))%Q).
  { transitivity
      (sumQ (map (fun s => sumQ (map (fun m => a (X i s m)) (keys ms)))
                 (keys costs))).
    - apply sumQ_ext; intros s _. rewrite map_map.
      apply sumQ_ext; intros m _. apply value_of_of_var.
    - rewrite (sumQ_swap (fun s m => a (X i s m))).
      apply sumQ_ext; intros m Hm.
      destruct (keys_get _ _ Hm) as (q & Hq).
      unfold quantity. rewrite Hq.
      exact (feasible_requirement Hb Hf i m Hi Hq). }
  rewrite E in Hsat. lra.
Qed.

Lemma penalties_fixed_by_tables_witness :
  build demand costs ceramic_composition = Ok costmin /\
  feasible (prob costmin) all_from_supplier_1 /\
  (all_from_supplier_1 (P_plus "A1") - all_from_supplier_1 (P_minus "A1") ==
   100 - 7)%Q.
Proof.
  split; [exact costmin_built|]. split; [exact costmin_feasible|].
  exact (@penalties_fixed_by_tables demand costs ceramic_composition costmin
           all_from_supplier_1 "A1" 7%Q (powders 58 38 0 4)
           costmin_built costmin_feasible eq_refl eq_refl).
Defined.

(** X9: restrictions 1 and 5 together.  A demanded implant whose
    composition, of non-negative quantities, adds up to less than 1 makes
    the model infeasible: line 59 wants one unit from the first supplier
    and line 79 lets no purchase exceed the quantity required. *)
Theorem light_composition_infeasible
    (demand : dict Q) (costs ceramic_composition : dict (dict Q))
    (mdl : model) (i : string) (ms : dict Q) :
  build demand costs ceramic_composition = Ok mdl ->
  In i (keys demand) ->
  get ceramic_composition i = Some ms ->
  (forall m, In m (keys ms) -> (0 <= quantity ms m)%Q) ->
  (sumQ (map (quantity ms) (keys ms)) < 1)%Q ->
  forall a, ~ feasible (prob mdl) a.
Proof.
  intros Hb Hd Hi Hpos Hsmall a Hf.
  destruct (restriction1_In Hb i Hd) as (c1 & Hc1 & Hin1).
  destruct (restriction1_shape Hb _ Hc1) as (ms' & Hms' & ->).
  rewrite Hi in Hms'; injection Hms' as <-.
  pose proof (proj1 Hf _ Hin1) as Hfloor.
  unfold satisfies in Hfloor; simpl in Hfloor.
  rewrite value_of_lpSum_vars, value_of_of_num in Hfloor. simpl in Hfloor.
  assert (Hle : (sumQ (map (fun m => a (X i "supplier 1" m)) (keys ms)) <=
                 sumQ (map (quantity ms) (keys ms)))%Q).
  { apply sumQ_le. intros m Hm.
    assert (Hne : materials ceramic_composition i <> []).
    { rewrite (materials_get _ _ Hi). destruct (keys ms); [contradiction|].
      discriminate. }
    destruct (build_named_suppliers Hb i Hd Hne) as (Hs1 & _).
    destruct (keys_get _ _ Hm) as (q & Hq).
    destruct (feasible_link Hb Hf i m "supplier 1" Hd Hi Hq Hs1) as (_ & Hlink).
    destruct (feasible_indicators Hb Hf i m Hd Hi Hm) as (_ & Hbin).
    pose proof (Hpos m Hm) as Hq0. unfold quantity in *. rewrite Hq in *.
    destruct (Hbin _ Hs1) as [E|E]; rewrite E in Hlink; lra. }
  lra.
Qed.

Lemma light_composition_infeasible_witness :
  build demand_A1 costs composition_nothing = Ok nothing /\
  In "A1" (keys demand_A1) /\
  forall a, ~ feasible (prob nothing) a.
Proof.
  assert (Hb : build demand_A1 costs composition_nothing = Ok nothing)
    by (vm_compute; reflexivity).
  assert (Hd : In "A1" (keys demand_A1)) by (simpl; tauto).
  split; [exact Hb|]. split; [exact Hd|].
  apply (@light_composition_infeasible demand_A1 costs composition_nothing
           nothing "A1" (powders 0 0 0 0) Hb Hd eq_refl).
  - intros m Hm. simpl in Hm.
    repeat (destruct Hm as [<-|Hm]; [vm_compute; discriminate|]).
    contradiction.
  - reflexivity.
Defined.

(** ** Lines 104-115: the cells of the summary table *)

(** X10: a cell of the summary table.  When every supplier of the price
    table has a quantity that is a number at most 0 (a negative one does not
    count), no supplier is found and the cell is "0".  When suppliers with
    such quantities are followed by one whose quantity is above 0, the cell
    names that one, the first above 0 in the order of the price table, by
    the last character of its name; the suppliers after it are not looked
    at, so they need no variable nor value. *)
Theorem cell_is_first_positive_supplier
    (x : dict3 LpVariable) (sol : solution) (i m : string)
    (before : list string) :
  (forall s', In s' before ->
     exists q', value_at x sol i s' m = Some q' /\ (q' <= 0)%Q) ->
  supplier_cell x sol i m before = Ok "0" /\
  forall (s : string) (q : Q) (after : list string),
    value_at x sol i s m = Some q ->
    (0 < q)%Q ->
    supplier_cell x sol i m (before ++ s :: after) =
      (c <- last_char s ;; Ok ("supplier " ++ c)%string).
Proof.
  intros Hbefore.
  assert (Hstep : forall s' rest q',
    value_at x sol i s' m = Some q' ->
    supplier_cell x sol i m (s' :: rest) =
    if negb (Qle_bool q' 0)
    then (c <- last_char s' ;; Ok ("supplier " ++ c)%string)
    else supplier_cell x sol i m rest).
  { intros s' rest q' H. unfold value_at in H. simpl. unfold getitem3.
    destruct (get3 x (i, s', m)) as [v|]; [|discriminate].
    cbn [bind]. rewrite H. reflexivity. }
  induction before as [|s0 before IH]; simpl app.
  - split; [reflexivity|]. intros s q after Hs Hq.
    rewrite (Hstep s after q Hs).
    assert (E : Qle_bool q 0 = false).
    { destruct (Qle_bool q 0) eqn:E; [|reflexivity].
      apply Qle_bool_iff in E. lra. }
    rewrite E. reflexivity.
  - destruct (Hbefore s0 (or_introl eq_refl)) as (q0 & Hq0 & Hle).
    assert (E : Qle_bool q0 0 = true) by now apply Qle_bool_iff.
    destruct IH as (IH0 & IH1).
    { intros s' Hs'. apply Hbefore. now right. }
    split.
    + rewrite (Hstep s0 _ q0 Hq0), E. cbn [negb]. exact IH0.
    + intros s q after Hs Hq.
      rewrite (Hstep s0 _ q0 Hq0), E. cbn [negb]. now apply (IH1 s q).
Qed.

(** The cell of a powder that no supplier delivers, one of them holding a
    negative quantity: "0", over the whole price table. *)
Lemma cell_is_first_positive_supplier_witness :
  (forall s', In s' (keys costs) ->
     exists q', value_at (x costmin) (mkSolution LpStatusOptimal
                  (fun v => match v with
                            | X _ "supplier 1" _ => Some (-1)%Q
                            | X _ _ _ => Some 0%Q
                            | _ => None
                            end)) "A3" s' "pink" = Some q' /\ (q' <= 0)%Q) /\
  supplier_cell (x costmin)
    (mkSolution LpStatusOptimal
       (fun v => match v with
                 | X _ "supplier 1" _ => Some (-1)%Q
                 | X _ _ _ => Some 0%Q
                 | _ => None
                 end))
    "A3" "pink" (keys costs) = Ok "0" /\
  forall (s : string) (q : Q) (after : list string),
    value_at (x costmin)
      (mkSolution LpStatusOptimal
         (fun v => match v with
                   | X _ "supplier 1" _ => Some (-1)%Q
                   | X _ _ _ => Some 0%Q
                   | _ => None
                   end)) "A3" s "pink" = Some q ->
    (0 < q)%Q ->
    supplier_cell (x costmin)
      (mkSolution LpStatusOptimal
         (fun v => match v with
                   | X _ "supplier 1" _ => Some (-1)%Q
                   | X _ _ _ => Some 0%Q
                   | _ => None
                   end))
      "A3" "pink" (keys costs ++ s :: after) =
      (c <- last_char s ;; Ok ("supplier " ++ c)%string).
Proof.
  set (sol := mkSolution LpStatusOptimal
       (fun v => match v with
                 | X _ "supplier 1" _ => Some (-1)%Q
                 | X _ _ _ => Some 0%Q
                 | _ => None
                 end)).
  assert (H : forall s', In s' (keys costs) ->
     exists q', value_at (x costmin) sol "A3" s' "pink" = Some q' /\
                (q' <= 0)%Q).
  { intros s' Hs'. simpl in Hs'.
    destruct Hs' as [<-|[<-|[<-|[]]]].
    - exists (-1)%Q. split; [reflexivity | lra].
    - exists 0%Q. split; [reflexivity | lra].
    - exists 0%Q. split; [reflexivity | lra]. }
  split; [exact H|].
  exact (@cell_is_first_positive_supplier (x costmin) sol "A3" "pink"
           (keys costs) H).
Defined.

(** A cell with a negative quantity before a positive one, and the cell of
    no supplier at all. *)
Example cells_of_a_row :
  supplier_cell (x costmin)
    (mkSolution LpStatusOptimal
       (fun v => match v with
                 | X _ "supplier 1" _ => Some (-1)%Q
                 | X _ "supplier 2" _ => Some 58%Q
                 | _ => None
                 end))
    "A1" "white" (keys costs) = Ok "supplier 2" /\
  supplier_cell (x costmin) (mkSolution LpStatusOptimal (fun _ => None))
    "A1" "white" [] = Ok "0".
Proof. split; reflexivity. Qed.

(** X11: when the first supplier whose quantity is not a number at most 0
    has a variable without a value, the cell cannot be computed: comparing
    [None] with 0 raises [TypeError]. *)
Theorem cell_without_value_is_TypeError
    (x : dict3 LpVariable) (sol : solution) (i m : string)
    (before after : list string) (s : string) (v : LpVariable) :
  (forall s', In s' before ->
     exists q', value_at x sol i s' m = Some q' /\ (q' <= 0)%Q) ->
  get3 x (i, s, m) = Some v ->
  varValue sol (name v) = None ->
  supplier_cell x sol i m (before ++ s :: after) = Err TypeError.
Proof.
  intros Hbefore Hv Hnone.
  induction before as [|s0 before IH]; simpl app.
  - simpl. unfold getitem3. rewrite Hv. cbn [bind]. rewrite Hnone.
    reflexivity.
  - destruct (Hbefore s0 (or_introl eq_refl)) as (q0 & Hq0 & Hle).
    unfold value_at in Hq0. simpl. unfold getitem3.
    destruct (get3 x (i, s0, m)) as [v0|]; [|discriminate].
    cbn [bind]. rewrite Hq0. simpl.
    assert (E : Qle_bool q0 0 = true) by now apply Qle_bool_iff.
    rewrite E. cbn [negb]. apply IH.
    intros s' Hs'. apply Hbefore. now right.
Qed.

Lemma cell_without_value_is_TypeError_witness :
  (forall s', In s' [] ->
     exists q', value_at (x costmin)
                  (mkSolution LpStatusNotSolved (fun _ => None))
                  "A1" s' "white" = Some q' /\ (q' <= 0)%Q) /\
  get3 (x costmin) ("A1", "supplier 1", "white") =
    Some (x_var "A1" "supplier 1" "white") /\
  supplier_cell (x costmin) (mkSolution LpStatusNotSolved (fun _ => None))
    "A1" "white" ([] ++ "supplier 1" :: ["supplier 2"; "supplier 3"]) =
  Err TypeError.
Proof.
  assert (H : forall s', In s' [] ->
     exists q', value_at (x costmin)
                  (mkSolution LpStatusNotSolved (fun _ => None))
                  "A1" s' "white" = Some q' /\ (q' <= 0)%Q)
    by (intros s' []).
  assert (Hv : get3 (x costmin) ("A1", "supplier 1", "white") =
               Some (x_var "A1" "supplier 1" "white")) by reflexivity.
  split; [exact H|]. split; [exact Hv|].
  exact (@cell_without_value_is_TypeError (x costmin)
           (mkSolution LpStatusNotSolved (fun _ => None)) "A1" "white"
           [] ["supplier 2"; "supplier 3"] "supplier 1"
           (x_var "A1" "supplier 1" "white") H Hv eq_refl).
Defined.

Lemma last_char_app s c :
  last_char (s ++ String c EmptyString) = Ok (String c EmptyString).
Proof.
  induction s as [|c0 s IH]; [reflexivity|].
  change ((String c0 s ++ String c EmptyString)%string)
    with (String c0 (s ++ String c EmptyString)%string).
  cbn [last_char]. rewrite IH.
  destruct (s ++ String c EmptyString)%string eqn:E; [|reflexivity].
  destruct s; discriminate.
Qed.

(** X12: the label of a supplier in the summary table keeps the last
    character of its name and nothing else: two suppliers whose names end
    alike get the same label, and a supplier with an empty name, once it
    has a quantity above 0, raises [IndexError]. *)
Theorem label_is_last_character
    (x : dict3 LpVariable) (sol : solution) (i m : string)
    (s1 s2 : string) (c : ascii) (rest1 rest2 : list string) (q1 q2 : Q) :
  value_at x sol i (s1 ++ String c EmptyString) m = Some q1 ->
  value_at x sol i (s2 ++ String c EmptyString) m = Some q2 ->
  (0 < q1)%Q -> (0 < q2)%Q ->
  supplier_cell x sol i m ((s1 ++ String c EmptyString)%string :: rest1) =
    Ok ("supplier " ++ String c EmptyString)%string /\
  supplier_cell x sol i m ((s2 ++ String c EmptyString)%string :: rest2) =
    Ok ("supplier " ++ String c EmptyString)%string /\
  (forall q rest, value_at x sol i "" m = Some q -> (0 < q)%Q ->
     supplier_cell x sol i m ("" :: rest) = Err IndexError).
Proof.
  intros H1 H2 Hq1 Hq2.
  assert (Hcell : forall s rest q,
    value_at x sol i s m = Some q -> (0 < q)%Q ->
    supplier_cell x sol i m (s :: rest) =
    (c' <- last_char s ;; Ok ("supplier " ++ c')%string)).
  { intros s rest q H Hq. unfold value_at in H. simpl. unfold getitem3.
    destruct (get3 x (i, s, m)) as [v|]; [|discriminate].
    cbn [bind]. rewrite H. simpl.
    assert (E : Qle_bool q 0 = false).
    { destruct (Qle_bool q 0) eqn:E; [|reflexivity].
      apply Qle_bool_iff in E. lra. }
    rewrite E. reflexivity. }
  split; [|split].
  - rewrite (Hcell _ rest1 q1 H1 Hq1), last_char_app. reflexivity.
  - rewrite (Hcell _ rest2 q2 H2 Hq2), last_char_app. reflexivity.
  - intros q rest H Hq. rewrite (Hcell _ rest q H Hq). reflexivity.
Qed.

Lemma label_is_last_character_witness :
  value_at [(("A1", "supplier 12", "white"), x_var "A1" "supplier 12" "white");
            (("A1", "vendor 2", "white"), x_var "A1" "vendor 2" "white")]
    (all_at 1 (prob costmin)) "A1" ("supplier 1" ++ "2") "white" = Some 1%Q /\
  supplier_cell
    [(("A1", "supplier 12", "white"), x_var "A1" "supplier 12" "white");
     (("A1", "vendor 2", "white"), x_var "A1" "vendor 2" "white")]
    (all_at 1 (prob costmin)) "A1" "white"
    (("supplier 1" ++ "2")%string :: []) = Ok "supplier 2" /\
  supplier_cell
    [(("A1", "supplier 12", "white"), x_var "A1" "supplier 12" "white");
     (("A1", "vendor 2", "white"), x_var "A1" "vendor 2" "white")]
    (all_at 1 (prob costmin)) "A1" "white"
    (("vendor " ++ "2")%string :: []) = Ok "supplier 2".
Proof.
  assert (Hq : (0 < 1)%Q) by lra.
  split; [reflexivity|].
  pose proof (@label_is_last_character
    [(("A1", "supplier 12", "white"), x_var "A1" "supplier 12" "white");
     (("A1", "vendor 2", "white"), x_var "A1" "vendor 2" "white")]
    (all_at 1 (prob costmin)) "A1" "white" "supplier 1" "vendor " "2"%char
    [] [] 1%Q 1%Q eq_refl eq_refl Hq Hq) as (H1 & H2 & _).
  split; [exact H1 | exact H2].
Defined.

(** ** Line 115: the width of a row *)

Lemma length_append s1 s2 :
  String.length (s1 ++ s2) = (String.length s1 + String.length s2)%nat.
Proof.
  induction s1 as [|c s1 IH]; simpl; [reflexivity | now rewrite IH].
Qed.

Lemma length_spaces n : String.length (spaces n) = n.
Proof. induction n as [|n IH]; simpl; [reflexivity | now rewrite IH]. Qed.

Lemma length_ljust w s :
  String.length (ljust w s) = Nat.max w (String.length s).
Proof.
  unfold ljust. rewrite length_append, length_spaces. lia.
Qed.

(** X13: a row of the summary table is never cut: each field is as wide as
    its text when that is longer than the field.  A row has 68 characters,
    line end included, when the implant name has at most 15 and the cells
    at most 10; the header, whose first title has 19, has 72: its columns
    stand four characters to the right of those of such rows. *)
Theorem row_width (i c1 c2 c3 c4 : string) (rest : list string) :
  exists t,
    format_row (i :: c1 :: c2 :: c3 :: c4 :: rest) = Ok t /\
    String.length t =
      (Nat.max 15 (String.length i) + Nat.max 10 (String.length c1) +
       Nat.max 10 (String.length c2) + Nat.max 10 (String.length c3) +
       Nat.max 10 (String.length c4) + 13)%nat /\
    ((String.length i <= 15)%nat -> (String.length c1 <= 10)%nat ->
     (String.length c2 <= 10)%nat -> (String.length c3 <= 10)%nat ->
     (String.length c4 <= 10)%nat -> String.length t = 68%nat) /\
    String.length header = 72%nat.
Proof.
  eexists. split; [reflexivity|].
  assert (L : String.length
    (ljust 15 i ++ " | " ++ ljust 10 c1 ++ " | " ++ ljust 10 c2 ++ " | " ++
     ljust 10 c3 ++ " | " ++ ljust 10 c4 ++ nl) =
    (Nat.max 15 (String.length i) + Nat.max 10 (String.length c1) +
     Nat.max 10 (String.length c2) + Nat.max 10 (String.length c3) +
     Nat.max 10 (String.length c4) + 13)%nat).
  { rewrite !length_append, !length_ljust. simpl. lia. }
  split; [exact L|]. split; [|reflexivity].
  intros. rewrite L. lia.
Qed.

(** ** Line 94: the total cost *)

Lemma terms_value_None (val : var -> option Q) ts acc t :
  In t ts -> val (name (fst t)) = None -> terms_value val ts acc = None.
Proof.
  revert acc; induction ts as [|[v c] ts IH]; simpl; intros acc Hin Hnone;
    [contradiction|].
  destruct Hin as [<-|Hin].
  - simpl in Hnone. now rewrite Hnone.
  - destruct (val (name v)); [|reflexivity]. now apply IH.
Qed.

Lemma script_trace
    (demand : dict Q) (costs ceramic_composition : dict (dict Q))
    (mdl : model) (solver : LpProblem -> solution) :
  build demand costs ceramic_composition = Ok mdl ->
  In (PrintTotalCost
        (expr_value (varValue (solver (prob mdl))) (objective (prob mdl))))
     (fst (script demand costs ceramic_composition solver)).
Proof.
  intros Hb. unfold script. rewrite Hb. unfold lift; simpl.
  rewrite (detail_view_ok Hb). simpl.
  destruct (generate_formatted_table_with_suppliers _ _ _ _); simpl;
    right; apply in_or_app; right; simpl; auto.
Qed.


Lemma terms_value_Some (val : var -> option Q) ts acc :
  (forall t, In t ts -> exists q, val (name (fst t)) = Some q) ->
  exists f, terms_value val ts acc = Some f.
Proof.
  revert acc; induction ts as [|[v c] ts IH]; simpl; intros acc H; [eauto|].
  destruct (H (v, c) (or_introl eq_refl)) as (q & Hq). simpl in Hq.
  rewrite Hq. apply IH. intros t Ht. apply H. now right.
Qed.

Lemma expr_vars_scale_nonzero c e :
  Qeq_bool c 0 = false -> expr_vars (scale c e) = expr_vars e.
Proof.
  intros E. unfold expr_vars, scale. rewrite E. simpl.
  rewrite map_map. reflexivity.
Qed.

Lemma objective_has_penalties
    (demand : dict Q) (costs ceramic_composition : dict (dict Q))
    (mdl : model) (i : string) :
  build demand costs ceramic_composition = Ok mdl ->
  In i (keys demand) ->
  In (p_minus_var i) (expr_vars (objective (prob mdl))).
Proof.
  intros Hb Hi. rewrite (objective_shape Hb). rewrite !expr_vars_add.
  apply in_or_app; right.
  rewrite expr_vars_scale_nonzero by reflexivity.
  rewrite expr_vars_lpSum_vars. now apply in_map.
Qed.

(** X14: line 94 on a solved model.  When the demand table has an implant
    and the solver gave a value to every variable of the objective, the
    script prints a float for total cost: the objective has terms, and
    [value()] adds their products up in binary64. *)
Theorem total_cost_is_a_float
    (demand : dict Q) (costs ceramic_composition : dict (dict Q))
    (mdl : model) (solver : LpProblem -> solution) :
  build demand costs ceramic_composition = Ok mdl ->
  keys demand <> [] ->
  (forall v, In v (expr_vars (objective (prob mdl))) ->
     exists q, varValue (solver (prob mdl)) (name v) = Some q) ->
  exists f,
    expr_value (varValue (solver (prob mdl))) (objective (prob mdl)) =
      Some f /\
    In (PrintTotalCost (Some f))
       (fst (script demand costs ceramic_composition solver)).
Proof.
  intros Hb Hd Hval.
  pose proof (@script_trace demand costs ceramic_composition mdl solver Hb)
    as H.
  assert (E : exists f,
    expr_value (varValue (solver (prob mdl))) (objective (prob mdl)) =
    Some f).
  { destruct (keys demand) as [|i0 rest] eqn:Ek; [congruence|].
    assert (Hi0 : In i0 (keys demand)) by (rewrite Ek; now left).
    pose proof (@objective_has_penalties _ _ _ _ _ Hb Hi0) as Hin.
    unfold expr_value.
    destruct (terms (objective (prob mdl))) as [|t0 ts] eqn:Et.
    - unfold expr_vars in Hin. rewrite Et in Hin. contradiction.
    - rewrite <- Et. apply terms_value_Some. intros t Ht.
      apply Hval. unfold expr_vars. now apply in_map. }
  destruct E as (f & E). exists f. split; [exact E|].
  rewrite E in H. exact H.
Qed.

Lemma total_cost_is_a_float_witness :
  build demand costs ceramic_composition = Ok costmin /\
  keys demand <> [] /\
  exists f,
    expr_value (fun v => Some (all_from_supplier_1 v))
      (objective (prob costmin)) = Some f /\
    In (PrintTotalCost (Some f))
       (fst (script demand costs ceramic_composition
               (fun _ => mkSolution LpStatusOptimal
                           (fun v => Some (all_from_supplier_1 v))))).
Proof.
  split; [exact costmin_built|]. split; [discriminate|].
  apply (@total_cost_is_a_float demand costs ceramic_composition costmin
           (fun _ => mkSolution LpStatusOptimal
                       (fun v => Some (all_from_supplier_1 v)))
           costmin_built).
  - discriminate.
  - intros v _. eexists. reflexivity.
Defined.

(** The float printed and the exact value of the objective differ in the
    last place: buying everything from the first supplier costs 54480.38,
    whose float is 0x1.a9a0c28f5c28fp+15, and line 94 prints
    0x1.a9a0c28f5c290p+15, that is 54480.380000000005. *)
Example total_cost_of_the_first_supplier :
  expr_value (fun v => Some (all_from_supplier_1 v))
    (objective (prob costmin)) = Some (binary64 0x1a9a0c28f5c290 (-37)) /\
  (value_of all_from_supplier_1 (objective (prob costmin)) ==
   5448038 # 100)%Q /\
  float_of_Q (5448038 # 100) = binary64 0x1a9a0c28f5c28f (-37).
Proof. repeat split; vm_compute; reflexivity. Qed.

(** X15: when the solver leaves a variable of the objective without a
    value, the script prints [None] for total cost. *)
Theorem total_cost_without_value
    (demand : dict Q) (costs ceramic_composition : dict (dict Q))
    (mdl : model) (solver : LpProblem -> solution) (v : LpVariable) :
  build demand costs ceramic_composition = Ok mdl ->
  In v (expr_vars (objective (prob mdl))) ->
  varValue (solver (prob mdl)) (name v) = None ->
  In (PrintTotalCost None)
     (fst (script demand costs ceramic_composition solver)).
Proof.
  intros Hb Hv Hnone.
  pose proof (@script_trace demand costs ceramic_composition mdl solver Hb)
    as H.
  unfold expr_vars in Hv. apply in_map_iff in Hv.
  destruct Hv as (t & <- & Ht).
  assert (E : expr_value (varValue (solver (prob mdl))) (objective (prob mdl))
              = None).
  { unfold expr_value. destruct (terms (objective (prob mdl))) as [|t0 ts] eqn:Et;
      [reflexivity|].
    rewrite <- Et. rewrite <- Et in Ht.
    exact (@terms_value_None _ _ _ t Ht Hnone). }
  rewrite E in H. exact H.
Qed.

Lemma total_cost_without_value_witness :
  build demand costs ceramic_composition = Ok costmin /\
  In (p_minus_var "D4") (expr_vars (objective (prob costmin))) /\
  In (PrintTotalCost None)
     (fst (script demand costs ceramic_composition
             (fun _ => mkSolution LpStatusNotSolved
                         (fun v => match v with
                                   | P_minus "D4" => None
                                   | _ => Some 0%Q
                                   end)))).
Proof.
  assert (Hv : In (p_minus_var "D4") (expr_vars (objective (prob costmin)))).
  { vm_compute. repeat (first [left; reflexivity | right]). }
  split; [exact costmin_built|]. split; [exact Hv|].
  exact (@total_cost_without_value demand costs ceramic_composition costmin
           (fun _ => mkSolution LpStatusNotSolved
                       (fun v => match v with
                                 | P_minus "D4" => None
                                 | _ => Some 0%Q
                                 end))
           (p_minus_var "D4") costmin_built Hv eq_refl).
Defined.

(** ** Lines 52-53 and 72: the two penalties of an implant *)



Lemma occurrences_In s l : In s l -> (1 <= occurrences s l)%Q.
Proof.
  unfold occurrences. induction l as [|s0 l IH]; simpl; [tauto|].
  assert (H0 : (0 <= sumQ (map (fun s' => if String.eqb s' s then 1 else 0) l))%Q).
  { apply sumQ_nonneg. intros q Hq. apply in_map_iff in Hq.
    destruct Hq as (s' & <- & _). destruct (String.eqb s' s); lra. }
  intros [->|Hin].
  - rewrite String.eqb_refl. lra.
  - specialize (IH Hin). destruct (String.eqb s0 s); lra.
Qed.


Section Penalties.

Context {demand : dict Q} {costs ceramic_composition : dict (dict Q)}.
Context {mdl : model}.
Hypothesis Hbuild : build demand costs ceramic_composition = Ok mdl.
Variable a : assignment.
Hypothesis Hfeasible : feasible (prob mdl) a.
Variable i : string.
Variable t : Q.
Hypothesis Ht_plus : (t <= a (P_plus i))%Q.
Hypothesis Ht_minus : (t <= a (P_minus i))%Q.

(** Both penalties of implant [i] lowered by [t]. *)
Let lowered : assignment :=
  with_penalties a i (a (P_plus i) - t) (a (P_minus i) - t).

Lemma lowered_x j s m : lowered (name (x_var j s m)) = a (name (x_var j s m)).
Proof. reflexivity. Qed.

Lemma lowered_z j m s : lowered (name (z_var j m s)) = a (name (z_var j m s)).
Proof. reflexivity. Qed.





End Penalties.




(** ** Lines 85-115: the report of a feasible assignment *)

Lemma filter_none A (p : A -> bool) l :
  (forall k, In k l -> p k = false) -> filter p l = [].
Proof.
  induction l as [|k l IH]; simpl; intros H; [reflexivity|].
  rewrite (H k) by auto. apply IH. auto.
Qed.

Lemma filter_single (p : string -> bool) s l :
  (occurrences s l == 1)%Q -> p s = true ->
  (forall s', In s' l -> s' <> s -> p s' = false) ->
  filter p l = [s].
Proof.
  unfold occurrences.
  induction l as [|s0 l IH]; simpl; intros Hocc Hs Hothers; [lra|].
  destruct (String.eqb_spec s0 s) as [->|Hne].
  - rewrite Hs. f_equal. apply filter_none. intros s' Hs'.
    apply Hothers; auto. intros ->.
    pose proof (occurrences_In s l Hs') as H1. unfold occurrences in H1. lra.
  - rewrite (Hothers s0) by auto. apply IH; auto. lra.
Qed.

Section Report.

Context {demand : dict Q} {costs ceramic_composition : dict (dict Q)}.
Context {mdl : model}.
Hypothesis Hbuild : build demand costs ceramic_composition = Ok mdl.
Variable a : assignment.
Hypothesis Hfeasible : feasible (prob mdl) a.
Variable sol : solution.
Hypothesis Hsol : forall v, varValue sol v = Some (a v).

Lemma feasible_source i ms m q :
  In i (keys demand) -> get ceramic_composition i = Some ms ->
  get ms m = Some q ->
  exists s,
    In s (keys costs) /\ (occurrences s (keys costs) == 1)%Q /\
    (a (X i s m) == q)%Q /\ (0 <= q)%Q /\
    forall s', In s' (keys costs) -> s' <> s -> (a (X i s' m) == 0)%Q.
Proof.
  intros Hd Hi Hm.
  destruct (feasible_indicators Hbuild Hfeasible i m Hd Hi (get_keys _ _ Hm))
    as (Hsum & Hbin).
  destruct (one_hot (fun s => a (Z i m s)) (keys costs) Hbin Hsum)
    as (s & Hs & Hone & Hzero).
  assert (Hx0 : forall s', In s' (keys costs) -> s' <> s ->
            (a (X i s' m) == 0)%Q).
  { intros s' Hs' Hne.
    destruct (feasible_link Hbuild Hfeasible i m s' Hd Hi Hm Hs')
      as (H0 & Hle).
    rewrite (Hzero s' Hs' Hne) in Hle. lra. }
  assert (Hocc : (occurrences s (keys costs) == 1)%Q).
  { pose proof (@sumQ_at (fun s => a (Z i m s)) s (keys costs) Hzero) as E.
    simpl in E. rewrite Hsum, Hone in E. lra. }
  assert (Hq : (a (X i s m) == q)%Q).
  { pose proof (@sumQ_at (fun s => a (X i s m)) s (keys costs) Hx0) as E.
    simpl in E.
    rewrite (feasible_requirement Hbuild Hfeasible i m Hi Hm), Hocc in E.
    lra. }
  exists s. repeat split; auto.
  destruct (feasible_link Hbuild Hfeasible i m s Hd Hi Hm Hs) as (H0 & _).
  lra.
Qed.

Lemma cell_step i ms m s rest :
  get ceramic_composition i = Some ms -> In m (keys ms) ->
  In s (keys costs) ->
  supplier_cell (x mdl) sol i m (s :: rest) =
  if negb (Qle_bool (a (X i s m)) 0)
  then (c <- last_char s ;; Ok ("supplier " ++ c)%string)
  else supplier_cell (x mdl) sol i m rest.
Proof.
  intros Hi Hm Hs. simpl.
  rewrite (x_lookup_composition Hbuild i m s Hi Hm Hs). cbn [bind].
  simpl. rewrite Hsol. reflexivity.
Qed.

Lemma cell_zero i ms m l :
  get ceramic_composition i = Some ms -> In m (keys ms) ->
  incl l (keys costs) ->
  (forall s, In s l -> (a (X i s m) == 0)%Q) ->
  supplier_cell (x mdl) sol i m l = Ok "0".
Proof.
  intros Hi Hm. induction l as [|s l IH]; intros Hincl Hzero; [reflexivity|].
  rewrite (cell_step i m s l Hi Hm (Hincl s (or_introl eq_refl))).
  assert (E : Qle_bool (a (X i s m)) 0 = true).
  { apply Qle_bool_iff. rewrite (Hzero s (or_introl eq_refl)). lra. }
  rewrite E. cbn [negb]. apply IH.
  - intros s' Hs'. apply Hincl. now right.
  - intros s' Hs'. apply Hzero. now right.
Qed.

Lemma cell_source i ms m s l :
  get ceramic_composition i = Some ms -> In m (keys ms) ->
  incl l (keys costs) -> In s l ->
  (0 < a (X i s m))%Q ->
  (forall s', In s' l -> s' <> s -> (a (X i s' m) == 0)%Q) ->
  supplier_cell (x mdl) sol i m l =
  (c <- last_char s ;; Ok ("supplier " ++ c)%string).
Proof.
  intros Hi Hm. induction l as [|s0 l IH]; intros Hincl Hin Hpos Hzero;
    [contradiction|].
  rewrite (cell_step i m s0 l Hi Hm (Hincl s0 (or_introl eq_refl))).
  destruct (String.eqb_spec s0 s) as [->|Hne].
  - assert (E : Qle_bool (a (X i s m)) 0 = false).
    { destruct (Qle_bool (a (X i s m)) 0) eqn:E; [|reflexivity].
      apply Qle_bool_iff in E. lra. }
    rewrite E. reflexivity.
  - assert (E : Qle_bool (a (X i s0 m)) 0 = true).
    { apply Qle_bool_iff. rewrite (Hzero s0); auto; [lra | simpl; auto]. }
    rewrite E. cbn [negb]. destruct Hin as [->|Hin]; [congruence|].
    apply IH; auto.
    + intros s' Hs'. apply Hincl. now right.
    + intros s' Hs'. apply Hzero. now right.
Qed.

End Report.

(** X17: the two views agree on a feasible assignment that the solver
    returns as it is.  For a powder of a demanded implant that is required
    in a quantity other than 0, the detail view prints one line, for the
    one supplier that sells it, with the whole quantity, and the summary
    table names that same supplier; for a powder required in quantity 0
    the detail view prints nothing and the cell is "0". *)
Theorem report_of_a_feasible_assignment
    (demand : dict Q) (costs ceramic_composition : dict (dict Q))
    (mdl : model) (a : assignment) (sol : solution)
    (i m : string) (ms : dict Q) (q : Q) :
  build demand costs ceramic_composition = Ok mdl ->
  feasible (prob mdl) a ->
  (forall v, varValue sol v = Some (a v)) ->
  In i (keys demand) ->
  get ceramic_composition i = Some ms ->
  get ms m = Some q ->
  ((q == 0)%Q ->
   for_each (report_purchase (x mdl) sol i m) (keys costs) = ([], Ok tt) /\
   supplier_cell (x mdl) sol i m (keys costs) = Ok "0") /\
  (~ (q == 0)%Q ->
   exists s,
     In s (keys costs) /\ (a (X i s m) == q)%Q /\
     for_each (report_purchase (x mdl) sol i m) (keys costs) =
       ([PrintPurchase m s (Some (a (X i s m)))], Ok tt) /\
     supplier_cell (x mdl) sol i m (keys costs) =
       (c <- last_char s ;; Ok ("supplier " ++ c)%string)).
Proof.
  intros Hb Hf Hsol Hd Hi Hm.
  pose proof (get_keys _ _ Hm) as Hm'.
  destruct (@feasible_source demand costs ceramic_composition mdl Hb a Hf
              i ms m q Hd Hi Hm) as (s & Hs & Hocc & Hq & Hq0 & Hzero).
  rewrite (report_powder_ok Hb sol i m Hi Hm'). unfold purchase_lines.
  assert (Hne : forall s', (a (X i s' m) == 0)%Q ->
            ne_zero (varValue sol (X i s' m)) = false).
  { intros s' E. rewrite Hsol. simpl.
    apply negb_false_iff. now apply Qeq_bool_iff. }
  split.
  - intros E0.
    assert (Hall : forall s', In s' (keys costs) -> (a (X i s' m) == 0)%Q).
    { intros s' Hs'. destruct (string_dec s' s) as [->|Hn].
      - rewrite Hq. exact E0.
      - now apply Hzero. }
    split.
    + rewrite filter_none; [reflexivity|]. intros s' Hs'. apply Hne. auto.
    + apply (@cell_zero demand costs ceramic_composition mdl Hb a sol Hsol
               i ms m (keys costs) Hi Hm' (incl_refl _) Hall).
  - intros Hnz. exists s. split; [exact Hs|]. split; [exact Hq|]. split.
    + rewrite (@filter_single _ s (keys costs) Hocc).
      * simpl. rewrite Hsol. reflexivity.
      * rewrite Hsol. simpl. apply negb_true_iff.
        destruct (Qeq_bool (a (X i s m)) 0) eqn:E; [|reflexivity].
        apply Qeq_bool_iff in E. rewrite Hq in E. contradiction.
      * intros s' Hs' Hn. apply Hne. now apply Hzero.
    + apply (@cell_source demand costs ceramic_composition mdl Hb a sol Hsol
               i ms m s (keys costs) Hi Hm' (incl_refl _) Hs); [|exact Hzero].
      rewrite Hq. destruct (Qlt_le_dec 0 q) as [H|H]; [exact H|].
      exfalso. apply Hnz. lra.
Qed.

Lemma report_of_a_feasible_assignment_witness :
  build demand costs ceramic_composition = Ok costmin /\
  feasible (prob costmin) all_from_supplier_1 /\
  In "A1" (keys demand) /\
  exists s,
    In s (keys costs) /\
    (all_from_supplier_1 (X "A1" s "white") == 58)%Q /\
    for_each (report_purchase (x costmin)
                (mkSolution LpStatusOptimal
                   (fun v => Some (all_from_supplier_1 v))) "A1" "white")
      (keys costs) =
      ([PrintPurchase "white" s (Some (all_from_supplier_1 (X "A1" s "white")))],
       Ok tt) /\
    supplier_cell (x costmin)
      (mkSolution LpStatusOptimal (fun v => Some (all_from_supplier_1 v)))
      "A1" "white" (keys costs) =
      (c <- last_char s ;; Ok ("supplier " ++ c)%string).
Proof.
  assert (Hd : In "A1" (keys demand)) by (simpl; tauto).
  assert (Hq : ~ (58 == 0)%Q) by (intros H; discriminate H).
  split; [exact costmin_built|]. split; [exact costmin_feasible|].
  split; [exact Hd|].
  exact (proj2 (@report_of_a_feasible_assignment
                  demand costs ceramic_composition costmin
                  all_from_supplier_1
                  (mkSolution LpStatusOptimal
                     (fun v => Some (all_from_supplier_1 v)))
                  "A1" "white" (powders 58 38 0 4) 58%Q
                  costmin_built costmin_feasible (fun v => eq_refl)
                  Hd eq_refl eq_refl) Hq).
Defined.
